(** * Atto: a shallow embedding of the editor [src/atto.c]

    The development follows the layout of the C file: row operations,
    editor operations, file I/O, input decoding, output, the prompt, the
    key dispatcher and the main loop; the viewer [src/kilo.c], from which
    the editor grew, is embedded where it differs.  Conventions of the
    embedding:

    - a C [char] is the integer it holds ([Z]); a [char*] buffer together
      with its length is a [list Z], so [row->size] is the length of
      [chars] and [row->rsize] the length of [render];
    - [int] variables ([cx], [cy], [at], [dirty], ...) are [Z]; the
      guards that the code writes out ([at < 0], [at > E.numrows], ...)
      are kept as written.  The sizes of a document stay far below
      [2^31], where C leaves signed overflow undefined, so no wrap-around
      is modelled for them;
    - the global [E] is passed explicitly; [E.numrows] is the length of
      [E.row], which the code keeps equal to it at every update;
    - an access to a row that does not exist (undefined behaviour in C)
      is [None]. *)

From Equations Require Import Equations.
From stdpp Require Import base list option numbers strings.
From Stdlib Require Import ZArith Lia DecimalString.

Open Scope Z_scope.

(** ** Defines *)

Definition ATTO_TAB_STOP : nat := 4.
Definition ATTO_QUIT_TIMES : Z := 2.

Definition CTRL_KEY (k : Z) : Z := Z.land k 31.

Definition BACKSPACE : Z := 127.
Definition ARROW_LEFT : Z := 1000.
Definition ARROW_RIGHT : Z := 1001.
Definition ARROW_UP : Z := 1002.
Definition ARROW_DOWN : Z := 1003.
Definition DEL_KEY : Z := 1004.
Definition HOME_KEY : Z := 1005.
Definition END_KEY : Z := 1006.
Definition PAGE_UP : Z := 1007.
Definition PAGE_DOWN : Z := 1008.

(** Character constants used by the source. *)
Definition TAB : Z := 9.
Definition NL : Z := 10.
Definition CR : Z := 13.
Definition ESC : Z := 27.
Definition SPACE : Z := 32.

(** Storing an [int] into a [char] (as [row->chars[at] = c] does) keeps
    the low eight bits, read back as a signed char. *)
Definition char_of_int (c : Z) : Z := (c + 128) mod 256 - 128.

(** ** Data *)

Record erow := mkRow { chars : list Z; render : list Z }.

Definition size (r : erow) : Z := Z.of_nat (length (chars r)).
Definition rsize (r : erow) : Z := Z.of_nat (length (render r)).

Record editorConfig := mkE {
  cx : Z; cy : Z;
  rx : Z;
  rowoff : Z; coloff : Z;
  screenrows : Z; screencols : Z;
  row : list erow;
  dirty : Z;
  filename : option (list Z);
  statusmsg : list Z
}.

Definition numrows (E : editorConfig) : Z := Z.of_nat (length (row E)).

Definition set_cx (v : Z) (E : editorConfig) : editorConfig :=
  mkE v (cy E) (rx E) (rowoff E) (coloff E) (screenrows E) (screencols E)
      (row E) (dirty E) (filename E) (statusmsg E).
Definition set_cy (v : Z) (E : editorConfig) : editorConfig :=
  mkE (cx E) v (rx E) (rowoff E) (coloff E) (screenrows E) (screencols E)
      (row E) (dirty E) (filename E) (statusmsg E).
Definition set_rx (v : Z) (E : editorConfig) : editorConfig :=
  mkE (cx E) (cy E) v (rowoff E) (coloff E) (screenrows E) (screencols E)
      (row E) (dirty E) (filename E) (statusmsg E).
Definition set_rowoff (v : Z) (E : editorConfig) : editorConfig :=
  mkE (cx E) (cy E) (rx E) v (coloff E) (screenrows E) (screencols E)
      (row E) (dirty E) (filename E) (statusmsg E).
Definition set_coloff (v : Z) (E : editorConfig) : editorConfig :=
  mkE (cx E) (cy E) (rx E) (rowoff E) v (screenrows E) (screencols E)
      (row E) (dirty E) (filename E) (statusmsg E).
Definition set_row (v : list erow) (E : editorConfig) : editorConfig :=
  mkE (cx E) (cy E) (rx E) (rowoff E) (coloff E) (screenrows E) (screencols E)
      v (dirty E) (filename E) (statusmsg E).
Definition set_dirty (v : Z) (E : editorConfig) : editorConfig :=
  mkE (cx E) (cy E) (rx E) (rowoff E) (coloff E) (screenrows E) (screencols E)
      (row E) v (filename E) (statusmsg E).
Definition set_filename (v : option (list Z)) (E : editorConfig) : editorConfig :=
  mkE (cx E) (cy E) (rx E) (rowoff E) (coloff E) (screenrows E) (screencols E)
      (row E) (dirty E) v (statusmsg E).
Definition set_statusmsg (v : list Z) (E : editorConfig) : editorConfig :=
  mkE (cx E) (cy E) (rx E) (rowoff E) (coloff E) (screenrows E) (screencols E)
      (row E) (dirty E) (filename E) v.

(** [&E.row[i]] for an [int] index: defined only for an existing row. *)
Definition row_index (E : editorConfig) (i : Z) : option nat :=
  if (0 <=? i) && (i <? numrows E) then Some (Z.to_nat i) else None.

(** ** Row operations *)

(** The inner loop of [editorUpdateRow]:
    [while (idx % ATTO_TAB_STOP != 0) render[idx++] = ' ';]
    The write index [idx] is the length of what has been rendered. *)
Equations? tab_fill (out : list Z) : list Z
  by wf ((ATTO_TAB_STOP - length out mod ATTO_TAB_STOP) mod ATTO_TAB_STOP)%nat lt :=
  tab_fill out with Nat.eq_dec (length out mod ATTO_TAB_STOP) 0 => {
    | left _ := out
    | right _ := tab_fill (out ++ [SPACE]) }.
Proof.
  clear tab_fill. rewrite length_app. simpl length. unfold ATTO_TAB_STOP in *.
  pose proof (Nat.mod_upper_bound (length out) 4 ltac:(lia)) as Hb.
  assert ((length out + 1) mod 4 = (length out mod 4 + 1) mod 4)%nat as ->.
  { rewrite Nat.Div0.add_mod by lia. reflexivity. }
  revert n Hb. generalize (length out mod 4)%nat. intros m ? ?.
  assert (m = 1 \/ m = 2 \/ m = 3)%nat as [-> | [-> | ->]] by lia; simpl; lia.
Qed.

(** The second loop of [editorUpdateRow], from input position [j] on:
    [out] is [render[0..idx)]. *)
Fixpoint render_loop (out : list Z) (cs : list Z) : list Z :=
  match cs with
  | [] => out
  | c :: cs' =>
      if Z.eqb c TAB
      then render_loop (tab_fill (out ++ [SPACE])) cs'
      else render_loop (out ++ [c]) cs'
  end.

(** The first loop of [editorUpdateRow]: the number of tabs. *)
Fixpoint count_tabs (cs : list Z) : nat :=
  match cs with
  | [] => 0%nat
  | c :: cs' => if Z.eqb c TAB then S (count_tabs cs') else count_tabs cs'
  end.


Definition editorUpdateRow (r : erow) : erow :=
  mkRow (chars r) (render_loop [] (chars r)).

(** [editorRowCxToRx]: the loop reads [chars[0..cx)]; [chars[size]] is the
    terminating NUL, anything beyond is outside the buffer. *)
Definition cx_to_rx_step (rx : Z) (c : Z) : Z :=
  (if Z.eqb c TAB
   then rx + ((Z.of_nat ATTO_TAB_STOP - 1) - rx mod Z.of_nat ATTO_TAB_STOP)
   else rx) + 1.

Definition editorRowCxToRx (r : erow) (cx : Z) : option Z :=
  if cx >? size r + 1 then None
  else Some (foldl cx_to_rx_step 0 (take (Z.to_nat cx) (chars r ++ [0]))).

Definition editorInsertRow (at_ : Z) (s : list Z) (E : editorConfig) : editorConfig :=
  if (at_ <? 0) || (at_ >? numrows E) then E
  else
    let n := Z.to_nat at_ in
    set_dirty (dirty E + 1)
      (set_row (take n (row E) ++ editorUpdateRow (mkRow s []) :: drop n (row E)) E).

Definition editorDelRow (at_ : Z) (E : editorConfig) : editorConfig :=
  if (at_ <? 0) || (at_ >=? numrows E) then E
  else set_dirty (dirty E + 1) (set_row (delete (Z.to_nat at_) (row E)) E).

(** The [erow*] argument of the three functions below always points into
    [E.row]; it is given by its index [ri]. *)
Definition editorRowInsertChar (ri : nat) (at_ : Z) (c : Z) (E : editorConfig)
  : option editorConfig :=
  r ← row E !! ri;
  let at' := if (at_ <? 0) || (at_ >? size r) then size r else at_ in
  let n := Z.to_nat at' in
  let r' := editorUpdateRow
              (mkRow (take n (chars r) ++ char_of_int c :: drop n (chars r)) (render r)) in
  Some (set_dirty (dirty E + 1) (set_row (<[ri := r']> (row E)) E)).

Definition editorRowAppendString (ri : nat) (s : list Z) (E : editorConfig)
  : option editorConfig :=
  r ← row E !! ri;
  let r' := editorUpdateRow (mkRow (chars r ++ s) (render r)) in
  Some (set_dirty (dirty E + 1) (set_row (<[ri := r']> (row E)) E)).

Definition editorRowDelChar (ri : nat) (at_ : Z) (E : editorConfig)
  : option editorConfig :=
  r ← row E !! ri;
  if (at_ <? 0) || (at_ >=? size r) then Some E
  else
    let r' := editorUpdateRow (mkRow (delete (Z.to_nat at_) (chars r)) (render r)) in
    Some (set_dirty (dirty E + 1) (set_row (<[ri := r']> (row E)) E)).

(** ** Editor operations *)

Definition editorInsertChar (c : Z) (E : editorConfig) : option editorConfig :=
  let E1 := if cy E =? numrows E then editorInsertRow (numrows E) [] E else E in
  ri ← row_index E1 (cy E1);
  E2 ← editorRowInsertChar ri (cx E1) c E1;
  Some (set_cx (cx E2 + 1) E2).

Definition editorInsertNewLine (E : editorConfig) : option editorConfig :=
  E' ← (if cx E =? 0 then Some (editorInsertRow (cy E) [] E)
        else
          ri ← row_index E (cy E);
          r ← row E !! ri;
          (* [&row->chars[E.cx]] with length [row->size - E.cx] *)
          if (cx E <? 0) || (cx E >? size r) then None
          else
            let E1 := editorInsertRow (cy E + 1) (drop (Z.to_nat (cx E)) (chars r)) E in
            r1 ← row E1 !! ri;
            let r2 := editorUpdateRow (mkRow (take (Z.to_nat (cx E1)) (chars r1)) (render r1)) in
            Some (set_row (<[ri := r2]> (row E1)) E1));
  Some (set_cx 0 (set_cy (cy E' + 1) E')).

Definition editorDelChar (E : editorConfig) : option editorConfig :=
  if cy E =? numrows E then Some E
  else if (cx E =? 0) && (cy E =? 0) then Some E
  else
    ri ← row_index E (cy E);
    r ← row E !! ri;
    if cx E >? 0 then
      E1 ← editorRowDelChar ri (cx E - 1) E;
      Some (set_cx (cx E1 - 1) E1)
    else
      pi ← row_index E (cy E - 1);
      p ← row E !! pi;
      let E1 := set_cx (size p) E in
      E2 ← editorRowAppendString pi (chars r) E1;
      let E3 := editorDelRow (cy E2) E2 in
      Some (set_cy (cy E3 - 1) E3).

(** ** File I/O *)

(** [editorRowsToString]: the first loop computes [*buflen], the second
    fills the buffer. *)
Definition rows_totlen (rs : list erow) : Z :=
  foldl (fun tot r => tot + (size r + 1)) 0 rs.

Definition rows_buffer (rs : list erow) : list Z :=
  foldl (fun buf r => buf ++ chars r ++ [NL]) [] rs.

Definition editorRowsToString (E : editorConfig) : list Z * Z :=
  (rows_buffer (row E), rows_totlen (row E)).

(** [getline] on the unread part of the file: the bytes up to and
    including the next newline, or everything left when there is none;
    [-1] ([None]) at end of file. *)
Fixpoint read_line (s : list Z) : list Z * list Z :=
  match s with
  | [] => ([], [])
  | c :: s' =>
      if Z.eqb c NL then ([c], s')
      else let '(l, rest) := read_line s' in (c :: l, rest)
  end.

Definition getline (s : list Z) : option (list Z * list Z) :=
  match s with
  | [] => None
  | _ => Some (read_line s)
  end.

(** [while (linelen > 0 && (line[linelen-1] == '\n' || line[linelen-1] == '\r')) --linelen;]
    on the reversed line. *)
Fixpoint trim_rev (rl : list Z) : list Z :=
  match rl with
  | [] => []
  | c :: rl' => if Z.eqb c NL || Z.eqb c CR then trim_rev rl' else rl
  end.

Definition trim_eol (l : list Z) : list Z := reverse (trim_rev (reverse l)).

(** The reading loop of [editorOpen].  [fuel] bounds the iterations; the
    result is [None] only when it runs out. *)
Fixpoint open_loop (fuel : nat) (s : list Z) (E : editorConfig) : option editorConfig :=
  match fuel with
  | O => None
  | S fuel' =>
      match getline s with
      | None => Some E
      | Some (line, rest) =>
          open_loop fuel' rest (editorInsertRow (numrows E) (trim_eol line) E)
      end
  end.

(** Outcome of a run of a piece of the editor. *)
Inductive res (A : Type) : Type :=
  | Done (a : A)          (* returned normally *)
  | Exit (code : Z)       (* the process called [exit] *)
  | Starved               (* blocked for ever on an input that never comes *)
  | Undef                 (* left the defined behaviour of C *)
  | NoFuel.               (* the bound given to a loop was too small *)
Arguments Done {A} a.
Arguments Exit {A} code.
Arguments Starved {A}.
Arguments Undef {A}.
Arguments NoFuel {A}.

#[export] Instance res_ret : MRet res := fun A a => Done a.
#[export] Instance res_bind : MBind res := fun A B f m =>
  match m with
  | Done a => f a
  | Exit c => Exit c
  | Starved => Starved
  | Undef => Undef
  | NoFuel => NoFuel
  end.

Definition defined {A} (o : option A) : res A :=
  match o with Some a => Done a | None => Undef end.

Definition fueled {A} (o : option A) : res A :=
  match o with Some a => Done a | None => NoFuel end.

(** [die]: clear the screen, [perror], [exit(1)]. *)
Definition die {A} : res A := Exit 1.

(** [editorOpen filename]: [file] is the content found under that name,
    [None] when [fopen] fails. *)
Definition editorOpen (name : list Z) (file : option (list Z)) (E : editorConfig)
  : res editorConfig :=
  let E0 := set_filename (Some name) E in
  match file with
  | None => die
  | Some s =>
      (* linelen = getline(&line, &linecap, fp); *)
      let s1 := match getline s with Some (_, rest) => rest | None => s end in
      E1 ← fueled (open_loop (S (length s1)) s1 E0);
      Done (set_dirty 0 E1)
  end.

(** ** Terminal input *)

(** What one [read(STDIN_FILENO, &c, 1)] call returns in raw mode with
    [VMIN = 0], [VTIME = 1]: a byte, a timeout ([0]), or an error ([-1],
    with [errno] set). *)
Inductive read_result : Type :=
  | Got (c : Z)
  | TimedOut
  | Failed (e : Z).

(** Calls on the file being saved, in the order they were made. *)
Inductive sys_event : Type :=
  | SysOpen (name : list Z)
  | SysFtruncate (len : Z)
  | SysWrite (buf : list Z) (len : Z)
  | SysClose.

(** The process's surroundings: the reads still to come from the
    terminal (after the last one every read times out), [errno], and the
    file calls made so far. *)
Record os := mkOs {
  stdin : list read_result;
  errno : Z;
  syscalls : list sys_event
}.

Definition EAGAIN : Z := 11.

(** A single [read(STDIN_FILENO, &seq[i], 1) != 1] test. *)
Definition read1 (w : os) : option Z * os :=
  match stdin w with
  | [] => (None, w)
  | Got c :: l => (Some c, mkOs l (errno w) (syscalls w))
  | TimedOut :: l => (None, mkOs l (errno w) (syscalls w))
  | Failed e :: l => (None, mkOs l e (syscalls w))
  end.

(** The first loop of [editorReadKey]:
    [while ((nread = read(...)) != 1) if (nread == -1 && errno != EAGAIN) die("read");] *)
Fixpoint read_blocking (l : list read_result) (en : Z) (sc : list sys_event)
  : res (Z * os) :=
  match l with
  | [] => Starved
  | Got c :: l' => Done (c, mkOs l' en sc)
  | TimedOut :: l' => read_blocking l' en sc
  | Failed e :: l' => if Z.eqb e EAGAIN then read_blocking l' e sc else die
  end.

Definition editorReadKey (w : os) : res (Z * os) :=
  '(c, w0) ← read_blocking (stdin w) (errno w) (syscalls w);
  if Z.eqb c ESC then
    match read1 w0 with
    | (None, w1) => Done (ESC, w1)
    | (Some s0, w1) =>
        match read1 w1 with
        | (None, w2) => Done (ESC, w2)
        | (Some s1, w2) =>
            if Z.eqb s0 91 (* '[' *) then
              if (48 <=? s1) && (s1 <=? 57) (* '0' .. '9' *) then
                match read1 w2 with
                | (None, w3) => Done (ESC, w3)
                | (Some s2, w3) =>
                    if Z.eqb s2 126 (* '~' *) then
                      if Z.eqb s1 49 then Done (HOME_KEY, w3)
                      else if Z.eqb s1 51 then Done (DEL_KEY, w3)
                      else if Z.eqb s1 52 then Done (END_KEY, w3)
                      else if Z.eqb s1 53 then Done (PAGE_UP, w3)
                      else if Z.eqb s1 54 then Done (PAGE_DOWN, w3)
                      else if Z.eqb s1 55 then Done (HOME_KEY, w3)
                      else if Z.eqb s1 56 then Done (END_KEY, w3)
                      else Done (ESC, w3)
                    else Done (ESC, w3)
                end
              else
                if Z.eqb s1 65 then Done (ARROW_UP, w2)
                else if Z.eqb s1 66 then Done (ARROW_DOWN, w2)
                else if Z.eqb s1 67 then Done (ARROW_RIGHT, w2)
                else if Z.eqb s1 68 then Done (ARROW_LEFT, w2)
                else if Z.eqb s1 72 then Done (HOME_KEY, w2)
                else if Z.eqb s1 70 then Done (END_KEY, w2)
                else Done (ESC, w2)
            else if Z.eqb s0 79 (* 'O' *) then
              if Z.eqb s1 72 then Done (HOME_KEY, w2)
              else if Z.eqb s1 70 then Done (END_KEY, w2)
              else Done (ESC, w2)
            else Done (ESC, w2)
        end
    end
  else Done (c, w0).

(** ** Output *)

Definition editorScroll (E : editorConfig) : option editorConfig :=
  E1 ← (if cy E <? numrows E then
          ri ← row_index E (cy E);
          r ← row E !! ri;
          v ← editorRowCxToRx r (cx E);
          Some (set_rx v E)
        else Some (set_rx 0 E));
  let E2 := if cy E1 <? rowoff E1 then set_rowoff (cy E1) E1 else E1 in
  let E3 := if cy E2 >=? rowoff E2 + screenrows E2
            then set_rowoff (cy E2 - screenrows E2 + 1) E2 else E2 in
  let E4 := if rx E3 <? coloff E3 then set_coloff (rx E3) E3 else E3 in
  let E5 := if rx E4 >=? coloff E4 + screencols E4
            then set_coloff (rx E4 - screencols E4 + 1) E4 else E4 in
  Some E5.

(** [editorRefreshScreen] changes the editor state through [editorScroll]
    only; the frame it writes to the terminal is not kept here.  The
    drawing, with what it reads, is [refresh_frame] below, and the
    module [Drawn] has the prompt, the key dispatcher and the main loop
    with their redraws. *)
Definition editorRefreshScreen (E : editorConfig) : option editorConfig :=
  editorScroll E.

(** [editorSetStatusMessage]: [vsnprintf] into [char statusmsg[80]] keeps
    at most 79 bytes of the formatted text.  The argument is the text
    after formatting.  The time stamp [statusmsg_time], which only the
    message bar reads, is not kept. *)
Definition editorSetStatusMessage (msg : list Z) (E : editorConfig) : editorConfig :=
  set_statusmsg (take 79 msg) E.

(** ** Strings of the source *)

(** A string literal as the bytes it stands for. *)
Definition bytes (s : string) : list Z :=
  map (fun a => Z.of_nat (Ascii.nat_of_ascii a)) (String.list_ascii_of_string s).

(** What [%d] prints. *)
Definition fmt_d (n : Z) : list Z := bytes (NilZero.string_of_int (Z.to_int n)).

(** A format with a single [%s]: the text before it and the text after. *)
Record fmt_s := mkFmt { fmt_before : list Z; fmt_after : list Z }.

Definition apply_fmt (f : fmt_s) (arg : list Z) : list Z :=
  fmt_before f ++ arg ++ fmt_after f.

Definition save_prompt : fmt_s :=
  mkFmt (bytes "Save as : ") (bytes " (ESC to cancel)").

Definition msg_save_aborted : list Z := bytes "Save aborted".
Definition msg_bytes_written (len : Z) : list Z :=
  fmt_d len ++ bytes " bytes written to disk".
Definition msg_io_error (err : list Z) : list Z :=
  bytes "Can't save! I/O error : " ++ err.
Definition msg_quit_warning (n : Z) : list Z :=
  bytes "WARNING!!! File has unsaved changes. Press Ctrl-Q " ++ fmt_d n
    ++ bytes " more times to quit.".

#[global] Arguments bytes : simpl never.
#[global] Arguments fmt_d : simpl never.
#[global] Arguments msg_bytes_written : simpl never.
#[global] Arguments msg_io_error : simpl never.
#[global] Arguments msg_quit_warning : simpl never.

(** ** Input *)

(** [iscntrl] in the C locale. *)
Definition iscntrl (c : Z) : bool := ((0 <=? c) && (c <=? 31)) || (c =? 127).

(** What one turn of the loop of [editorPrompt] does with the key it read. *)
Inductive prompt_next : Type :=
  | PromptReturn (r : option (list Z))   (* [return NULL] / [return buf] *)
  | PromptAgain (buf : list Z).          (* next iteration *)

Definition prompt_key (buf : list Z) (c : Z) : prompt_next :=
  if (c =? DEL_KEY) || (c =? CTRL_KEY 104) || (c =? BACKSPACE) then
    if negb (length buf =? 0)%nat
    then PromptAgain (take (length buf - 1)%nat buf)
    else PromptAgain buf
  else if c =? ESC then PromptReturn None
  else if c =? CR then
    if negb (length buf =? 0)%nat then PromptReturn (Some buf) else PromptAgain buf
  else if negb (iscntrl c) && (c <? 128) then PromptAgain (buf ++ [char_of_int c])
  else PromptAgain buf.

(** The [while (1)] of [editorPrompt]; [fuel] bounds the iterations. *)
Fixpoint prompt_loop (fuel : nat) (prompt : fmt_s) (buf : list Z)
    (E : editorConfig) (w : os) : res (option (list Z) * editorConfig * os) :=
  match fuel with
  | O => NoFuel
  | S fuel' =>
      let E1 := editorSetStatusMessage (apply_fmt prompt buf) E in
      E2 ← defined (editorRefreshScreen E1);
      '(c, w1) ← editorReadKey w;
      match prompt_key buf c with
      | PromptReturn r => Done (r, editorSetStatusMessage [] E2, w1)
      | PromptAgain buf' => prompt_loop fuel' prompt buf' E2 w1
      end
  end.

(** The loop entered with [buf] collected so far.  Every turn takes at
    least one read from the pending input, which bounds the turns. *)
Definition prompt_from (prompt : fmt_s) (buf : list Z) (E : editorConfig) (w : os)
  : res (option (list Z) * editorConfig * os) :=
  prompt_loop (S (length (stdin w))) prompt buf E w.

Definition editorPrompt (prompt : fmt_s) (E : editorConfig) (w : os)
  : res (option (list Z) * editorConfig * os) :=
  prompt_from prompt [] E w.

(** [editorMoveCursor], first part: the [switch] on the key. *)
Definition move_step (key : Z) (E : editorConfig) : option editorConfig :=
  if key =? ARROW_LEFT then
    if negb (cx E =? 0) then Some (set_cx (cx E - 1) E)
    else if cy E >? 0 then
      let E' := set_cy (cy E - 1) E in
      ri ← row_index E' (cy E');
      r ← row E' !! ri;
      Some (set_cx (size r) E')
    else Some E
  else if key =? ARROW_RIGHT then
    if cy E >=? numrows E then Some E
    else
      ri ← row_index E (cy E);
      r ← row E !! ri;
      if cx E <? size r then Some (set_cx (cx E + 1) E)
      else if cx E =? size r then Some (set_cx 0 (set_cy (cy E + 1) E))
      else Some E
  else if key =? ARROW_UP then
    if negb (cy E =? 0) then Some (set_cy (cy E - 1) E) else Some E
  else if key =? ARROW_DOWN then
    if cy E <? numrows E then Some (set_cy (cy E + 1) E) else Some E
  else Some E.

(** [editorMoveCursor], second part: snap the cursor to the end of the line. *)
Definition snap_cursor (E : editorConfig) : option editorConfig :=
  rowlen ← (if cy E >=? numrows E then Some 0
            else ri ← row_index E (cy E); r ← row E !! ri; Some (size r));
  Some (if cx E >? rowlen then set_cx rowlen E else E).

Definition editorMoveCursor (key : Z) (E : editorConfig) : option editorConfig :=
  E1 ← move_step key E; snap_cursor E1.

(** [while (times--) editorMoveCursor(key);] *)
Fixpoint move_times (times : nat) (key : Z) (E : editorConfig) : option editorConfig :=
  match times with
  | O => Some E
  | S t => E1 ← editorMoveCursor key E; move_times t key E1
  end.

(** How the file system answers the calls of one [editorSave]. *)
Inductive fs_reply : Type :=
  | OpenFails (e : Z)        (* [open] returns -1 *)
  | FtruncateFails (e : Z)   (* [ftruncate] returns -1 *)
  | WriteFails (e : Z)       (* [write] returns -1 *)
  | WriteReturns (n : Z).    (* [write] returns [n >= 0], [errno] untouched *)

(** The editor as a process: the global [E], the [static int quit_times]
    of [editorProcessKeypress], and the surroundings. *)
Record proc := mkProc { ed : editorConfig; quit_times : Z; world : os }.

Section WithLibc.

(** [strerror] of the C library. *)
Variable strerror : Z -> list Z.

Definition save_failed (E : editorConfig) (w : os) : res (editorConfig * os) :=
  Done (editorSetStatusMessage (msg_io_error (strerror (errno w))) E, w).

(** [editorSave] once [E.filename] is set: serialize, [open],
    [ftruncate], [write], [close], and the status message. *)
Definition save_rows (fs : fs_reply) (name : list Z) (E : editorConfig) (w : os)
  : res (editorConfig * os) :=
  let '(buf, len) := editorRowsToString E in
  let log ev w := mkOs (stdin w) (errno w) (syscalls w ++ ev) in
  let fail e w := mkOs (stdin w) e (syscalls w) in
  match fs with
  | OpenFails e => save_failed E (fail e (log [SysOpen name] w))
  | FtruncateFails e =>
      save_failed E (fail e (log [SysOpen name; SysFtruncate len; SysClose] w))
  | WriteFails e =>
      save_failed E
        (fail e (log [SysOpen name; SysFtruncate len; SysWrite buf len; SysClose] w))
  | WriteReturns n =>
      let w2 := log [SysOpen name; SysFtruncate len; SysWrite buf len; SysClose] w in
      if n =? len
      then Done (editorSetStatusMessage (msg_bytes_written len) (set_dirty 0 E), w2)
      else save_failed E w2
  end.

Definition editorSave (fs : fs_reply) (E : editorConfig) (w : os)
  : res (editorConfig * os) :=
  match filename E with
  | Some name => save_rows fs name E w
  | None =>
      '(r, E', w') ← editorPrompt save_prompt E w;
      let E1 := set_filename r E' in
      match r with
      | None => Done (editorSetStatusMessage msg_save_aborted E1, w')
      | Some name => save_rows fs name E1 w'
      end
  end.

(** The end of [editorProcessKeypress], reached by every [break] of the
    [switch]: [quit_times = ATTO_QUIT_TIMES;]. *)
Definition finish (r : res (editorConfig * os)) : res proc :=
  '(E', w') ← r; Done (mkProc E' ATTO_QUIT_TIMES w').

Definition editorProcessKeypress (fs : fs_reply) (p : proc) : res proc :=
  '(c, w) ← editorReadKey (world p);
  let E := ed p in
  let qt := quit_times p in
  if c =? CR then
    finish (E' ← defined (editorInsertNewLine E); Done (E', w))
  else if c =? CTRL_KEY 113 (* 'q' *) then
    if negb (dirty E =? 0) && (qt >? 0)
    then Done (mkProc (editorSetStatusMessage (msg_quit_warning qt) E) (qt - 1) w)
    else Exit 0
  else if c =? CTRL_KEY 115 (* 's' *) then
    finish (editorSave fs E w)
  else if c =? HOME_KEY then
    finish (Done (set_cx 0 E, w))
  else if c =? END_KEY then
    finish (if cy E <? numrows E
            then E' ← defined (ri ← row_index E (cy E); r ← row E !! ri;
                               Some (set_cx (size r) E));
                 Done (E', w)
            else Done (E, w))
  else if (c =? BACKSPACE) || (c =? CTRL_KEY 104 (* 'h' *)) || (c =? DEL_KEY) then
    finish (E1 ← defined (if c =? DEL_KEY then editorMoveCursor ARROW_RIGHT E else Some E);
            E2 ← defined (editorDelChar E1);
            Done (E2, w))
  else if (c =? PAGE_UP) || (c =? PAGE_DOWN) then
    let E1 :=
      if c =? PAGE_UP then set_cy (rowoff E) E
      else
        let E' := set_cy (rowoff E + screenrows E - 1) E in
        if cy E' >? numrows E' then set_cy (numrows E') E' else E' in
    finish (if screenrows E1 <? 0 then Undef
            else E2 ← defined (move_times (Z.to_nat (screenrows E1))
                                 (if c =? PAGE_UP then ARROW_UP else ARROW_DOWN) E1);
                 Done (E2, w))
  else if (c =? ARROW_UP) || (c =? ARROW_DOWN) || (c =? ARROW_LEFT) || (c =? ARROW_RIGHT) then
    finish (E' ← defined (editorMoveCursor c E); Done (E', w))
  else if (c =? CTRL_KEY 108 (* 'l' *)) || (c =? ESC) then
    finish (Done (E, w))
  else
    finish (E' ← defined (editorInsertChar c E); Done (E', w)).

End WithLibc.

(** ** Init *)

(** [initEditor], once [getWindowSize] has answered [rows] and [cols]. *)
Definition initEditor (rows cols : Z) : editorConfig :=
  mkE 0 0 0 0 0 (rows - 2) cols [] 0 None [].

(** Number of spaces a tab written at column [n] expands to. *)
Definition tab_width (n : nat) : nat := (ATTO_TAB_STOP - n mod ATTO_TAB_STOP)%nat.

(** ** The cursor invariant *)

(** Length of row [i]; [0] for the position after the last row. *)
Definition rowLength (E : editorConfig) (i : Z) : Z :=
  match row E !! Z.to_nat i with
  | Some r => size r
  | None => 0
  end.

Definition cursor_ok (E : editorConfig) : Prop :=
  0 <= cx E <= rowLength E (cy E) /\ 0 <= cy E <= numrows E.

(** The operations that move the cursor or change the rows. *)
Inductive doc_op : Type :=
  | MoveCursor (key : Z)
  | InsertChar (c : Z)
  | DeleteChar
  | InsertRow (at_ : Z) (s : list Z)
  | DeleteRow (at_ : Z).

Definition apply_op (o : doc_op) (E : editorConfig) : option editorConfig :=
  match o with
  | MoveCursor key => editorMoveCursor key E
  | InsertChar c => editorInsertChar c E
  | DeleteChar => editorDelChar E
  | InsertRow at_ s => Some (editorInsertRow at_ s E)
  | DeleteRow at_ => Some (editorDelRow at_ E)
  end.

Fixpoint run_ops (ops : list doc_op) (E : editorConfig) : option editorConfig :=
  match ops with
  | [] => Some E
  | o :: ops' => E' ← apply_op o E; run_ops ops' E'
  end.

(** A direct row insertion or deletion is below the cursor when its index
    is greater than the cursor's row. *)
Definition below_cursor (o : doc_op) (E : editorConfig) : Prop :=
  match o with
  | InsertRow at_ _ | DeleteRow at_ => cy E < at_
  | _ => True
  end.

Fixpoint ops_below_cursor (ops : list doc_op) (E : editorConfig) : Prop :=
  match ops with
  | [] => True
  | o :: ops' =>
      below_cursor o E /\
      match apply_op o E with
      | Some E' => ops_below_cursor ops' E'
      | None => True
      end
  end.

(** ** Text files *)

(** The lines [L] joined with ['\n'], with a ['\n'] after the last one:
    the content of a text file holding these lines. *)
Definition text_of_lines (L : list (list Z)) : list Z :=
  concat ((fun l => l ++ [NL]) <$> L).

(** ** The key table of the input decoder, as the specification words it *)

Definition is_digit (c : Z) : bool := (48 <=? c) && (c <=? 57).

(** [ESC [ d ~]: Home = 1/7, Delete = 3, End = 4/8, PageUp = 5, PageDown = 6. *)
Definition tilde_key (d : Z) : option Z :=
  if (d =? 49) || (d =? 55) then Some HOME_KEY
  else if d =? 51 then Some DEL_KEY
  else if (d =? 52) || (d =? 56) then Some END_KEY
  else if d =? 53 then Some PAGE_UP
  else if d =? 54 then Some PAGE_DOWN
  else None.

(** [ESC [ A/B/C/D]: Up, Down, Right, Left; [ESC [ H/F]: Home, End. *)
Definition bracket_key (c : Z) : option Z :=
  if c =? 65 then Some ARROW_UP
  else if c =? 66 then Some ARROW_DOWN
  else if c =? 67 then Some ARROW_RIGHT
  else if c =? 68 then Some ARROW_LEFT
  else if c =? 72 then Some HOME_KEY
  else if c =? 70 then Some END_KEY
  else None.

(** [ESC O H/F]: Home, End. *)
Definition o_key (c : Z) : option Z :=
  if c =? 72 then Some HOME_KEY
  else if c =? 70 then Some END_KEY
  else None.

(** The key that the reads following an escape byte stand for, if any. *)
Definition recognised (pending : list read_result) : option Z :=
  match pending with
  | Got a :: Got b :: more =>
      if a =? 91 then
        if is_digit b then
          match more with
          | Got t :: _ => if t =? 126 then tilde_key b else None
          | _ => None
          end
        else bracket_key b
      else if a =? 79 then o_key b
      else None
  | _ => None
  end.

(** A read takes from the pending input and leaves the file calls alone. *)
Definition at_most (w w' : os) : Prop :=
  (length (stdin w') <= length (stdin w))%nat /\ syscalls w' = syscalls w.


(** ** The main loop *)

(** One turn of the [while (1)] of [main]: [editorRefreshScreen();
    editorProcessKeypress();].  [fs] is what the file system would
    answer to a save made in this turn. *)
Definition editor_turn (strerror : Z -> list Z) (fs : fs_reply) (p : proc) : res proc :=
  E1 ← defined (editorRefreshScreen (ed p));
  editorProcessKeypress strerror fs (mkProc E1 (quit_times p) (world p)).

(** The first turns of the loop, one for each answer in [fss]. *)
Fixpoint main_loop (strerror : Z -> list Z) (fss : list fs_reply) (p : proc) : res proc :=
  match fss with
  | [] => Done p
  | fs :: fss' => p' ← editor_turn strerror fs p; main_loop strerror fss' p'
  end.

Definition msg_help : list Z := bytes "HELP : Ctrl-S = save | Ctrl-Q = quit".

(** [main] up to the loop: [initEditor], [editorOpen] when a file name
    is given ([arg] holds the name and the content found under it), the
    help message.  [rows] and [cols] are the window size, [w] the
    surroundings. *)
Definition editor_start (rows cols : Z) (arg : option (list Z * option (list Z))) (w : os)
  : res proc :=
  E1 ← match arg with
       | None => Done (initEditor rows cols)
       | Some (name, file) => editorOpen name file (initEditor rows cols)
       end;
  Done (mkProc (editorSetStatusMessage msg_help E1) ATTO_QUIT_TIMES w).

(** ** Invariants of the editor state *)

(** A row whose [render] is what [editorUpdateRow] computes from its
    [chars]. *)
Definition synced (r : erow) : Prop := render r = render (editorUpdateRow r).

Definition rows_synced (E : editorConfig) : Prop := Forall synced (row E).

(** The window and the file name are the same in both states. *)
Definition same_view (E E' : editorConfig) : Prop :=
  rowoff E' = rowoff E /\ coloff E' = coloff E /\
  screenrows E' = screenrows E /\ screencols E' = screencols E /\
  filename E' = filename E.

(** Either the rows and [dirty] are the same, or [dirty] has grown. *)
Definition changes (E E' : editorConfig) : Prop :=
  (row E' = row E /\ dirty E' = dirty E) \/ dirty E < dirty E'.

Definition keeps (E E' : editorConfig) : Prop :=
  same_view E E' /\ (rows_synced E -> rows_synced E') /\ changes E E'.

(** What a turn of the editor guarantees about the state it leaves. *)
Definition stays (E E' : editorConfig) : Prop :=
  cursor_ok E' /\ 0 <= rowoff E' /\ screenrows E' = screenrows E /\
  (rows_synced E -> rows_synced E') /\
  (row E' = row E \/ dirty E < dirty E') /\
  (0 <= dirty E -> 0 <= dirty E').

(** A run that stays inside the defined behaviour of C, within the bound
    of its loops, and whose result, when it returns, satisfies [P]. *)
Definition res_ok {A} (P : A -> Prop) (r : res A) : Prop :=
  match r with
  | Done a => P a
  | Undef | NoFuel => False
  | Exit _ | Starved => True
  end.

(** ** The frame written to the terminal *)

(** [abAppend]: [len] bytes of [s] are copied to the end of the buffer.
    Copying a negative number of bytes, or more bytes than [s] holds, is
    not defined.  [realloc] is taken to succeed. *)
Definition abAppend (ab : list Z) (s : list Z) (len : Z) : option (list Z) :=
  if (len <? 0) || (Z.of_nat (length s) <? len) then None
  else Some (ab ++ take (Z.to_nat len) s).

Definition ATTO_VERSION : list Z := bytes "0.1".

(** What [snprintf] leaves in [welcome]. *)
Definition welcome : list Z := bytes "Atto editor -- version " ++ ATTO_VERSION.

Definition seq_hide_cursor : list Z := ESC :: bytes "[?25l".
Definition seq_show_cursor : list Z := ESC :: bytes "[?25h".
Definition seq_home : list Z := ESC :: bytes "[H".
Definition seq_clear_line : list Z := ESC :: bytes "[K".
Definition seq_invert : list Z := ESC :: bytes "[7m".
Definition seq_normal : list Z := ESC :: bytes "[m".
Definition crlf : list Z := [CR; NL].
Definition tilde : list Z := bytes "~".

(** [while (padding--) abAppend(ab, " ", 1);] for [padding = n >= 0]. *)
Fixpoint pad_loop (n : nat) (ab : list Z) : option (list Z) :=
  match n with
  | O => Some ab
  | S n' => ab' ← abAppend ab [SPACE] 1; pad_loop n' ab'
  end.

(** The body of the [for] of [editorDrawRows] for screen line [y].
    [&render[coloff]] is the text of [render] from [coloff] on; when
    [coloff] lies past the end of [render], [len] is 0 and no byte is
    copied from there.  C's [/] is [Z.quot]. *)
Definition draw_row (E : editorConfig) (y : Z) (ab : list Z) : option (list Z) :=
  let filerow := y + rowoff E in
  ab1 ← (if filerow >=? numrows E then
           if (numrows E =? 0) && (y =? screenrows E `quot` 3) then
             let welcomelen := Z.of_nat (length welcome) in
             let welcomelen :=
               if welcomelen >? screencols E then screencols E else welcomelen in
             let padding := (screencols E - welcomelen) `quot` 2 in
             '(ab1, padding) ← (if negb (padding =? 0)
                                 then ab' ← abAppend ab tilde 1; Some (ab', padding - 1)
                                 else Some (ab, padding));
             ab2 ← (if padding <? 0 then None else pad_loop (Z.to_nat padding) ab1);
             abAppend ab2 welcome welcomelen
           else abAppend ab tilde 1
         else
           ri ← row_index E filerow;
           r ← row E !! ri;
           let len := rsize r - coloff E in
           let len := if len <? 0 then 0 else len in
           let len := if len >? screencols E then screencols E else len in
           if coloff E <? 0 then None
           else abAppend ab (drop (Z.to_nat (coloff E)) (render r)) len);
  ab2 ← abAppend ab1 seq_clear_line 3;
  abAppend ab2 crlf 2.

(** [for (y = ...; y < E.screenrows; ++y)] with [n] turns left. *)
Fixpoint draw_rows_from (n : nat) (y : Z) (E : editorConfig) (ab : list Z)
  : option (list Z) :=
  match n with
  | O => Some ab
  | S n' => ab' ← draw_row E y ab; draw_rows_from n' (y + 1) E ab'
  end.

Definition editorDrawRows (E : editorConfig) (ab : list Z) : option (list Z) :=
  draw_rows_from (Z.to_nat (screenrows E)) 0 E ab.

(** The texts that [editorDrawStatusBar] formats, before [snprintf] cuts
    them to the 79 bytes its buffer holds. *)
Definition status_text (E : editorConfig) : list Z :=
  take 20 (match filename E with Some f => f | None => bytes "[No Name]" end)
    ++ bytes " - " ++ fmt_d (numrows E) ++ bytes " lines "
    ++ (if dirty E =? 0 then [] else bytes "(modified)").

Definition rstatus_text (E : editorConfig) : list Z :=
  fmt_d (cy E + 1) ++ bytes "/" ++ fmt_d (numrows E).

(** The [while (len < E.screencols)] of [editorDrawStatusBar], with
    [n = screencols - len] turns left at most. *)
Fixpoint status_fill (n : nat) (len : Z) (E : editorConfig)
    (rstatus : list Z) (rlen : Z) (ab : list Z) : option (list Z) :=
  match n with
  | O => Some ab
  | S n' =>
      if screencols E - len =? rlen then abAppend ab rstatus rlen
      else ab' ← abAppend ab [SPACE] 1; status_fill n' (len + 1) E rstatus rlen ab'
  end.

Definition editorDrawStatusBar (E : editorConfig) (ab : list Z) : option (list Z) :=
  ab1 ← abAppend ab seq_invert 4;
  let status := take 79 (status_text E) in
  let rstatus := take 79 (rstatus_text E) in
  let len := Z.of_nat (length (status_text E)) in
  let rlen := Z.of_nat (length (rstatus_text E)) in
  let len := if len >? screencols E then screencols E else len in
  ab2 ← abAppend ab1 status len;
  ab3 ← status_fill (Z.to_nat (screencols E - len)) len E rstatus rlen ab2;
  ab4 ← abAppend ab3 seq_normal 3;
  abAppend ab4 crlf 2.

(** [editorDrawMessageBar]; [age] is [time(NULL) - E.statusmsg_time]. *)
Definition editorDrawMessageBar (age : Z) (E : editorConfig) (ab : list Z)
  : option (list Z) :=
  ab1 ← abAppend ab seq_clear_line 3;
  let msglen := Z.of_nat (length (statusmsg E)) in
  let msglen := if msglen >? screencols E then screencols E else msglen in
  if negb (msglen =? 0) && (age <? 5) then abAppend ab1 (statusmsg E) msglen
  else Some ab1.

(** What [snprintf(buf, sizeof(buf), "\x1b[%d;%dH", r, c)] formats. *)
Definition cursor_to (r c : Z) : list Z :=
  ESC :: bytes "[" ++ fmt_d r ++ bytes ";" ++ fmt_d c ++ bytes "H".

(** [editorRefreshScreen] with the frame it writes to the terminal. *)
Definition refresh_frame (age : Z) (E : editorConfig)
  : option (editorConfig * list Z) :=
  E1 ← editorScroll E;
  ab ← abAppend [] seq_hide_cursor 6;
  ab ← abAppend ab seq_home 3;
  ab ← editorDrawRows E1 ab;
  ab ← editorDrawStatusBar E1 ab;
  ab ← editorDrawMessageBar age E1 ab;
  let buf := take 31 (cursor_to (cy E1 - rowoff E1 + 1) (rx E1 - coloff E1 + 1)) in
  ab ← abAppend ab buf (Z.of_nat (length buf));
  ab ← abAppend ab seq_show_cursor 6;
  Some (E1, ab).

(** The lines of a frame, each followed by "clear to the end of the
    line" and a line break. *)
Definition frame_lines (lines : list (list Z)) : list Z :=
  concat (map (fun l => l ++ seq_clear_line ++ crlf) lines).

(** The line of the welcome banner: the margin, then the banner cut to
    the width of the window. *)
Definition banner_margin (E : editorConfig) : Z :=
  (screencols E - Z.min (Z.of_nat (length welcome)) (screencols E)) `quot` 2.

(** What screen line [y] shows. *)
Definition screen_line (E : editorConfig) (y : Z) : list Z :=
  match row E !! Z.to_nat (y + rowoff E) with
  | Some r => take (Z.to_nat (screencols E)) (drop (Z.to_nat (coloff E)) (render r))
  | None =>
      if (numrows E =? 0) && (y =? screenrows E `quot` 3)
      then take (Z.to_nat (banner_margin E)) (tilde ++ replicate (Z.to_nat (banner_margin E)) SPACE)
             ++ take (Z.to_nat (screencols E)) welcome
      else tilde
  end.

(** The text between the colour changes of the status bar. *)
Definition status_bar (E : editorConfig) : list Z :=
  let n := (Z.to_nat (screencols E) - length (status_text E))%nat in
  take (Z.to_nat (screencols E)) (status_text E)
    ++ if (length (rstatus_text E) <=? n)%nat
       then replicate (n - length (rstatus_text E)) SPACE ++ rstatus_text E
       else replicate n SPACE.

(** A text that is not wider than the window. *)
Definition fits (E : editorConfig) (l : list Z) : Prop :=
  Z.of_nat (length l) <= screencols E.

#[global] Arguments abAppend : simpl never.
#[global] Arguments seq_hide_cursor : simpl never.
#[global] Arguments seq_show_cursor : simpl never.
#[global] Arguments seq_home : simpl never.
#[global] Arguments seq_clear_line : simpl never.
#[global] Arguments seq_invert : simpl never.
#[global] Arguments seq_normal : simpl never.
#[global] Arguments tilde : simpl never.
#[global] Arguments welcome : simpl never.
#[global] Arguments ATTO_VERSION : simpl never.

(** A row as [editorOpen] makes it: no newline inside, no carriage
    return at its end, and rendered. *)
Definition loaded (r : erow) : Prop :=
  (NL ∉ chars r) /\ last (chars r) <> Some CR /\ synced r.

(** ** The viewer [src/kilo.c] *)

(** [src/kilo.c] is the viewer from which [src/atto.c] grew.  Its
    [editorReadKey], [editorUpdateRow], [editorRowCxToRx],
    [editorScroll], [editorMoveCursor] and [editorSetStatusMessage] are
    the same text as in [src/atto.c] and are not repeated.  Its
    [struct editorConfig] has no [dirty]; that field of the record is
    neither read nor written here. *)
Module Kilo.

Definition editorAppendRow (s : list Z) (E : editorConfig) : editorConfig :=
  set_row (row E ++ [editorUpdateRow (mkRow s [])]) E.

Fixpoint open_loop (fuel : nat) (s : list Z) (E : editorConfig) : option editorConfig :=
  match fuel with
  | O => None
  | S fuel' =>
      match getline s with
      | None => Some E
      | Some (line, rest) => open_loop fuel' rest (editorAppendRow (trim_eol line) E)
      end
  end.

Definition editorOpen (name : list Z) (file : option (list Z)) (E : editorConfig)
  : res editorConfig :=
  let E0 := set_filename (Some name) E in
  match file with
  | None => die
  | Some s =>
      (* linelen = getline(&line, &linecap, fp); *)
      let s1 := match getline s with Some (_, rest) => rest | None => s end in
      fueled (open_loop (S (length s1)) s1 E0)
  end.

Definition editorProcessKeypress (E : editorConfig) (w : os) : res (editorConfig * os) :=
  '(c, w1) ← editorReadKey w;
  if c =? CTRL_KEY 113 (* 'q' *) then Exit 0
  else if c =? HOME_KEY then Done (set_cx 0 E, w1)
  else if c =? END_KEY then
    if cy E <? numrows E
    then E' ← defined (ri ← row_index E (cy E); r ← row E !! ri;
                       Some (set_cx (size r) E));
         Done (E', w1)
    else Done (E, w1)
  else if (c =? PAGE_UP) || (c =? PAGE_DOWN) then
    let E1 :=
      if c =? PAGE_UP then set_cy (rowoff E) E
      else
        let E' := set_cy (rowoff E + screenrows E - 1) E in
        if cy E' >? numrows E' then set_cy (numrows E') E' else E' in
    if screenrows E1 <? 0 then Undef
    else E2 ← defined (move_times (Z.to_nat (screenrows E1))
                         (if c =? PAGE_UP then ARROW_UP else ARROW_DOWN) E1);
         Done (E2, w1)
  else if (c =? ARROW_UP) || (c =? ARROW_DOWN) || (c =? ARROW_LEFT) || (c =? ARROW_RIGHT)
  then E' ← defined (editorMoveCursor c E); Done (E', w1)
  else Done (E, w1).

End Kilo.

(** The keys that the viewer and the editor both know. *)
Definition viewer_key (c : Z) : Prop :=
  c = HOME_KEY \/ c = END_KEY \/ c = PAGE_UP \/ c = PAGE_DOWN \/
  c = ARROW_UP \/ c = ARROW_DOWN \/ c = ARROW_LEFT \/ c = ARROW_RIGHT.

(** ** A line of typed text *)

(** The text held after the keys [ks] were typed onto [buf]: Backspace
    and Ctrl-H take the last byte away, any other key is appended. *)
Fixpoint typed (buf : list Z) (ks : list Z) : list Z :=
  match ks with
  | [] => buf
  | c :: ks' =>
      typed (if (c =? BACKSPACE) || (c =? CTRL_KEY 104) then removelast buf
             else buf ++ [c]) ks'
  end.

(** A key of the line: a printable byte, Backspace or Ctrl-H. *)
Definition line_key (c : Z) : Prop := 32 <= c <= 127 \/ c = CTRL_KEY 104.

(** ** Keys of a run *)

(** [keys_read w ks w']: successive calls of [editorReadKey] from the
    surroundings [w] return the keys [ks], one after the other, and
    leave [w']. *)
Fixpoint keys_read (w : os) (ks : list Z) (w' : os) : Prop :=
  match ks with
  | [] => w' = w
  | k :: ks' => exists w1, editorReadKey w = Done (k, w1) /\ keys_read w1 ks' w'
  end.

(** The buffer of [editorPrompt] after a key that does not end the
    prompt. *)
Definition prompt_step (buf : list Z) (c : Z) : list Z :=
  match prompt_key buf c with
  | PromptAgain buf' => buf'
  | PromptReturn _ => buf
  end.


(** ** The editor with its redraws *)


(** The functions through which the screen is redrawn, with the frame
    that [editorRefreshScreen] writes.  [tty] holds the frames written
    to the terminal so far; [ages k] is the age of the status message
    ([time(NULL) - E.statusmsg_time]) that the redraw after [k] frames
    finds.  A redraw whose drawing leaves the defined behaviour of C
    makes the run [Undef]. *)
Module Drawn.
Section WithClock.

Variable strerror : Z -> list Z.
Variable ages : nat -> Z.

Definition editorRefreshScreen (E : editorConfig) (tty : list (list Z))
  : res (editorConfig * list (list Z)) :=
  '(E1, frame) ← defined (refresh_frame (ages (length tty)) E);
  Done (E1, tty ++ [frame]).

Fixpoint prompt_loop (fuel : nat) (prompt : fmt_s) (buf : list Z)
    (E : editorConfig) (w : os) (tty : list (list Z))
  : res (option (list Z) * editorConfig * os * list (list Z)) :=
  match fuel with
  | O => NoFuel
  | S fuel' =>
      let E1 := editorSetStatusMessage (apply_fmt prompt buf) E in
      '(E2, tty1) ← editorRefreshScreen E1 tty;
      '(c, w1) ← editorReadKey w;
      match prompt_key buf c with
      | PromptReturn r => Done (r, editorSetStatusMessage [] E2, w1, tty1)
      | PromptAgain buf' => prompt_loop fuel' prompt buf' E2 w1 tty1
      end
  end.

Definition editorPrompt (prompt : fmt_s) (E : editorConfig) (w : os)
    (tty : list (list Z))
  : res (option (list Z) * editorConfig * os * list (list Z)) :=
  prompt_loop (S (length (stdin w))) prompt [] E w tty.

Definition editorSave (fs : fs_reply) (E : editorConfig) (w : os)
    (tty : list (list Z)) : res (editorConfig * os * list (list Z)) :=
  match filename E with
  | Some name => '(E', w') ← save_rows strerror fs name E w; Done (E', w', tty)
  | None =>
      '(r, E', w', tty') ← editorPrompt save_prompt E w tty;
      let E1 := set_filename r E' in
      match r with
      | None => Done (editorSetStatusMessage msg_save_aborted E1, w', tty')
      | Some name =>
          '(E2, w2) ← save_rows strerror fs name E1 w'; Done (E2, w2, tty')
      end
  end.

(** The end of [editorProcessKeypress]: [quit_times = ATTO_QUIT_TIMES;]. *)
Definition finish (r : res (editorConfig * os * list (list Z)))
  : res (proc * list (list Z)) :=
  '(E', w', tty') ← r; Done (mkProc E' ATTO_QUIT_TIMES w', tty').

Definition editorProcessKeypress (fs : fs_reply) (p : proc) (tty : list (list Z))
  : res (proc * list (list Z)) :=
  '(c, w) ← editorReadKey (world p);
  let E := ed p in
  let qt := quit_times p in
  if c =? CR then
    finish (E' ← defined (editorInsertNewLine E); Done (E', w, tty))
  else if c =? CTRL_KEY 113 (* 'q' *) then
    if negb (dirty E =? 0) && (qt >? 0)
    then Done (mkProc (editorSetStatusMessage (msg_quit_warning qt) E) (qt - 1) w, tty)
    else Exit 0
  else if c =? CTRL_KEY 115 (* 's' *) then
    finish (editorSave fs E w tty)
  else if c =? HOME_KEY then
    finish (Done (set_cx 0 E, w, tty))
  else if c =? END_KEY then
    finish (if cy E <? numrows E
            then E' ← defined (ri ← row_index E (cy E); r ← row E !! ri;
                               Some (set_cx (size r) E));
                 Done (E', w, tty)
            else Done (E, w, tty))
  else if (c =? BACKSPACE) || (c =? CTRL_KEY 104 (* 'h' *)) || (c =? DEL_KEY) then
    finish (E1 ← defined (if c =? DEL_KEY then editorMoveCursor ARROW_RIGHT E else Some E);
            E2 ← defined (editorDelChar E1);
            Done (E2, w, tty))
  else if (c =? PAGE_UP) || (c =? PAGE_DOWN) then
    let E1 :=
      if c =? PAGE_UP then set_cy (rowoff E) E
      else
        let E' := set_cy (rowoff E + screenrows E - 1) E in
        if cy E' >? numrows E' then set_cy (numrows E') E' else E' in
    finish (if screenrows E1 <? 0 then Undef
            else E2 ← defined (move_times (Z.to_nat (screenrows E1))
                                 (if c =? PAGE_UP then ARROW_UP else ARROW_DOWN) E1);
                 Done (E2, w, tty))
  else if (c =? ARROW_UP) || (c =? ARROW_DOWN) || (c =? ARROW_LEFT) || (c =? ARROW_RIGHT) then
    finish (E' ← defined (editorMoveCursor c E); Done (E', w, tty))
  else if (c =? CTRL_KEY 108 (* 'l' *)) || (c =? ESC) then
    finish (Done (E, w, tty))
  else
    finish (E' ← defined (editorInsertChar c E); Done (E', w, tty)).

(** One turn of the [while (1)] of [main]. *)
Definition editor_turn (fs : fs_reply) (p : proc) (tty : list (list Z))
  : res (proc * list (list Z)) :=
  '(E1, tty1) ← editorRefreshScreen (ed p) tty;
  editorProcessKeypress fs (mkProc E1 (quit_times p) (world p)) tty1.

(** The first turns of the loop, one for each answer in [fss]. *)
Fixpoint main_loop (fss : list fs_reply) (p : proc) (tty : list (list Z))
  : res (proc * list (list Z)) :=
  match fss with
  | [] => Done (p, tty)
  | fs :: fss' => '(p', tty') ← editor_turn fs p tty; main_loop fss' p' tty'
  end.

End WithClock.
End Drawn.




(** ** Proof tools *)

(** Comparisons of the source, as propositions. *)
Ltac zbool :=
  rewrite ?Z.geb_leb, ?Z.gtb_ltb, ?orb_false_iff, ?orb_true_iff,
    ?andb_true_iff, ?andb_false_iff, ?negb_true_iff, ?negb_false_iff,
    ?Z.ltb_lt, ?Z.ltb_ge, ?Z.leb_le, ?Z.leb_gt, ?Z.eqb_eq, ?Z.eqb_neq in *.

(** [cursor_ok] of a concrete state. *)
Ltac cursor_ok_compute :=
  unfold cursor_ok, rowLength, numrows, size; simpl; lia.

(** Steps of the option monad. *)
Ltac obind := cbn [mbind option_bind mret option_ret].

(** The case analysis of [editorScroll]: the innermost tests first. *)
Ltac scroll_cases :=
  repeat (cbn [cx cy rx rowoff coloff screenrows screencols
               set_rx set_rowoff set_coloff] in *;
          match goal with
          | |- context [if ?c then _ else _] =>
              lazymatch c with
              | context [if _ then _ else _] => fail
              | _ => destruct c eqn:?
              end
          end);
  cbn [cx cy rx rowoff coloff screenrows screencols
       set_rx set_rowoff set_coloff] in *;
  zbool.

(** * Properties *)

(** ** List and record facts *)

Lemma set_get_row v E : row (set_row v E) = v.
Proof. reflexivity. Qed.

Lemma delete_take_drop {A} (l : list A) (x : A) (n : nat) :
  (n <= length l)%nat -> delete n (take n l ++ x :: drop n l) = l.
Proof.
  intros Hn.
  rewrite <- (length_take_le l n Hn) at 1.
  rewrite delete_middle. apply take_drop.
Qed.

(** ** Tab expansion ([editorUpdateRow]) *)

Lemma tab_width_bounds n : (1 <= tab_width n <= 4)%nat.
Proof.
  unfold tab_width, ATTO_TAB_STOP.
  pose proof (Nat.mod_upper_bound n 4 ltac:(lia)). lia.
Qed.

Lemma tab_width_stop n : ((n + tab_width n) mod ATTO_TAB_STOP = 0)%nat.
Proof.
  unfold tab_width, ATTO_TAB_STOP.
  pose proof (Nat.mod_upper_bound n 4 ltac:(lia)) as Hb.
  rewrite (Nat.div_mod_eq n 4) at 1.
  replace (4 * (n / 4) + n mod 4 + (4 - n mod 4))%nat with ((n / 4 + 1) * 4)%nat by lia.
  apply Nat.Div0.mod_mul.
Qed.

(** The loop stops at the next tab stop: it adds the spaces still missing. *)
Lemma tab_fill_spaces out :
  tab_fill out =
  out ++ replicate ((ATTO_TAB_STOP - length out mod ATTO_TAB_STOP) mod ATTO_TAB_STOP) SPACE.
Proof.
  funelim (tab_fill out).
  - rewrite e. simpl. by rewrite app_nil_r.
  - rewrite H. rewrite <- app_assoc. f_equal.
    rewrite length_app. simpl length. unfold ATTO_TAB_STOP in *.
    pose proof (Nat.mod_upper_bound (length out) 4 ltac:(lia)) as Hb.
    assert ((length out + 1) mod 4 = (length out mod 4 + 1) mod 4)%nat as ->.
    { rewrite Nat.Div0.add_mod by lia. reflexivity. }
    clear Heq Heqcall H. revert n Hb. generalize (length out mod 4)%nat. intros m ? ?.
    assert (m = 1 \/ m = 2 \/ m = 3)%nat as [-> | [-> | ->]] by lia; reflexivity.
Qed.

Lemma tab_expansion out :
  tab_fill (out ++ [SPACE]) = out ++ replicate (tab_width (length out)) SPACE.
Proof.
  rewrite tab_fill_spaces, <- app_assoc. f_equal.
  rewrite length_app. simpl length. unfold tab_width, ATTO_TAB_STOP.
  pose proof (Nat.mod_upper_bound (length out) 4 ltac:(lia)) as Hb.
  assert ((length out + 1) mod 4 = (length out mod 4 + 1) mod 4)%nat as ->.
  { rewrite Nat.Div0.add_mod by lia. reflexivity. }
  revert Hb. generalize (length out mod 4)%nat. intros m ?.
  assert (m = 0 \/ m = 1 \/ m = 2 \/ m = 3)%nat as [-> | [-> | [-> | ->]]] by lia;
    reflexivity.
Qed.

Lemma tab_width_shift a b :
  (a mod ATTO_TAB_STOP = 0)%nat -> tab_width (a + b) = tab_width b.
Proof.
  unfold tab_width, ATTO_TAB_STOP. intros Ha.
  rewrite Nat.Div0.add_mod, Ha, Nat.add_0_l, Nat.Div0.mod_mod. reflexivity.
Qed.

Lemma render_loop_app out pre suf :
  render_loop out (pre ++ suf) = render_loop (render_loop out pre) suf.
Proof.
  revert out. induction pre as [|c pre IH]; intros out; simpl; [done|].
  destruct (c =? TAB); apply IH.
Qed.

(** Only the column modulo the tab stop matters: a prefix that ends on a
    tab stop can be set aside. *)
Lemma render_loop_shift cs a b :
  (length a mod ATTO_TAB_STOP = 0)%nat ->
  render_loop (a ++ b) cs = a ++ render_loop b cs.
Proof.
  intros Ha. revert b. induction cs as [|c cs IH]; intros b; simpl; [done|].
  destruct (c =? TAB).
  - rewrite !tab_expansion. rewrite <- app_assoc, IH. do 2 f_equal.
    rewrite length_app. by rewrite tab_width_shift.
  - by rewrite <- app_assoc, IH.
Qed.

Lemma render_loop_no_tab out cs : TAB ∉ cs -> render_loop out cs = out ++ cs.
Proof.
  revert out. induction cs as [|c cs IH]; intros out Hn; simpl.
  - by rewrite app_nil_r.
  - apply not_elem_of_cons in Hn as [Hc Hcs].
    destruct (Z.eqb_spec c TAB) as [->|_]; [done|].
    rewrite IH by done. by rewrite <- app_assoc.
Qed.

Lemma render_loop_length out cs :
  (length out + length cs <= length (render_loop out cs)
   <= length out + length cs + count_tabs cs * (ATTO_TAB_STOP - 1))%nat.
Proof.
  change (ATTO_TAB_STOP - 1)%nat with 3%nat.
  revert out. induction cs as [|c cs IH]; intros out; simpl; [lia|].
  destruct (c =? TAB).
  - specialize (IH (tab_fill (out ++ [SPACE]))).
    rewrite tab_expansion in IH |- *. rewrite length_app, length_replicate in IH.
    pose proof (tab_width_bounds (length out)). lia.
  - specialize (IH (out ++ [c])). rewrite length_app in IH. simpl in IH. lia.
Qed.

Lemma render_tab_split pre suf :
  render_loop [] (pre ++ TAB :: suf) =
  render_loop [] pre
    ++ replicate (tab_width (length (render_loop [] pre))) SPACE
    ++ render_loop [] suf.
Proof.
  rewrite render_loop_app. simpl. rewrite tab_expansion.
  rewrite <- (app_nil_r (_ ++ replicate _ _)).
  rewrite render_loop_shift, <- app_assoc; [done|].
  rewrite length_app, length_replicate. apply tab_width_stop.
Qed.


(** C2.  [editorUpdateRow] leaves the raw text alone and renders it as
    follows.  A text without a tab byte is rendered as itself.  The
    rendered text is never shorter than the raw text.  Every tab of the
    raw text, wherever it stands ([t = pre ++ TAB :: suf]), is rendered
    as a run of [k] spaces with [1 <= k <= 4] that starts where the
    rendering of [pre] ends and stops on a column divisible by 4, after
    which the rendering of [suf] follows. *)
Theorem editorUpdateRow_render (t old : list Z) :
  chars (editorUpdateRow (mkRow t old)) = t /\
  (TAB ∉ t -> render (editorUpdateRow (mkRow t old)) = t) /\
  (length t <= length (render (editorUpdateRow (mkRow t old))))%nat /\
  (forall pre suf, t = pre ++ TAB :: suf ->
     exists k : nat,
       (1 <= k <= 4)%nat /\
       ((length (render (editorUpdateRow (mkRow pre old))) + k) mod 4 = 0)%nat /\
       render (editorUpdateRow (mkRow t old)) =
         render (editorUpdateRow (mkRow pre old)) ++ replicate k SPACE
           ++ render (editorUpdateRow (mkRow suf old))).
Proof.
  simpl. split; [done|]. split; [|split].
  - intros Hn. by rewrite render_loop_no_tab.
  - pose proof (render_loop_length [] t). simpl in *. lia.
  - intros pre suf ->.
    exists (tab_width (length (render_loop [] pre))).
    split; [apply tab_width_bounds|]. split; [apply tab_width_stop|].
    apply render_tab_split.
Qed.

Lemma editorUpdateRow_render_witness :
  render (editorUpdateRow (mkRow [97; 98; 99] [])) = [97; 98; 99] /\
  exists k : nat,
    (1 <= k <= 4)%nat /\
    ((length (render (editorUpdateRow (mkRow [100%Z] []))) + k) mod 4 = 0)%nat /\
    render (editorUpdateRow (mkRow [100; 9; 101; 102] [])) =
      render (editorUpdateRow (mkRow [100] [])) ++ replicate k SPACE
        ++ render (editorUpdateRow (mkRow [101; 102] [])).
Proof.
  split.
  - apply (editorUpdateRow_render [97; 98; 99] []).
    intros H. repeat (apply elem_of_cons in H as [H|H]; [discriminate H|]).
    by apply elem_of_nil in H.
  - apply (editorUpdateRow_render [100; 9; 101; 102] [] ). reflexivity.
Defined.

(** ** Row operations: guards and frame *)

Lemma editorRowInsertChar_inside E ri r at_ c :
  row E !! ri = Some r -> 0 <= at_ <= size r ->
  editorRowInsertChar ri at_ c E =
  Some (set_dirty (dirty E + 1)
          (set_row (<[ri := editorUpdateRow
                      (mkRow (take (Z.to_nat at_) (chars r) ++ char_of_int c
                                :: drop (Z.to_nat at_) (chars r)) (render r))]> (row E)) E)).
Proof.
  intros Hr Hat. unfold editorRowInsertChar. rewrite Hr. simpl.
  replace ((at_ <? 0) || (at_ >? size r)) with false by (symmetry; zbool; lia).
  reflexivity.
Qed.

Lemma editorRowDelChar_inside E ri r at_ :
  row E !! ri = Some r -> 0 <= at_ < size r ->
  editorRowDelChar ri at_ E =
  Some (set_dirty (dirty E + 1)
          (set_row (<[ri := editorUpdateRow
                      (mkRow (delete (Z.to_nat at_) (chars r)) (render r))]> (row E)) E)).
Proof.
  intros Hr Hat. unfold editorRowDelChar. rewrite Hr. simpl.
  replace ((at_ <? 0) || (at_ >=? size r)) with false by (symmetry; zbool; lia).
  reflexivity.
Qed.

Lemma editorRowDelChar_outside E ri r at_ :
  row E !! ri = Some r -> at_ < 0 \/ size r <= at_ ->
  editorRowDelChar ri at_ E = Some E.
Proof.
  intros Hr Hat. unfold editorRowDelChar. rewrite Hr. simpl.
  replace ((at_ <? 0) || (at_ >=? size r)) with true by (symmetry; zbool; lia).
  reflexivity.
Qed.

(** C8 as stated fails outside the row: the insertion is clamped to the
    end of the row, the deletion at the same column is ignored.  Row
    ["ab"], byte ['x'], column 5: the row ends up as ["abx"]. *)
Lemma insert_delete_beyond_end_counterexample :
  let E := mkE 0 0 0 0 0 22 80 [mkRow [97; 98] [97; 98]] 0 None [] in
  exists E2,
    (editorRowInsertChar 0 5 120 E ≫= editorRowDelChar 0 5) = Some E2 /\
    chars <$> row E2 !! 0%nat = Some [97; 98; 120] /\
    chars <$> row E2 !! 0%nat <> chars <$> row E !! 0%nat.
Proof.
  eexists. split; [reflexivity|]. split; [reflexivity|]. discriminate.
Qed.

(** C8, amended.  For a column inside the row or at its end
    ([0 <= at <= size]), inserting a byte at [(row, at)] and then
    deleting at [(row, at)] gives back the row's raw content; the row is
    re-rendered from it, no other row changes. *)
Theorem insert_then_delete_restores (E : editorConfig) (ri : nat) (r : erow) (at_ c : Z) :
  row E !! ri = Some r ->
  0 <= at_ <= size r ->
  exists E1 E2,
    editorRowInsertChar ri at_ c E = Some E1 /\
    editorRowDelChar ri at_ E1 = Some E2 /\
    chars <$> row E2 !! ri = Some (chars r) /\
    row E2 = <[ri := editorUpdateRow r]> (row E).
Proof.
  intros Hr Hat.
  assert (Hlt : (ri < length (row E))%nat) by (by eapply lookup_lt_Some).
  assert (Hn : (Z.to_nat at_ <= length (chars r))%nat) by (unfold size in Hat; lia).
  eexists _, _. split; [by apply editorRowInsertChar_inside|].
  erewrite editorRowDelChar_inside.
  2:{ cbn [row set_dirty set_row]. by apply list_lookup_insert_eq. }
  2:{ unfold size in *. simpl. rewrite length_app, length_take_le by done.
      simpl. rewrite length_drop. lia. }
  split; [reflexivity|].
  cbn [row set_dirty set_row chars editorUpdateRow].
  rewrite list_insert_insert_eq, delete_take_drop by done.
  rewrite list_lookup_insert_eq by done. done.
Qed.

Lemma insert_then_delete_restores_witness :
  let E := mkE 0 0 0 0 0 22 80 [mkRow [97; 98] [97; 98]] 0 None [] in
  exists E1 E2,
    editorRowInsertChar 0 1 120 E = Some E1 /\
    editorRowDelChar 0 1 E1 = Some E2 /\
    chars <$> row E2 !! 0%nat = Some [97; 98] /\
    row E2 = <[0%nat := editorUpdateRow (mkRow [97; 98] [97; 98])]> (row E).
Proof.
  intros E.
  apply (insert_then_delete_restores E 0 (mkRow [97; 98] [97; 98]) 1 120).
  - reflexivity.
  - unfold size. simpl. lia.
Defined.

Lemma editorInsertRow_outside at_ s E :
  at_ < 0 \/ numrows E < at_ -> editorInsertRow at_ s E = E.
Proof.
  intros H. unfold editorInsertRow.
  replace ((at_ <? 0) || (at_ >? numrows E)) with true by (symmetry; zbool; lia).
  reflexivity.
Qed.

Lemma editorInsertRow_inside at_ s E :
  0 <= at_ <= numrows E ->
  editorInsertRow at_ s E =
  set_dirty (dirty E + 1)
    (set_row (take (Z.to_nat at_) (row E) ++ editorUpdateRow (mkRow s [])
                :: drop (Z.to_nat at_) (row E)) E).
Proof.
  intros H. unfold editorInsertRow.
  replace ((at_ <? 0) || (at_ >? numrows E)) with false by (symmetry; zbool; lia).
  reflexivity.
Qed.

Lemma editorDelRow_outside at_ E :
  at_ < 0 \/ numrows E <= at_ -> editorDelRow at_ E = E.
Proof.
  intros H. unfold editorDelRow.
  replace ((at_ <? 0) || (at_ >=? numrows E)) with true by (symmetry; zbool; lia).
  reflexivity.
Qed.

Lemma editorDelRow_inside at_ E :
  0 <= at_ < numrows E ->
  editorDelRow at_ E = set_dirty (dirty E + 1) (set_row (delete (Z.to_nat at_) (row E)) E).
Proof.
  intros H. unfold editorDelRow.
  replace ((at_ <? 0) || (at_ >=? numrows E)) with false by (symmetry; zbool; lia).
  reflexivity.
Qed.

Lemma length_delete_lt {A} (l : list A) (n : nat) :
  (n < length l)%nat -> length (delete n l) = (length l - 1)%nat.
Proof.
  intros Hn. apply length_delete. by apply lookup_lt_is_Some_2.
Qed.

(** C10.  The three guarded Document operations do nothing at all when
    their index is out of range: [editorInsertRow] with [at] outside
    [[0, numrows]], [editorDelRow] with [at] outside [[0, numrows)],
    [editorRowDelChar] with [at] outside [[0, size)] return the editor
    state they were given, [dirty] included.  Conversely, whenever one of
    them changes [dirty], the rows have changed. *)
Theorem ignored_operations_change_nothing :
  (forall at_ s E, at_ < 0 \/ numrows E < at_ -> editorInsertRow at_ s E = E) /\
  (forall at_ E, at_ < 0 \/ numrows E <= at_ -> editorDelRow at_ E = E) /\
  (forall ri r at_ E, row E !! ri = Some r -> at_ < 0 \/ size r <= at_ ->
     editorRowDelChar ri at_ E = Some E) /\
  (forall at_ s E,
     dirty (editorInsertRow at_ s E) <> dirty E -> row (editorInsertRow at_ s E) <> row E) /\
  (forall at_ E,
     dirty (editorDelRow at_ E) <> dirty E -> row (editorDelRow at_ E) <> row E) /\
  (forall ri at_ E E',
     editorRowDelChar ri at_ E = Some E' -> dirty E' <> dirty E -> row E' <> row E).
Proof.
  split; [apply editorInsertRow_outside|].
  split; [apply editorDelRow_outside|].
  split; [intros; by eapply editorRowDelChar_outside|].
  split; [|split].
  - intros at_ s E Hd.
    destruct (decide (0 <= at_ <= numrows E)) as [Hin|Hout].
    + rewrite editorInsertRow_inside by done. simpl. intros Heq.
      apply (f_equal length) in Heq.
      rewrite length_app in Heq. simpl in Heq.
      rewrite length_take, length_drop in Heq. unfold numrows in Hin. lia.
    + rewrite editorInsertRow_outside in Hd by lia. done.
  - intros at_ E Hd.
    destruct (decide (0 <= at_ < numrows E)) as [Hin|Hout].
    + rewrite editorDelRow_inside by done. simpl. intros Heq.
      apply (f_equal length) in Heq. unfold numrows in Hin.
      rewrite length_delete_lt in Heq by lia. lia.
    + rewrite editorDelRow_outside in Hd by lia. done.
  - intros ri at_ E E' Hrun Hd.
    destruct (row E !! ri) as [r|] eqn:Hr.
    2:{ unfold editorRowDelChar in Hrun. rewrite Hr in Hrun. discriminate. }
    destruct (decide (0 <= at_ < size r)) as [Hin|Hout].
    + rewrite (editorRowDelChar_inside _ _ _ _ Hr Hin) in Hrun.
      injection Hrun as <-. simpl. intros Heq.
      apply (f_equal (fun l => l !! ri)) in Heq.
      rewrite list_lookup_insert_eq in Heq by (by eapply lookup_lt_Some).
      rewrite Hr in Heq. injection Heq as Heq.
      apply (f_equal (fun x => length (chars x))) in Heq. simpl in Heq.
      unfold size in Hin. rewrite length_delete_lt in Heq by lia. lia.
    + rewrite (editorRowDelChar_outside _ _ r) in Hrun by (done || lia).
      injection Hrun as <-. done.
Qed.

Lemma ignored_operations_change_nothing_witness :
  let E := mkE 1 0 0 0 0 22 80 [mkRow [97; 98] [97; 98]] 3 None [] in
  editorInsertRow 2 [120] E = E /\
  editorDelRow 1 E = E /\
  editorRowDelChar 0 2 E = Some E /\
  row (editorInsertRow 1 [120] E) <> row E /\
  row (editorDelRow 0 E) <> row E /\
  row (set_dirty 4 (set_row [mkRow [98] [98]] E)) <> row E.
Proof.
  intros E.
  destruct ignored_operations_change_nothing as (H1 & H2 & H3 & H4 & H5 & H6).
  split; [apply H1; right; unfold numrows; simpl; lia|].
  split; [apply H2; right; unfold numrows; simpl; lia|].
  split; [apply (H3 0%nat (mkRow [97; 98] [97; 98]));
          [reflexivity | right; unfold size; simpl; lia]|].
  split; [apply H4; simpl; lia|].
  split; [apply H5; simpl; lia|].
  apply (H6 0%nat 0); [reflexivity | simpl; lia].
Defined.

(** ** Backspace ([editorDelChar]) *)

Lemma row_index_inside E i :
  0 <= i < numrows E -> row_index E i = Some (Z.to_nat i).
Proof.
  intros H. unfold row_index.
  replace ((0 <=? i) && (i <? numrows E)) with true by (symmetry; zbool; lia).
  reflexivity.
Qed.

Lemma row_lookup_inside E i r :
  0 <= i -> row E !! Z.to_nat i = Some r -> 0 <= i < numrows E.
Proof.
  intros Hi Hr. apply lookup_lt_Some in Hr. unfold numrows. lia.
Qed.

Lemma delete_after_insert {A} (l : list A) (n : nat) (x : A) :
  (S n < length l)%nat ->
  delete (S n) (<[n := x]> l) = take n l ++ x :: drop (S (S n)) l.
Proof.
  revert n. induction l as [|a l IH]; intros n Hn; simpl in Hn; [lia|].
  destruct n as [|n]; simpl.
  - destruct l; simpl in *; [lia|]. by rewrite drop_0.
  - f_equal. apply IH. lia.
Qed.

Lemma editorDelChar_past_end E : cy E = numrows E -> editorDelChar E = Some E.
Proof. intros Hcy. unfold editorDelChar. by rewrite Hcy, Z.eqb_refl. Qed.

Lemma editorDelChar_at_start E : cx E = 0 -> cy E = 0 -> editorDelChar E = Some E.
Proof.
  intros Hcx Hcy. unfold editorDelChar. rewrite Hcx, Hcy.
  destruct (0 =? numrows E); reflexivity.
Qed.

Lemma editorDelChar_inside_row E r :
  0 <= cy E -> row E !! Z.to_nat (cy E) = Some r -> 0 < cx E <= size r ->
  exists E', editorDelChar E = Some E' /\
    cy E' = cy E /\ cx E' = cx E - 1 /\
    row E' = <[Z.to_nat (cy E) :=
                editorUpdateRow (mkRow (delete (Z.to_nat (cx E - 1)) (chars r)) (render r))]>
               (row E).
Proof.
  intros Hcy Hr Hcx.
  pose proof (row_lookup_inside _ _ _ Hcy Hr) as Hin.
  unfold editorDelChar.
  replace (cy E =? numrows E) with false by (symmetry; zbool; lia).
  replace ((cx E =? 0) && (cy E =? 0)) with false by (symmetry; zbool; lia).
  rewrite (row_index_inside E (cy E) Hin). simpl. rewrite Hr. simpl.
  replace (cx E >? 0) with true by (symmetry; zbool; lia).
  rewrite (editorRowDelChar_inside _ _ r) by (done || lia). simpl.
  eexists. split; [reflexivity|]. done.
Qed.

Lemma editorDelChar_merge E p r :
  0 < cy E -> cx E = 0 ->
  row E !! Z.to_nat (cy E - 1) = Some p -> row E !! Z.to_nat (cy E) = Some r ->
  exists E', editorDelChar E = Some E' /\
    cy E' = cy E - 1 /\ cx E' = size p /\
    row E' = take (Z.to_nat (cy E - 1)) (row E)
               ++ editorUpdateRow (mkRow (chars p ++ chars r) (render p))
               :: drop (Z.to_nat (cy E + 1)) (row E).
Proof.
  intros Hcy Hcx Hp Hr.
  assert (Hin : 0 <= cy E < numrows E) by (apply (row_lookup_inside E _ r); [lia|done]).
  unfold editorDelChar.
  replace (cy E =? numrows E) with false by (symmetry; zbool; lia).
  replace ((cx E =? 0) && (cy E =? 0)) with false by (symmetry; zbool; lia).
  rewrite (row_index_inside E (cy E) Hin). simpl. rewrite Hr. simpl.
  replace (cx E >? 0) with false by (symmetry; zbool; lia).
  rewrite (row_index_inside E (cy E - 1)) by lia. simpl. rewrite Hp. simpl.
  unfold editorRowAppendString. cbn [row set_cx]. rewrite Hp. simpl.
  rewrite editorDelRow_inside.
  2:{ unfold numrows in *. cbn [cy row set_dirty set_row set_cx].
      rewrite length_insert. lia. }
  eexists. split; [reflexivity|].
  cbn [cy cx row set_dirty set_row set_cx set_cy].
  split; [done|]. split; [done|].
  replace (Z.to_nat (cy E)) with (S (Z.to_nat (cy E - 1))) by lia.
  replace (Z.to_nat (cy E + 1)) with (S (S (Z.to_nat (cy E - 1)))) by lia.
  apply delete_after_insert. unfold numrows in Hin. lia.
Qed.

(** C4.  [editorDelChar] (Backspace) returns the state unchanged when
    the cursor is past the last row ([cy = numrows], which includes the
    document without rows) and when it is at row 0, column 0.  On an
    existing row with [0 < cx <= size] it removes the byte at index
    [cx - 1] of that row and decrements [cx].  On an existing row with
    [cx = 0] and [cy > 0] it appends the row's content to the previous
    row, removes the row, and puts the cursor on the previous row at that
    row's former length.  For the document ["ab"; "cd"] with the cursor
    at [(cy = 1, cx = 0)] the result is the single row ["abcd"] with
    the cursor at [(cy = 0, cx = 2)]. *)
Theorem editorDelChar_cases (E : editorConfig) :
  (cy E = numrows E -> editorDelChar E = Some E) /\
  (cx E = 0 -> cy E = 0 -> editorDelChar E = Some E) /\
  (forall r, 0 <= cy E -> row E !! Z.to_nat (cy E) = Some r -> 0 < cx E <= size r ->
     exists E', editorDelChar E = Some E' /\
       cy E' = cy E /\ cx E' = cx E - 1 /\
       row E' = <[Z.to_nat (cy E) :=
                   editorUpdateRow (mkRow (delete (Z.to_nat (cx E - 1)) (chars r)) (render r))]>
                  (row E)) /\
  (forall p r, 0 < cy E -> cx E = 0 ->
     row E !! Z.to_nat (cy E - 1) = Some p -> row E !! Z.to_nat (cy E) = Some r ->
     exists E', editorDelChar E = Some E' /\
       cy E' = cy E - 1 /\ cx E' = size p /\
       row E' = take (Z.to_nat (cy E - 1)) (row E)
                  ++ editorUpdateRow (mkRow (chars p ++ chars r) (render p))
                  :: drop (Z.to_nat (cy E + 1)) (row E)) /\
  (let E0 := mkE 0 1 0 0 0 22 80
               [editorUpdateRow (mkRow [97; 98] []); editorUpdateRow (mkRow [99; 100] [])]
               0 None [] in
   exists E', editorDelChar E0 = Some E' /\
     chars <$> row E' = [[97; 98; 99; 100]] /\ cy E' = 0 /\ cx E' = 2).
Proof.
  split; [apply editorDelChar_past_end|].
  split; [apply editorDelChar_at_start|].
  split; [apply editorDelChar_inside_row|].
  split; [apply editorDelChar_merge|].
  eexists. split; [reflexivity|]. done.
Qed.

Lemma editorDelChar_cases_witness :
  let E := mkE 2 0 0 0 0 22 80 [mkRow [97; 98; 99] [97; 98; 99]] 0 None [] in
  exists E', editorDelChar E = Some E' /\
    cy E' = 0 /\ cx E' = 1 /\
    row E' = <[0%nat := editorUpdateRow (mkRow [97; 99] [97; 98; 99])]> (row E).
Proof.
  intros E.
  destruct (editorDelChar_cases E) as (_ & _ & H & _).
  apply (H (mkRow [97; 98; 99] [97; 98; 99])).
  - simpl. lia.
  - reflexivity.
  - unfold size. simpl. lia.
Defined.

(** ** The cursor invariant *)

Lemma size_nonneg r : 0 <= size r.
Proof. unfold size. lia. Qed.

Lemma cursor_ok_intro E :
  0 <= cy E <= numrows E -> 0 <= cx E ->
  (forall r, row E !! Z.to_nat (cy E) = Some r -> cx E <= size r) ->
  (cy E = numrows E -> cx E = 0) ->
  cursor_ok E.
Proof.
  intros Hcy Hcx Hrow Hend. unfold cursor_ok, rowLength.
  destruct (row E !! Z.to_nat (cy E)) as [r|] eqn:Hr.
  - specialize (Hrow r eq_refl). lia.
  - apply lookup_ge_None in Hr. unfold numrows in *. lia.
Qed.

Lemma cursor_ok_row E :
  cursor_ok E -> cy E < numrows E ->
  exists r, row E !! Z.to_nat (cy E) = Some r /\ 0 <= cx E <= size r.
Proof.
  intros [Hcx Hcy] Hlt. unfold rowLength in Hcx.
  destruct (row E !! Z.to_nat (cy E)) as [r|] eqn:Hr; [by exists r|].
  apply lookup_ge_None in Hr. unfold numrows in *. lia.
Qed.

Lemma cursor_ok_end E : cursor_ok E -> cy E = numrows E -> cx E = 0.
Proof.
  intros [Hcx Hcy] Heq. unfold rowLength in Hcx.
  rewrite (proj2 (lookup_ge_None (row E) (Z.to_nat (cy E)))) in Hcx;
    [lia | unfold numrows in *; lia].
Qed.

Lemma row_lookup_some E i :
  0 <= i < numrows E -> exists r, row E !! Z.to_nat i = Some r.
Proof.
  intros Hi. apply lookup_lt_is_Some_2. unfold numrows in Hi. lia.
Qed.

Lemma snap_cursor_ok E :
  0 <= cy E <= numrows E -> 0 <= cx E ->
  exists E', snap_cursor E = Some E' /\ cursor_ok E'.
Proof.
  intros Hcy Hcx. unfold snap_cursor.
  destruct (Z.geb_spec (cy E) (numrows E)) as [Hge|Hlt]; simpl.
  - destruct (Z.gtb_spec (cx E) 0); eexists; (split; [reflexivity|]);
      apply cursor_ok_intro; unfold numrows in *; simpl; try lia;
      intros r Hr; apply lookup_lt_Some in Hr; lia.
  - destruct (row_lookup_some E (cy E)) as [r Hr]; [lia|].
    rewrite row_index_inside by lia. simpl. rewrite Hr. simpl.
    pose proof (size_nonneg r).
    destruct (Z.gtb_spec (cx E) (size r)); eexists; (split; [reflexivity|]);
      apply cursor_ok_intro; unfold numrows in *; simpl; try lia;
      intros r' Hr'; rewrite Hr in Hr'; injection Hr' as <-; lia.
Qed.

Lemma move_step_ok key E :
  cursor_ok E ->
  exists E1, move_step key E = Some E1 /\ 0 <= cy E1 <= numrows E1 /\ 0 <= cx E1.
Proof.
  intros Hok. pose proof Hok as [Hcx Hcy]. unfold move_step.
  destruct (key =? ARROW_LEFT).
  { destruct (Z.eqb_spec (cx E) 0) as [Hz|Hnz]; simpl.
    - destruct (Z.gtb_spec (cy E) 0) as [Hpos|Hnpos].
      + destruct (row_lookup_some E (cy E - 1)) as [r Hr]; [lia|].
        rewrite row_index_inside by (unfold numrows in *; simpl; lia).
        simpl. rewrite Hr. simpl. pose proof (size_nonneg r).
        eexists. split; [reflexivity|]. unfold numrows in *. simpl. lia.
      + eexists. split; [reflexivity|]. lia.
    - eexists. split; [reflexivity|]. unfold numrows in *. simpl. lia. }
  destruct (key =? ARROW_RIGHT).
  { destruct (Z.geb_spec (cy E) (numrows E)) as [Hge|Hlt].
    - eexists. split; [reflexivity|]. lia.
    - destruct (cursor_ok_row E Hok Hlt) as (r & Hr & Hcxr).
      rewrite row_index_inside by lia. simpl. rewrite Hr. simpl.
      destruct (Z.ltb_spec (cx E) (size r)).
      + eexists. split; [reflexivity|]. unfold numrows in *. simpl. lia.
      + destruct (Z.eqb_spec (cx E) (size r)).
        * eexists. split; [reflexivity|]. unfold numrows in *. simpl. lia.
        * eexists. split; [reflexivity|]. lia. }
  destruct (key =? ARROW_UP).
  { destruct (Z.eqb_spec (cy E) 0); simpl; eexists; (split; [reflexivity|]);
      unfold numrows in *; simpl; lia. }
  destruct (key =? ARROW_DOWN).
  { destruct (Z.ltb_spec (cy E) (numrows E)); eexists; (split; [reflexivity|]);
      unfold numrows in *; simpl; lia. }
  eexists. split; [reflexivity|]. lia.
Qed.

Lemma editorMoveCursor_ok key E :
  cursor_ok E -> exists E', editorMoveCursor key E = Some E' /\ cursor_ok E'.
Proof.
  intros Hok. destruct (move_step_ok key E Hok) as (E1 & Hstep & Hcy & Hcx).
  unfold editorMoveCursor. rewrite Hstep. simpl. by apply snap_cursor_ok.
Qed.

Lemma editorInsertChar_ok c E :
  cursor_ok E -> exists E', editorInsertChar c E = Some E' /\ cursor_ok E'.
Proof.
  intros Hok. pose proof Hok as [Hcx Hcy]. unfold editorInsertChar.
  destruct (Z.eqb_spec (cy E) (numrows E)) as [Hend|Hnend].
  - pose proof (cursor_ok_end E Hok Hend) as Hcx0.
    rewrite editorInsertRow_inside by lia.
    set (new := editorUpdateRow (mkRow [] [])).
    set (E1 := set_dirty _ _).
    assert (Hnew : row E1 !! Z.to_nat (cy E1) = Some new).
    { subst E1. cbn [row cy set_dirty set_row]. apply list_lookup_middle.
      rewrite length_take. unfold numrows in *. lia. }
    assert (Hn1 : numrows E1 = numrows E + 1).
    { subst E1. unfold numrows. cbn [row set_dirty set_row].
      rewrite length_app. simpl. rewrite length_take, length_drop. lia. }
    assert (Hcy1 : cy E1 = cy E) by reflexivity.
    assert (Hcx1 : cx E1 = 0) by (subst E1; simpl; lia).
    assert (Hsz : size new = 0) by reflexivity.
    clearbody E1 new.
    rewrite row_index_inside by lia. simpl.
    rewrite (editorRowInsertChar_inside E1 _ new) by (done || lia).
    simpl. eexists. split; [reflexivity|].
    apply cursor_ok_intro; cbn [cx cy row set_cx set_dirty set_row].
    + unfold numrows in *. cbn [row set_cx set_dirty set_row].
      rewrite length_insert. lia.
    + lia.
    + intros r Hr. rewrite list_lookup_insert_eq in Hr by (by eapply lookup_lt_Some).
      injection Hr as <-. unfold size in *. simpl.
      rewrite length_app. simpl. rewrite length_take, length_drop. lia.
    + unfold numrows in *. cbn [row set_cx set_dirty set_row]. rewrite length_insert.
      lia.
  - destruct (cursor_ok_row E Hok) as (r & Hr & Hcxr); [lia|].
    rewrite row_index_inside by lia. simpl.
    rewrite (editorRowInsertChar_inside E _ r) by done. simpl.
    eexists. split; [reflexivity|].
    apply cursor_ok_intro; cbn [cx cy row set_cx set_dirty set_row].
    + unfold numrows in *. cbn [row set_cx set_dirty set_row].
      rewrite length_insert. lia.
    + lia.
    + intros r' Hr'. rewrite list_lookup_insert_eq in Hr' by (by eapply lookup_lt_Some).
      injection Hr' as <-. unfold size in *. simpl.
      rewrite length_app. simpl. rewrite length_take, length_drop. lia.
    + unfold numrows in *. cbn [row set_cx set_dirty set_row].
      rewrite length_insert. lia.
Qed.

Lemma editorDelChar_ok E :
  cursor_ok E -> exists E', editorDelChar E = Some E' /\ cursor_ok E'.
Proof.
  intros Hok. pose proof Hok as [Hcx Hcy].
  destruct (decide (cy E = numrows E)) as [Hend|Hnend].
  { exists E. split; [by apply editorDelChar_past_end|done]. }
  destruct (cursor_ok_row E Hok) as (r & Hr & Hcxr); [lia|].
  destruct (decide (cx E = 0)) as [Hz|Hnz].
  - destruct (decide (cy E = 0)) as [Hz'|Hnz'].
    { exists E. split; [by apply editorDelChar_at_start|done]. }
    destruct (row_lookup_some E (cy E - 1)) as [p Hp]; [lia|].
    destruct (editorDelChar_merge E p r) as (E' & Hrun & Hcy' & Hcx' & Hrow);
      [lia|done|done|done|].
    exists E'. split; [done|].
    assert (Hlen : length (take (Z.to_nat (cy E - 1)) (row E)) = Z.to_nat (cy E - 1)).
    { rewrite length_take. unfold numrows in *. lia. }
    apply cursor_ok_intro.
    + unfold numrows in *. rewrite Hrow, Hcy', length_app. simpl.
      rewrite Hlen, length_drop. lia.
    + rewrite Hcx'. apply size_nonneg.
    + intros r' Hr'. rewrite Hrow, Hcy' in Hr'.
      rewrite list_lookup_middle in Hr' by done. injection Hr' as <-.
      rewrite Hcx'. unfold size. simpl. rewrite length_app. lia.
    + unfold numrows in *. rewrite Hrow, Hcy', length_app. simpl.
      rewrite Hlen, length_drop. lia.
  - destruct (editorDelChar_inside_row E r) as (E' & Hrun & Hcy' & Hcx' & Hrow);
      [lia|done|lia|].
    exists E'. split; [done|].
    apply cursor_ok_intro.
    + unfold numrows in *. rewrite Hrow, Hcy', length_insert. lia.
    + lia.
    + intros r' Hr'. rewrite Hrow, Hcy' in Hr'.
      rewrite list_lookup_insert_eq in Hr' by (by eapply lookup_lt_Some).
      injection Hr' as <-. unfold size in *. simpl.
      rewrite length_delete_lt by lia. lia.
    + unfold numrows in *. rewrite Hrow, Hcy', length_insert. lia.
Qed.

Lemma editorInsertRow_below_ok at_ s E :
  cursor_ok E -> cy E < at_ -> cursor_ok (editorInsertRow at_ s E).
Proof.
  intros Hok Hlt. pose proof Hok as [Hcx Hcy].
  destruct (decide (at_ <= numrows E)) as [Hin|Hout].
  2:{ by rewrite editorInsertRow_outside by lia. }
  rewrite editorInsertRow_inside by lia.
  destruct (cursor_ok_row E Hok) as (r & Hr & Hcxr); [lia|].
  assert (Hlen : length (take (Z.to_nat at_) (row E)) = Z.to_nat at_).
  { rewrite length_take. unfold numrows in *. lia. }
  apply cursor_ok_intro; cbn [cx cy row set_dirty set_row].
  - unfold numrows in *. cbn [row set_dirty set_row].
    rewrite length_app. simpl. rewrite Hlen, length_drop. lia.
  - lia.
  - intros r' Hr'. rewrite lookup_app_l in Hr' by lia.
    rewrite lookup_take_lt in Hr' by lia. rewrite Hr in Hr'. injection Hr' as <-. lia.
  - unfold numrows in *. cbn [row set_dirty set_row].
    rewrite length_app. simpl. rewrite Hlen, length_drop. lia.
Qed.

Lemma editorDelRow_below_ok at_ E :
  cursor_ok E -> cy E < at_ -> cursor_ok (editorDelRow at_ E).
Proof.
  intros Hok Hlt. pose proof Hok as [Hcx Hcy].
  destruct (decide (at_ < numrows E)) as [Hin|Hout].
  2:{ by rewrite editorDelRow_outside by lia. }
  rewrite editorDelRow_inside by lia.
  destruct (cursor_ok_row E Hok) as (r & Hr & Hcxr); [lia|].
  apply cursor_ok_intro; cbn [cx cy row set_dirty set_row].
  - unfold numrows in *. cbn [row set_dirty set_row].
    rewrite length_delete_lt by lia. lia.
  - lia.
  - intros r' Hr'. rewrite list_lookup_delete_lt in Hr' by lia.
    rewrite Hr in Hr'. injection Hr' as <-. lia.
  - unfold numrows in *. cbn [row set_dirty set_row].
    rewrite length_delete_lt by lia. lia.
Qed.

Lemma apply_op_ok o E :
  cursor_ok E -> below_cursor o E -> exists E', apply_op o E = Some E' /\ cursor_ok E'.
Proof.
  intros Hok Hb. destruct o as [key|c| |at_ s|at_]; simpl in *.
  - by apply editorMoveCursor_ok.
  - by apply editorInsertChar_ok.
  - by apply editorDelChar_ok.
  - eexists. split; [reflexivity|]. by apply editorInsertRow_below_ok.
  - eexists. split; [reflexivity|]. by apply editorDelRow_below_ok.
Qed.

Lemma run_ops_ok ops E :
  cursor_ok E -> ops_below_cursor ops E ->
  exists E', run_ops ops E = Some E' /\ cursor_ok E'.
Proof.
  revert E. induction ops as [|o ops IH]; intros E Hok Hb; simpl in *.
  - by exists E.
  - destruct Hb as [Hb Hrest].
    destruct (apply_op_ok o E Hok Hb) as (E1 & Hrun & Hok1).
    rewrite Hrun in Hrest |- *. simpl. by apply IH.
Qed.

Lemma initEditor_cursor_ok rows cols : cursor_ok (initEditor rows cols).
Proof. unfold cursor_ok, rowLength, numrows. simpl. lia. Qed.

(** C3 as stated fails: a direct [editorDelRow] does not touch the
    cursor.  From the initial state, typing ['a'] puts the cursor at
    [(cy = 0, cx = 1)]; deleting row 0 then leaves no row, while [cx] is
    still [1]. *)
Lemma delete_row_under_cursor_counterexample :
  exists E,
    run_ops [InsertChar 97; DeleteRow 0] (initEditor 24 80) = Some E /\
    cx E = 1 /\ cy E = 0 /\ rowLength E (cy E) = 0 /\ ~ cursor_ok E.
Proof.
  eexists. split; [reflexivity|]. repeat (split; [reflexivity|]).
  unfold cursor_ok, rowLength. simpl. lia.
Qed.

(** C3, amended.  Starting from the initial editor state, after any
    sequence of [editorMoveCursor], [editorInsertChar], [editorDelChar]
    calls and of direct [editorInsertRow] / [editorDelRow] calls whose
    index is below the cursor ([at > cy] at the time of the call), every
    call is defined and the cursor satisfies [0 <= cx <= rowLength cy]
    and [0 <= cy <= numrows]. *)
Theorem cursor_invariant (rows cols : Z) (ops : list doc_op) :
  ops_below_cursor ops (initEditor rows cols) ->
  exists E, run_ops ops (initEditor rows cols) = Some E /\
    0 <= cx E <= rowLength E (cy E) /\ 0 <= cy E <= numrows E.
Proof.
  intros Hb. apply run_ops_ok; [apply initEditor_cursor_ok | done].
Qed.

Lemma cursor_invariant_witness :
  exists E,
    run_ops [InsertChar 97; InsertChar 98; MoveCursor ARROW_LEFT; InsertRow 1 [120];
             MoveCursor ARROW_DOWN; DeleteChar; DeleteChar; InsertRow 1 [121];
             DeleteRow 1]
      (initEditor 24 80) = Some E /\
    0 <= cx E <= rowLength E (cy E) /\ 0 <= cy E <= numrows E.
Proof.
  apply (cursor_invariant 24 80).
  vm_compute. repeat split.
Defined.

(** ** Loading and serializing ([editorOpen], [editorRowsToString]) *)

Lemma foldl_append {A} (f : A -> list Z) (acc : list Z) (rs : list A) :
  foldl (fun buf r => buf ++ f r) acc rs = acc ++ concat (f <$> rs).
Proof.
  revert acc. induction rs as [|r rs IH]; intros acc; simpl.
  - by rewrite app_nil_r.
  - by rewrite IH, app_assoc.
Qed.

Lemma rows_buffer_text rs : rows_buffer rs = text_of_lines (chars <$> rs).
Proof.
  unfold rows_buffer, text_of_lines.
  rewrite (foldl_append (fun r => chars r ++ [NL])). simpl.
  by rewrite <- list_fmap_compose.
Qed.

Lemma rows_totlen_from acc rs :
  foldl (fun tot r => tot + (size r + 1)) acc rs
  = acc + Z.of_nat (length (text_of_lines (chars <$> rs))).
Proof.
  revert acc. induction rs as [|r rs IH]; intros acc; [simpl; lia|].
  cbn [foldl]. rewrite IH. unfold text_of_lines, size.
  rewrite !fmap_cons. cbn [concat]. rewrite !length_app. cbn [length]. lia.
Qed.

(** The length reported by [editorRowsToString] is the length of the
    buffer it fills. *)
Lemma rows_totlen_length rs : rows_totlen rs = Z.of_nat (length (rows_buffer rs)).
Proof.
  unfold rows_totlen. rewrite rows_totlen_from, rows_buffer_text. lia.
Qed.

(** It is the sum of the row sizes plus one per row. *)
Lemma rows_totlen_sum rs :
  rows_totlen rs = foldr Z.add 0 (size <$> rs) + Z.of_nat (length rs).
Proof.
  unfold rows_totlen.
  assert (forall acc, foldl (fun tot r => tot + (size r + 1)) acc rs
          = acc + (foldr Z.add 0 (size <$> rs) + Z.of_nat (length rs))) as H.
  { induction rs as [|r rs IH]; intros acc; [simpl; lia|].
    cbn [foldl]. rewrite IH, fmap_cons. cbn [foldr length]. lia. }
  rewrite H. lia.
Qed.

Lemma read_line_newline l rest :
  NL ∉ l -> read_line (l ++ NL :: rest) = (l ++ [NL], rest).
Proof.
  induction l as [|c l IH]; intros Hn; simpl; [done|].
  apply not_elem_of_cons in Hn as [Hc Hl].
  destruct (Z.eqb_spec c NL) as [->|_]; [done|].
  by rewrite IH.
Qed.

Lemma getline_text l L :
  NL ∉ l -> getline (text_of_lines (l :: L)) = Some (l ++ [NL], text_of_lines L).
Proof.
  intros Hn. unfold text_of_lines. rewrite fmap_cons. cbn [concat].
  rewrite <- app_assoc. simpl.
  rewrite <- (read_line_newline l (concat ((fun l => l ++ [NL]) <$> L)) Hn).
  unfold getline. by destruct l.
Qed.

Lemma getline_shorter s line rest :
  getline s = Some (line, rest) -> (length rest < length s)%nat.
Proof.
  destruct s as [|c s]; [done|]. unfold getline. intros [= H].
  revert c line rest H. induction s as [|c' s IH]; intros c line rest; simpl.
  - destruct (c =? NL); intros [= <- <-]; simpl; lia.
  - destruct (c =? NL); [intros [= <- <-]; simpl; lia|].
    destruct (c' =? NL) eqn:Hc'.
    + intros [= <- <-]. simpl. lia.
    + specialize (IH c'). simpl in IH. rewrite Hc' in IH.
      destruct (read_line s) as [l r]. intros [= <- <-].
      specialize (IH _ _ eq_refl). simpl in *. lia.
Qed.

(** The loop of [editorOpen] ends on every file. *)
Lemma open_loop_total fuel s E :
  (length s < fuel)%nat -> is_Some (open_loop fuel s E).
Proof.
  revert s E. induction fuel as [|fuel IH]; intros s E Hf; [lia|].
  simpl. destruct (getline s) as [[line rest]|] eqn:Hg; [|done].
  apply IH. apply getline_shorter in Hg. lia.
Qed.

Lemma editorOpen_total name s E : exists E', editorOpen name (Some s) E = Done E'.
Proof.
  unfold editorOpen.
  set (s1 := match getline s with Some (_, rest) => rest | None => s end).
  destruct (open_loop_total (S (length s1)) s1 (set_filename (Some name) E)) as [E1 H];
    [lia|].
  rewrite H. simpl. by eexists.
Qed.

Lemma trim_eol_newline l : trim_eol (l ++ [NL]) = trim_eol l.
Proof. unfold trim_eol. by rewrite reverse_snoc. Qed.

Lemma editorInsertRow_append s E :
  editorInsertRow (numrows E) s E =
  set_dirty (dirty E + 1) (set_row (row E ++ [editorUpdateRow (mkRow s [])]) E).
Proof.
  rewrite editorInsertRow_inside by (unfold numrows; lia).
  unfold numrows. rewrite Nat2Z.id, firstn_all, drop_all. done.
Qed.

(** What the reading loop appends for the lines [L]. *)
Lemma open_loop_lines L : forall fuel E,
  Forall (fun l => NL ∉ l) L -> (length L < fuel)%nat ->
  exists E', open_loop fuel (text_of_lines L) E = Some E' /\
    row E' = row E ++ ((fun l => editorUpdateRow (mkRow (trim_eol l) [])) <$> L) /\
    cx E' = cx E /\ cy E' = cy E /\ filename E' = filename E.
Proof.
  induction L as [|l L IH]; intros fuel E HL Hf.
  - destruct fuel; [simpl in Hf; lia|]. simpl. exists E.
    by rewrite app_nil_r.
  - destruct fuel; [simpl in Hf; lia|].
    apply Forall_cons in HL as [Hl HL].
    cbn [open_loop]. rewrite getline_text by done.
    rewrite trim_eol_newline, editorInsertRow_append.
    destruct (IH fuel (set_dirty (dirty E + 1)
                (set_row (row E ++ [editorUpdateRow (mkRow (trim_eol l) [])]) E)) HL)
      as (E' & Hrun & Hrow & Hcx & Hcy & Hfn); [simpl in Hf; lia|].
    exists E'. split; [done|]. rewrite Hrow. cbn [row set_dirty set_row].
    rewrite <- app_assoc. done.
Qed.

Lemma text_of_lines_length L : (length L <= length (text_of_lines L))%nat.
Proof.
  induction L as [|l L IH]; [simpl; lia|].
  unfold text_of_lines in *. rewrite fmap_cons. cbn [concat].
  rewrite !length_app. simpl. lia.
Qed.

(** C1, as the code has it.  Loading a file that holds the lines [L]
    (each without a newline byte inside, each followed by one) into an
    editor without rows gives one row per line of [L] *but the first*:
    the [getline] call in front of the reading loop of [editorOpen]
    consumes the first line and nothing stores it.  Each row holds its
    line with the trailing newline and carriage-return bytes removed,
    [dirty] is [0], and [editorRowsToString] returns these rows joined
    with ['\n'], a ['\n'] after the last one, with a length that is the
    length of that buffer and the sum of the row sizes plus one per row. *)
Theorem editorOpen_serialize_skips_first_line
    (name : list Z) (L : list (list Z)) (E0 : editorConfig) :
  row E0 = [] ->
  Forall (fun l => NL ∉ l) L ->
  exists E,
    editorOpen name (Some (text_of_lines L)) E0 = Done E /\
    dirty E = 0 /\
    chars <$> row E = trim_eol <$> tail L /\
    fst (editorRowsToString E) = text_of_lines (trim_eol <$> tail L) /\
    snd (editorRowsToString E) = Z.of_nat (length (fst (editorRowsToString E))) /\
    snd (editorRowsToString E) = foldr Z.add 0 (size <$> row E) + numrows E.
Proof.
  intros Hrows HL.
  assert (Hs1 : match getline (text_of_lines L) with
                | Some (_, rest) => rest | None => text_of_lines L end
                = text_of_lines (tail L)).
  { destruct L as [|l L]; [done|].
    apply Forall_cons in HL as [Hl _]. by rewrite getline_text. }
  unfold editorOpen. rewrite Hs1.
  destruct (open_loop_lines (tail L) (S (length (text_of_lines (tail L))))
              (set_filename (Some name) E0)) as (E1 & Hrun & Hrow & _).
  { destruct L; [done|]. by apply Forall_cons in HL as [_ HL]. }
  { pose proof (text_of_lines_length (tail L)). lia. }
  rewrite Hrun. simpl. eexists. split; [reflexivity|].
  assert (Hchars : chars <$> row E1 = trim_eol <$> tail L).
  { rewrite Hrow. cbn [row set_filename]. rewrite Hrows. simpl.
    rewrite <- list_fmap_compose. done. }
  cbn [dirty row set_dirty fst snd editorRowsToString].
  split; [done|]. split; [done|].
  split; [by rewrite rows_buffer_text, Hchars|].
  split; [apply rows_totlen_length | apply rows_totlen_sum].
Qed.

Lemma editorOpen_serialize_skips_first_line_witness :
  exists E,
    editorOpen [102] (Some (text_of_lines [[97; 13]; [98; 99]; []])) (initEditor 24 80)
      = Done E /\
    dirty E = 0 /\
    chars <$> row E = trim_eol <$> tail [[97; 13]; [98; 99]; []] /\
    fst (editorRowsToString E) = text_of_lines (trim_eol <$> tail [[97; 13]; [98; 99]; []]) /\
    snd (editorRowsToString E) = Z.of_nat (length (fst (editorRowsToString E))) /\
    snd (editorRowsToString E) = foldr Z.add 0 (size <$> row E) + numrows E.
Proof.
  apply (editorOpen_serialize_skips_first_line [102] [[97; 13]; [98; 99]; []]).
  - reflexivity.
  - repeat (apply Forall_cons; split;
            [intros H; repeat (apply elem_of_cons in H as [H|H]; [discriminate H|]);
             by apply elem_of_nil in H|]).
    apply Forall_nil_2.
Defined.

(** C1 at the one-line file ["a\n"]: no row is loaded, and the
    serialization is empty instead of ["a\n"]. *)
Lemma editorOpen_one_line_file_lost :
  exists E,
    editorOpen [102] (Some (text_of_lines [[97]])) (initEditor 24 80) = Done E /\
    row E = [] /\
    editorRowsToString E = ([], 0) /\
    fst (editorRowsToString E) <> text_of_lines (trim_eol <$> [[97]]).
Proof.
  eexists. split; [reflexivity|]. repeat (split; [reflexivity|]). discriminate.
Qed.

(** ** The input decoder ([editorReadKey]) *)

Lemma editorReadKey_escape en sc pending :
  exists w', editorReadKey (mkOs (Got ESC :: pending) en sc)
             = Done (default ESC (recognised pending), w').
Proof.
  unfold editorReadKey, recognised, tilde_key, bracket_key, o_key, is_digit, read1.
  simpl.
  destruct pending as [|[a| |e] [|[b| |e'] more]]; simpl; eauto.
  destruct (a =? 91).
  - destruct ((48 <=? b) && (b <=? 57)).
    + destruct more as [|[t| |e''] more]; simpl; eauto.
      destruct (t =? 126); simpl; eauto.
      destruct (Z.eqb_spec b 49) as [->|]; simpl; eauto.
      destruct (Z.eqb_spec b 51) as [->|]; simpl; eauto.
      destruct (Z.eqb_spec b 52) as [->|]; simpl; eauto.
      destruct (Z.eqb_spec b 53) as [->|]; simpl; eauto.
      destruct (Z.eqb_spec b 54) as [->|]; simpl; eauto.
      destruct (Z.eqb_spec b 55) as [->|]; simpl; eauto.
      destruct (Z.eqb_spec b 56) as [->|]; simpl; eauto.
    + repeat (case_match; simpl; eauto).
  - repeat (case_match; simpl; eauto).
Qed.

Lemma editorReadKey_plain en sc c rest :
  c <> ESC -> editorReadKey (mkOs (Got c :: rest) en sc) = Done (c, mkOs rest en sc).
Proof.
  intros Hc. unfold editorReadKey. simpl.
  by destruct (Z.eqb_spec c ESC).
Qed.

(** C7.  [editorReadKey] on the pending reads of the terminal ([rest]
    is whatever follows the sequence, [en] and [sc] the rest of the
    surroundings).  After an escape byte: [ESC [ d ~] gives Home for
    [d] = 1 or 7, Delete for 3, End for 4 or 8, PageUp for 5, PageDown
    for 6; [ESC [ A/B/C/D] gives Up/Down/Right/Left and [ESC [ H/F]
    Home/End; [ESC O H/F] gives Home/End; the sequence is consumed.
    Whatever else follows the escape byte (also when fewer than two
    bytes arrive before a read times out) gives the plain escape key.
    A byte other than escape is returned as it is. *)
Theorem editorReadKey_decodes (en : Z) (sc : list sys_event) (rest : list read_result) :
  let run l := editorReadKey (mkOs l en sc) in
  let out k := Done (k, mkOs rest en sc) in
  (run (Got ESC :: Got 91 :: Got 49 :: Got 126 :: rest) = out HOME_KEY /\
   run (Got ESC :: Got 91 :: Got 55 :: Got 126 :: rest) = out HOME_KEY /\
   run (Got ESC :: Got 91 :: Got 51 :: Got 126 :: rest) = out DEL_KEY /\
   run (Got ESC :: Got 91 :: Got 52 :: Got 126 :: rest) = out END_KEY /\
   run (Got ESC :: Got 91 :: Got 56 :: Got 126 :: rest) = out END_KEY /\
   run (Got ESC :: Got 91 :: Got 53 :: Got 126 :: rest) = out PAGE_UP /\
   run (Got ESC :: Got 91 :: Got 54 :: Got 126 :: rest) = out PAGE_DOWN) /\
  (run (Got ESC :: Got 91 :: Got 65 :: rest) = out ARROW_UP /\
   run (Got ESC :: Got 91 :: Got 66 :: rest) = out ARROW_DOWN /\
   run (Got ESC :: Got 91 :: Got 67 :: rest) = out ARROW_RIGHT /\
   run (Got ESC :: Got 91 :: Got 68 :: rest) = out ARROW_LEFT /\
   run (Got ESC :: Got 91 :: Got 72 :: rest) = out HOME_KEY /\
   run (Got ESC :: Got 91 :: Got 70 :: rest) = out END_KEY) /\
  (run (Got ESC :: Got 79 :: Got 72 :: rest) = out HOME_KEY /\
   run (Got ESC :: Got 79 :: Got 70 :: rest) = out END_KEY) /\
  (forall pending, exists w',
     run (Got ESC :: pending) = Done (default ESC (recognised pending), w')) /\
  (forall pending, recognised pending = None ->
     exists w', run (Got ESC :: pending) = Done (ESC, w')) /\
  (run [Got ESC] = Done (ESC, mkOs [] en sc) /\
   forall b, run [Got ESC; Got b] = Done (ESC, mkOs [] en sc)) /\
  (forall c, c <> ESC -> run (Got c :: rest) = out c).
Proof.
  intros run out. subst run out. cbv beta.
  split; [repeat split; reflexivity|].
  split; [repeat split; reflexivity|].
  split; [repeat split; reflexivity|].
  split; [apply editorReadKey_escape|].
  split.
  { intros pending Hn. destruct (editorReadKey_escape en sc pending) as [w' H].
    rewrite Hn in H. by exists w'. }
  split; [split; [reflexivity | intros b; reflexivity]|].
  intros c Hc. by apply editorReadKey_plain.
Qed.

Lemma editorReadKey_decodes_witness :
  (exists w', editorReadKey (mkOs [Got ESC; Got 91; Got 50; Got 126; Got 120] 0 [])
              = Done (ESC, w')) /\
  editorReadKey (mkOs [Got 113; Got 120] 0 []) = Done (113, mkOs [Got 120] 0 []).
Proof.
  split.
  - apply (editorReadKey_decodes 0 [] []). reflexivity.
  - apply (editorReadKey_decodes 0 [] [Got 120]). discriminate.
Defined.

(** ** The prompt ([editorPrompt]) *)

Lemma read1_at_most w : at_most w (snd (read1 w)).
Proof.
  unfold read1, at_most. destruct w as [[|[c| |e] l] en sc]; simpl; split; (lia || done).
Qed.

Lemma at_most_trans w1 w2 w3 : at_most w1 w2 -> at_most w2 w3 -> at_most w1 w3.
Proof. unfold at_most. intros [? ?] [? ?]. split; [lia | congruence]. Qed.

Lemma read_blocking_takes l en sc c w :
  read_blocking l en sc = Done (c, w) ->
  (length (stdin w) < length l)%nat /\ syscalls w = sc.
Proof.
  revert en. induction l as [|[c'| |e] l IH]; intros en; simpl; [done| | |].
  - intros [= <- <-]. simpl. split; [lia|done].
  - intros H. apply IH in H. split; [lia|tauto].
  - destruct (e =? EAGAIN); [|done]. intros H. apply IH in H. split; [lia|tauto].
Qed.

Lemma read_blocking_no_fuel l en sc : read_blocking l en sc <> NoFuel.
Proof.
  revert en. induction l as [|[c'| |e] l IH]; intros en; simpl; try done.
  destruct (e =? EAGAIN); [apply IH | done].
Qed.

Lemma read_blocking_defined l en sc : read_blocking l en sc <> Undef.
Proof.
  revert en. induction l as [|[c'| |e] l IH]; intros en; simpl; try done.
  destruct (e =? EAGAIN); [apply IH | done].
Qed.

(** [editorReadKey] takes at least one read. *)
Lemma editorReadKey_takes w c w' :
  editorReadKey w = Done (c, w') ->
  (length (stdin w') < length (stdin w))%nat /\ syscalls w' = syscalls w.
Proof.
  unfold editorReadKey.
  destruct (read_blocking (stdin w) (errno w) (syscalls w)) as [[c0 w0]| | | |] eqn:Hb;
    simpl; try done.
  apply read_blocking_takes in Hb as [Hlen Hsc].
  assert (Hgen : forall w1, at_most w0 w1 ->
            (length (stdin w1) < length (stdin w))%nat /\ syscalls w1 = syscalls w).
  { intros w1 [? ?]. split; [lia | congruence]. }
  destruct (c0 =? ESC).
  2:{ intros [= <- <-]. done. }
  pose proof (read1_at_most w0) as Hm1.
  destruct (read1 w0) as [[s0|] w1]; simpl in Hm1.
  2:{ intros [= <- <-]. by apply Hgen. }
  pose proof (read1_at_most w1) as Hm2.
  destruct (read1 w1) as [[s1|] w2]; simpl in Hm2.
  2:{ intros [= <- <-]. apply Hgen. by eapply at_most_trans. }
  pose proof (at_most_trans _ _ _ Hm1 Hm2) as Hm12.
  pose proof (read1_at_most w2) as Hm3.
  destruct (read1 w2) as [[s2|] w3]; simpl in Hm3;
    pose proof (at_most_trans _ _ _ Hm12 Hm3) as Hm123;
    repeat case_match; intros [= <- <-]; by apply Hgen.
Qed.

Lemma editorReadKey_no_fuel w : editorReadKey w <> NoFuel.
Proof.
  unfold editorReadKey.
  pose proof (read_blocking_no_fuel (stdin w) (errno w) (syscalls w)).
  destruct (read_blocking _ _ _) as [[c0 w0]| | | |]; simpl; try done.
  repeat case_match; done.
Qed.

Lemma prompt_key_return buf c r :
  prompt_key buf c = PromptReturn r ->
  (r = None /\ c = ESC) \/ (r = Some buf /\ buf <> [] /\ c = CR).
Proof.
  unfold prompt_key.
  destruct ((c =? DEL_KEY) || (c =? CTRL_KEY 104) || (c =? BACKSPACE)).
  { destruct (negb _); discriminate. }
  destruct (Z.eqb_spec c ESC) as [->|_]; [intros [= <-]; by left|].
  destruct (Z.eqb_spec c CR) as [->|_].
  { destruct buf; simpl; [discriminate|]. intros [= <-]. right. done. }
  destruct (negb (iscntrl c) && (c <? 128)); discriminate.
Qed.

Lemma prompt_key_escape buf : prompt_key buf ESC = PromptReturn None.
Proof. reflexivity. Qed.

Lemma prompt_key_enter buf :
  prompt_key buf CR = if decide (buf = []) then PromptAgain [] else PromptReturn (Some buf).
Proof. by destruct buf. Qed.

(** Once the bound exceeds the pending input its value does not matter. *)
Lemma prompt_loop_fuel p fuel1 : forall fuel2 buf E w,
  (length (stdin w) < fuel1)%nat -> (length (stdin w) < fuel2)%nat ->
  prompt_loop fuel1 p buf E w = prompt_loop fuel2 p buf E w.
Proof.
  induction fuel1 as [|fuel1 IH]; intros fuel2 buf E w H1 H2; [lia|].
  destruct fuel2 as [|fuel2]; [lia|]. cbn [prompt_loop].
  destruct (defined (editorRefreshScreen _)) as [E2| | | |]; simpl; try done.
  destruct (editorReadKey w) as [[c w1]| | | |] eqn:Hk; simpl; try done.
  apply editorReadKey_takes in Hk as [Hlen _].
  destruct (prompt_key buf c); [done|]. apply IH; lia.
Qed.

(** The loop of [editorPrompt], one turn unrolled. *)
Lemma prompt_from_unroll p buf E w :
  prompt_from p buf E w =
  (E2 ← defined (editorRefreshScreen (editorSetStatusMessage (apply_fmt p buf) E));
   '(c, w1) ← editorReadKey w;
   match prompt_key buf c with
   | PromptReturn r => Done (r, editorSetStatusMessage [] E2, w1)
   | PromptAgain buf' => prompt_from p buf' E2 w1
   end).
Proof.
  unfold prompt_from at 1. cbn [prompt_loop].
  destruct (defined (editorRefreshScreen _)) as [E2| | | |]; simpl; try done.
  destruct (editorReadKey w) as [[c w1]| | | |] eqn:Hk; simpl; try done.
  apply editorReadKey_takes in Hk as [Hlen _].
  destruct (prompt_key buf c); [done|].
  unfold prompt_from. apply prompt_loop_fuel; lia.
Qed.

Lemma prompt_loop_no_fuel p fuel : forall buf E w,
  (length (stdin w) < fuel)%nat -> prompt_loop fuel p buf E w <> NoFuel.
Proof.
  induction fuel as [|fuel IH]; intros buf E w Hf; [lia|]. cbn [prompt_loop].
  destruct (editorRefreshScreen _) as [E2|]; simpl; [|done].
  pose proof (editorReadKey_no_fuel w) as Hnf.
  destruct (editorReadKey w) as [[c w1]| | | |] eqn:Hk; simpl; try done.
  apply editorReadKey_takes in Hk as [Hlen _].
  destruct (prompt_key buf c); [done|]. apply IH. lia.
Qed.

(** [editorScroll] writes [rx], [rowoff] and [coloff] only. *)
Lemma editorScroll_frame E E' :
  editorScroll E = Some E' ->
  row E' = row E /\ dirty E' = dirty E /\ filename E' = filename E /\
  cx E' = cx E /\ cy E' = cy E /\ statusmsg E' = statusmsg E.
Proof.
  unfold editorScroll. intros H.
  apply bind_Some in H as (E1 & H1 & H2).
  assert (row E1 = row E /\ dirty E1 = dirty E /\ filename E1 = filename E /\
          cx E1 = cx E /\ cy E1 = cy E /\ statusmsg E1 = statusmsg E)
    as (? & ? & ? & ? & ? & ?).
  { destruct (cy E <? numrows E); [|by injection H1 as <-].
    apply bind_Some in H1 as (ri & _ & H1).
    apply bind_Some in H1 as (r0 & _ & H1).
    apply bind_Some in H1 as (v & _ & H1). by injection H1 as <-. }
  injection H2 as <-. repeat case_match; simpl; done.
Qed.


(** The keys of a returning prompt: those before the last one are not
    Escape and build the buffer; the last one is Escape, or Enter on a
    buffer that is not empty. *)
Lemma prompt_loop_keys p fuel : forall buf E w r E' w',
  prompt_loop fuel p buf E w = Done (r, E', w') ->
  exists ks c,
    keys_read w (ks ++ [c]) w' /\ (ESC ∉ ks) /\
    ((r = None /\ c = ESC) \/
     (r = Some (foldl prompt_step buf ks) /\ foldl prompt_step buf ks <> [] /\ c = CR)).
Proof.
  induction fuel as [|fuel IH]; intros buf E w r E' w'; [done|]. cbn [prompt_loop].
  destruct (editorRefreshScreen _) as [E2|]; simpl; [|done].
  destruct (editorReadKey w) as [[c w1]| | | |] eqn:Hk; simpl; try done.
  destruct (prompt_key buf c) as [r0|buf'] eqn:Hp.
  - intros [= <- <- <-]. exists [], c. split; [by exists w1|].
    split; [apply not_elem_of_nil|]. by apply prompt_key_return.
  - intros Hrec. apply IH in Hrec as (ks & c' & Hks & Hesc & Hcase).
    exists (c :: ks), c'. split; [by exists w1|]. split.
    + apply not_elem_of_cons. split; [|done].
      intros Heq. rewrite <- Heq in Hp. by rewrite prompt_key_escape in Hp.
    + cbn [foldl]. unfold prompt_step at 2 4. by rewrite Hp.
Qed.

(** A key that is neither Escape nor Enter on a buffer that is not
    empty does not end the prompt. *)
Lemma prompt_key_again buf c :
  c <> ESC -> (c = CR -> buf = []) ->
  prompt_key buf c = PromptAgain (prompt_step buf c).
Proof.
  intros Hesc Hcr. unfold prompt_step.
  destruct (prompt_key buf c) as [r|buf'] eqn:Hp; [|done].
  apply prompt_key_return in Hp as [[_ ?]|(_ & ? & ?)]; [done|]. by exfalso; auto.
Qed.

(** C9.  [editorPrompt] always comes to a result on a finite pending
    input (a return, or waiting for a key that never comes).  When it
    returns, the result is never the empty string, and with [ks] the
    keys it has read before the last key [c]: no key of [ks] is Escape;
    the result is [NULL] exactly when [c] is Escape; a text is returned
    only when [c] is Enter, and it is the buffer that [ks] have built,
    which is not empty.  At any turn of the loop, Escape returns [NULL],
    Enter with a non-empty buffer returns the buffer, Enter with an
    empty buffer goes on with the next turn, the buffer still empty, and
    so does every other key, with the buffer it leaves. *)
Theorem editorPrompt_returns (p : fmt_s) :
  (forall E w, editorPrompt p E w <> NoFuel) /\
  (forall E w r E' w', editorPrompt p E w = Done (r, E', w') ->
     r <> Some [] /\
     exists ks c, keys_read w (ks ++ [c]) w' /\ (ESC ∉ ks) /\
       (r = None <-> c = ESC) /\
       (forall text, r = Some text ->
          c = CR /\ text = foldl prompt_step [] ks /\ text <> [])) /\
  (forall buf E w E2 w1,
     editorRefreshScreen (editorSetStatusMessage (apply_fmt p buf) E) = Some E2 ->
     editorReadKey w = Done (ESC, w1) ->
     prompt_from p buf E w = Done (None, editorSetStatusMessage [] E2, w1)) /\
  (forall buf E w E2 w1,
     editorRefreshScreen (editorSetStatusMessage (apply_fmt p buf) E) = Some E2 ->
     editorReadKey w = Done (CR, w1) ->
     buf <> [] ->
     prompt_from p buf E w = Done (Some buf, editorSetStatusMessage [] E2, w1)) /\
  (forall E w E2 w1,
     editorRefreshScreen (editorSetStatusMessage (apply_fmt p []) E) = Some E2 ->
     editorReadKey w = Done (CR, w1) ->
     prompt_from p [] E w = prompt_from p [] E2 w1) /\
  (forall buf E w E2 c w1,
     editorRefreshScreen (editorSetStatusMessage (apply_fmt p buf) E) = Some E2 ->
     editorReadKey w = Done (c, w1) ->
     c <> ESC -> (c = CR -> buf = []) ->
     prompt_from p buf E w = prompt_from p (prompt_step buf c) E2 w1).
Proof.
  split; [|split; [|split; [|split; [|split]]]].
  - intros E w. apply prompt_loop_no_fuel. lia.
  - intros E w r E' w' Hrun.
    apply prompt_loop_keys in Hrun as (ks & c & Hks & Hesc & Hcase).
    cbn [foldl] in Hcase. split.
    + destruct Hcase as [[-> _]|(-> & Hne & _)]; congruence.
    + exists ks, c. split; [done|]. split; [done|].
      destruct Hcase as [[-> ->]|(-> & Hne & ->)].
      * split; [done|]. intros text [=].
      * split; [split; discriminate|]. by intros text [= <-].
  - intros buf E w E2 w1 Hs Hk. rewrite prompt_from_unroll, Hs. simpl.
    by rewrite Hk.
  - intros buf E w E2 w1 Hs Hk Hne. rewrite prompt_from_unroll, Hs. simpl.
    rewrite Hk. simpl. rewrite prompt_key_enter. by destruct (decide (buf = [])).
  - intros E w E2 w1 Hs Hk. rewrite prompt_from_unroll, Hs. simpl.
    by rewrite Hk.
  - intros buf E w E2 c w1 Hs Hk Hesc Hcr. rewrite prompt_from_unroll, Hs. simpl.
    rewrite Hk. simpl. by rewrite prompt_key_again.
Qed.

Lemma editorPrompt_returns_witness :
  Some [97] <> Some [] /\
  exists ks c,
    keys_read (mkOs [Got 13; TimedOut; Got 97; Got 13; Got 98] 0 []) (ks ++ [c])
      (mkOs [Got 98] 0 []) /\ (ESC ∉ ks) /\
    (Some [97] = None <-> c = ESC) /\
    (forall text, Some [97] = Some text ->
       c = CR /\ text = foldl prompt_step [] ks /\ text <> []).
Proof.
  pose proof (editorPrompt_returns save_prompt) as (_ & H & _).
  apply (H (initEditor 24 80) (mkOs [Got 13; TimedOut; Got 97; Got 13; Got 98] 0 [])
           (Some [97])
           (editorSetStatusMessage []
              (set_rx 0 (editorSetStatusMessage
                           (apply_fmt save_prompt [97]) (initEditor 24 80))))).
  reflexivity.
Defined.

(** ** Saving ([editorSave]) *)






(** ** Quitting ([editorProcessKeypress]) *)




Lemma quit_key_exits strerror fs p w1 :
  editorReadKey (world p) = Done (CTRL_KEY 113, w1) ->
  dirty (ed p) = 0 \/ quit_times p <= 0 ->
  editorProcessKeypress strerror fs p = Exit 0.
Proof.
  intros Hk Hd. unfold editorProcessKeypress. rewrite Hk.
  change (CTRL_KEY 113) with 17. simpl.
  destruct (Z.eqb_spec (dirty (ed p)) 0); [done|].
  destruct (Z.gtb_spec (quit_times p) 0); [lia|done].
Qed.







Lemma defined_exit {A} (o : option A) code : defined o <> Exit code.
Proof. by destruct o. Qed.




(** * Further properties of the code *)

(** ** Render columns ([editorRowCxToRx]) *)

Lemma tab_fill_length out :
  length (tab_fill (out ++ [SPACE])) = (length out + tab_width (length out))%nat.
Proof. by rewrite tab_expansion, length_app, length_replicate. Qed.

Lemma cx_to_rx_render out l :
  foldl cx_to_rx_step (Z.of_nat (length out)) l = Z.of_nat (length (render_loop out l)).
Proof.
  revert out. induction l as [|c l IH]; intros out; [done|].
  cbn [foldl render_loop]. unfold cx_to_rx_step at 2.
  destruct (c =? TAB).
  - rewrite <- IH. f_equal. rewrite tab_fill_length. unfold tab_width, ATTO_TAB_STOP.
    pose proof (Nat.mod_upper_bound (length out) 4 ltac:(lia)).
    rewrite Nat2Z.inj_add, Nat2Z.inj_sub by lia.
    rewrite (Nat2Z.inj_mod (length out) 4). lia.
  - rewrite <- IH. f_equal. rewrite length_app. simpl. lia.
Qed.

Lemma cx_to_rx_render_start l :
  foldl cx_to_rx_step 0 l = Z.of_nat (length (render_loop [] l)).
Proof. exact (cx_to_rx_render [] l). Qed.

(** X1.  For a cursor column inside the row ([0 <= cx <= size]),
    [editorRowCxToRx] returns the length of what [editorUpdateRow]
    renders for the first [cx] bytes of the row; in particular the
    render column is never left of the raw column, and at the end of the
    row it is the rendered size. *)
Theorem editorRowCxToRx_render (r : erow) (cx : Z) :
  0 <= cx <= size r ->
  exists v,
    editorRowCxToRx r cx = Some v /\
    v = rsize (editorUpdateRow (mkRow (take (Z.to_nat cx) (chars r)) [])) /\
    cx <= v /\
    (cx = size r -> v = rsize (editorUpdateRow r)).
Proof.
  intros Hcx. unfold size in Hcx. unfold editorRowCxToRx.
  replace (cx >? size r + 1) with false by (symmetry; unfold size; zbool; lia).
  eexists. split; [reflexivity|].
  rewrite take_app_le by lia.
  rewrite cx_to_rx_render_start.
  split; [reflexivity|]. split.
  - pose proof (render_loop_length [] (take (Z.to_nat cx) (chars r))) as [Hlo _].
    rewrite length_take in Hlo. simpl in Hlo. lia.
  - intros ->. unfold size, rsize. simpl. by rewrite Nat2Z.id, firstn_all.
Qed.

Lemma editorRowCxToRx_render_witness :
  exists v,
    editorRowCxToRx (mkRow [100; 9; 101; 102] []) 2 = Some v /\
    v = rsize (editorUpdateRow (mkRow (take (Z.to_nat 2) [100; 9; 101; 102]) [])) /\
    2 <= v /\
    (2 = size (mkRow [100; 9; 101; 102] []) ->
     v = rsize (editorUpdateRow (mkRow [100; 9; 101; 102] []))).
Proof.
  apply (editorRowCxToRx_render (mkRow [100; 9; 101; 102] []) 2).
  unfold size. simpl. lia.
Defined.

(** X2.  Inside a row the render column grows with the raw column by at
    least one per byte: two different cursor columns never share a
    render column. *)
Theorem editorRowCxToRx_increasing (r : erow) (cx1 cx2 v1 v2 : Z) :
  0 <= cx1 <= cx2 -> cx2 <= size r ->
  editorRowCxToRx r cx1 = Some v1 -> editorRowCxToRx r cx2 = Some v2 ->
  v1 + (cx2 - cx1) <= v2.
Proof.
  intros H1 H2. unfold size in H2. unfold editorRowCxToRx.
  replace (cx1 >? size r + 1) with false by (symmetry; unfold size; zbool; lia).
  replace (cx2 >? size r + 1) with false by (symmetry; unfold size; zbool; lia).
  intros [= <-] [= <-].
  rewrite !take_app_le by lia.
  rewrite !cx_to_rx_render_start.
  assert (take (Z.to_nat cx2) (chars r)
          = take (Z.to_nat cx1) (chars r)
            ++ take (Z.to_nat cx2 - Z.to_nat cx1) (drop (Z.to_nat cx1) (chars r))) as ->.
  { rewrite <- (take_drop (Z.to_nat cx1) (take (Z.to_nat cx2) (chars r))).
    rewrite take_take, Nat.min_l by lia. f_equal.
    by rewrite skipn_firstn_comm. }
  rewrite render_loop_app.
  pose proof (render_loop_length (render_loop [] (take (Z.to_nat cx1) (chars r)))
                (take (Z.to_nat cx2 - Z.to_nat cx1) (drop (Z.to_nat cx1) (chars r))))
    as [Hlo _].
  rewrite length_take, length_drop in Hlo. lia.
Qed.

Lemma editorRowCxToRx_increasing_witness :
  1 + (2 - 1) <= 4.
Proof.
  apply (editorRowCxToRx_increasing (mkRow [100; 9; 101; 102] []) 1 2 1 4).
  - lia.
  - unfold size. simpl. lia.
  - reflexivity.
  - reflexivity.
Defined.

(** ** Enter ([editorInsertNewLine]) *)

Lemma fmap_chars_insert (rs : list erow) (n : nat) (r : erow) :
  chars <$> <[n := r]> rs = <[n := chars r]> (chars <$> rs).
Proof. by rewrite list_fmap_insert. Qed.

Lemma insert_take_drop {A} (l : list A) (n : nat) (x : A) :
  (n < length l)%nat -> <[n := x]> l = take n l ++ x :: drop (S n) l.
Proof.
  revert n. induction l as [|a l IH]; intros n Hn; simpl in Hn; [lia|].
  destruct n as [|n]; simpl; [by rewrite drop_0|].
  f_equal. apply IH. lia.
Qed.

Lemma editorInsertRow_cursor at_ s E :
  cx (editorInsertRow at_ s E) = cx E /\ cy (editorInsertRow at_ s E) = cy E.
Proof. unfold editorInsertRow. by destruct (_ || _). Qed.

Lemma editorInsertNewLine_at_column_0 E :
  cx E = 0 ->
  editorInsertNewLine E = Some (set_cx 0 (set_cy (cy E + 1) (editorInsertRow (cy E) [] E))).
Proof.
  intros H. unfold editorInsertNewLine. rewrite H. simpl.
  by rewrite (proj2 (editorInsertRow_cursor _ _ _)).
Qed.

Lemma editorInsertNewLine_inside E r :
  0 <= cy E -> row E !! Z.to_nat (cy E) = Some r -> 0 < cx E <= size r ->
  exists E', editorInsertNewLine E = Some E' /\
    cy E' = cy E + 1 /\ cx E' = 0 /\ dirty E' = dirty E + 1 /\
    row E' = take (Z.to_nat (cy E)) (row E)
               ++ editorUpdateRow (mkRow (take (Z.to_nat (cx E)) (chars r)) [])
               :: editorUpdateRow (mkRow (drop (Z.to_nat (cx E)) (chars r)) [])
               :: drop (S (Z.to_nat (cy E))) (row E).
Proof.
  intros Hcy Hr Hcx.
  pose proof (row_lookup_inside _ _ _ Hcy Hr) as Hin.
  assert (Hlen : length (take (Z.to_nat (cy E + 1)) (row E)) = Z.to_nat (cy E + 1)).
  { rewrite length_take. unfold numrows in *. lia. }
  unfold editorInsertNewLine.
  replace (cx E =? 0) with false by (symmetry; zbool; lia).
  rewrite (row_index_inside E (cy E) Hin). cbn [mbind option_bind]. rewrite Hr.
  cbn [mbind option_bind].
  replace ((cx E <? 0) || (cx E >? size r)) with false by (symmetry; zbool; lia).
  rewrite editorInsertRow_inside by lia.
  cbn [row cx cy set_dirty set_row].
  assert (Hr1 : (take (Z.to_nat (cy E + 1)) (row E)
                 ++ editorUpdateRow (mkRow (drop (Z.to_nat (cx E)) (chars r)) [])
                 :: drop (Z.to_nat (cy E + 1)) (row E)) !! Z.to_nat (cy E) = Some r).
  { rewrite lookup_app_l by lia. by rewrite lookup_take_lt by lia. }
  rewrite Hr1. cbn [mbind option_bind].
  eexists. split; [reflexivity|].
  cbn [row cx cy dirty set_dirty set_row set_cx set_cy].
  split; [done|]. split; [done|]. split; [done|].
  rewrite insert_app_l by lia.
  rewrite insert_take_drop by lia.
  rewrite <- app_assoc. cbn [app].
  rewrite take_take, Nat.min_l by lia.
  replace (Z.to_nat (cy E + 1)) with (S (Z.to_nat (cy E))) by lia.
  f_equal. f_equal. rewrite drop_ge; [done|]. rewrite length_take. lia.
Qed.

Lemma cursor_ok_column_0 E : 0 <= cy E <= numrows E -> cx E = 0 -> cursor_ok E.
Proof.
  intros Hcy Hcx. apply cursor_ok_intro; try lia.
  intros r _. pose proof (size_nonneg r). lia.
Qed.

Lemma numrows_lines E : numrows E = Z.of_nat (length (chars <$> row E)).
Proof. unfold numrows. by rewrite length_fmap. Qed.

Lemma editorInsertNewLine_lines E :
  cursor_ok E ->
  exists E', editorInsertNewLine E = Some E' /\
    cy E' = cy E + 1 /\ cx E' = 0 /\ dirty E' = dirty E + 1 /\
    chars <$> row E' =
      match (chars <$> row E) !! Z.to_nat (cy E) with
      | Some line =>
          take (Z.to_nat (cy E)) (chars <$> row E)
            ++ take (Z.to_nat (cx E)) line :: drop (Z.to_nat (cx E)) line
            :: drop (S (Z.to_nat (cy E))) (chars <$> row E)
      | None => (chars <$> row E) ++ [[]]
      end.
Proof.
  intros Hok. pose proof Hok as [Hcx Hcy].
  destruct (decide (cy E = numrows E)) as [Hend|Hnend].
  - pose proof (cursor_ok_end E Hok Hend) as Hcx0.
    rewrite editorInsertNewLine_at_column_0 by done.
    rewrite Hend, editorInsertRow_append.
    eexists. split; [reflexivity|].
    cbn [row cx cy dirty set_dirty set_row set_cx set_cy].
    split; [lia|]. split; [done|]. split; [done|].
    rewrite (proj2 (lookup_ge_None _ _)) by (rewrite length_fmap; unfold numrows; lia).
    by rewrite fmap_app.
  - destruct (cursor_ok_row E Hok) as (r & Hr & Hcxr); [lia|].
    rewrite list_lookup_fmap, Hr. cbn [fmap option_fmap option_map].
    destruct (decide (cx E = 0)) as [Hz|Hnz].
    + rewrite editorInsertNewLine_at_column_0 by done.
      rewrite editorInsertRow_inside by lia.
      eexists. split; [reflexivity|].
      cbn [row cx cy dirty set_dirty set_row set_cx set_cy].
      split; [done|]. split; [done|]. split; [done|].
      rewrite Hz. cbn [Z.to_nat take]. rewrite drop_0.
      rewrite fmap_app, fmap_cons, fmap_take, fmap_drop. cbn [chars editorUpdateRow].
      f_equal. f_equal.
      rewrite (drop_S (chars <$> row E) (chars r)); [done|].
      by rewrite list_lookup_fmap, Hr.
    + destruct (editorInsertNewLine_inside E r) as (E' & Hrun & ? & ? & ? & Hrow);
        [lia|done|lia|].
      exists E'. split; [done|]. split; [done|]. split; [done|]. split; [done|].
      rewrite Hrow, fmap_app, !fmap_cons, fmap_take, fmap_drop. done.
Qed.

Lemma editorInsertNewLine_ok E :
  cursor_ok E -> exists E', editorInsertNewLine E = Some E' /\ cursor_ok E'.
Proof.
  intros Hok. pose proof Hok as [Hcx Hcy].
  destruct (editorInsertNewLine_lines E Hok) as (E' & Hrun & Hcy' & Hcx' & Hd & Hrow).
  exists E'. split; [done|].
  apply cursor_ok_column_0; [|done].
  assert (numrows E' = numrows E + 1) as ->; [|lia].
  rewrite !numrows_lines, Hrow.
  destruct ((chars <$> row E) !! Z.to_nat (cy E)) as [line|] eqn:Hl.
  - apply lookup_lt_Some in Hl.
    rewrite length_app. cbn [length]. rewrite length_take, length_drop. lia.
  - rewrite length_app. simpl. lia.
Qed.

(** X3.  Enter with a valid cursor is always defined.  On an existing
    row it replaces the row by its first [cx] bytes and the remaining
    bytes, in this order (for [cx = 0] an empty row above the unchanged
    row); after the last row it appends one empty row.  The cursor goes
    to column 0 of the next row and stays valid, and [dirty] grows by
    one. *)
Theorem editorInsertNewLine_splits (E : editorConfig) :
  cursor_ok E ->
  exists E', editorInsertNewLine E = Some E' /\
    cursor_ok E' /\ cy E' = cy E + 1 /\ cx E' = 0 /\ dirty E' = dirty E + 1 /\
    chars <$> row E' =
      match (chars <$> row E) !! Z.to_nat (cy E) with
      | Some line =>
          take (Z.to_nat (cy E)) (chars <$> row E)
            ++ take (Z.to_nat (cx E)) line :: drop (Z.to_nat (cx E)) line
            :: drop (S (Z.to_nat (cy E))) (chars <$> row E)
      | None => (chars <$> row E) ++ [[]]
      end.
Proof.
  intros Hok.
  destruct (editorInsertNewLine_lines E Hok) as (E' & Hrun & Hrest).
  destruct (editorInsertNewLine_ok E Hok) as (E'' & Hrun' & Hok').
  assert (E'' = E') as -> by congruence.
  exists E'. done.
Qed.

Lemma editorInsertNewLine_splits_witness :
  let E := mkE 1 0 0 0 0 22 80 [mkRow [97; 98] [97; 98]] 0 None [] in
  exists E', editorInsertNewLine E = Some E' /\
    cursor_ok E' /\ cy E' = 1 /\ cx E' = 0 /\ dirty E' = 1 /\
    chars <$> row E' = [[97]; [98]].
Proof.
  intros E.
  apply (editorInsertNewLine_splits E).
  subst E. unfold cursor_ok, rowLength, numrows, size. simpl. lia.
Defined.

(** ** Round trips of the editing keys *)

Lemma editorDelChar_merge_dirty E p r :
  0 < cy E -> cx E = 0 ->
  row E !! Z.to_nat (cy E - 1) = Some p -> row E !! Z.to_nat (cy E) = Some r ->
  exists E', editorDelChar E = Some E' /\ dirty E' = dirty E + 2.
Proof.
  intros Hcy Hcx Hp Hr.
  assert (Hin : 0 <= cy E < numrows E) by (apply (row_lookup_inside E _ r); [lia|done]).
  unfold editorDelChar.
  replace (cy E =? numrows E) with false by (symmetry; zbool; lia).
  replace ((cx E =? 0) && (cy E =? 0)) with false by (symmetry; zbool; lia).
  rewrite (row_index_inside E (cy E) Hin). simpl. rewrite Hr. simpl.
  replace (cx E >? 0) with false by (symmetry; zbool; lia).
  rewrite (row_index_inside E (cy E - 1)) by lia. simpl. rewrite Hp. simpl.
  unfold editorRowAppendString. cbn [row set_cx]. rewrite Hp. simpl.
  rewrite editorDelRow_inside.
  2:{ unfold numrows in *. cbn [cy row set_dirty set_row set_cx].
      rewrite length_insert. lia. }
  eexists. split; [reflexivity|]. simpl. lia.
Qed.

Lemma editorDelChar_inside_dirty E r :
  0 <= cy E -> row E !! Z.to_nat (cy E) = Some r -> 0 < cx E <= size r ->
  exists E', editorDelChar E = Some E' /\ dirty E' = dirty E + 1.
Proof.
  intros Hcy Hr Hcx.
  pose proof (row_lookup_inside _ _ _ Hcy Hr) as Hin.
  unfold editorDelChar.
  replace (cy E =? numrows E) with false by (symmetry; zbool; lia).
  replace ((cx E =? 0) && (cy E =? 0)) with false by (symmetry; zbool; lia).
  rewrite (row_index_inside E (cy E) Hin). simpl. rewrite Hr. simpl.
  replace (cx E >? 0) with true by (symmetry; zbool; lia).
  rewrite (editorRowDelChar_inside _ _ r) by (done || lia). simpl.
  eexists. split; [reflexivity|]. done.
Qed.

Lemma lookup_lines E i line :
  (chars <$> row E) !! i = Some line -> exists r, row E !! i = Some r /\ chars r = line.
Proof.
  rewrite list_lookup_fmap. destruct (row E !! i) as [r|]; [|done].
  intros [= <-]. by exists r.
Qed.

(** X4.  Enter followed by Backspace, on an existing row with a valid
    cursor, gives back the raw text of every row and the cursor
    position; the three row updates on the way leave [dirty] three
    higher. *)
Theorem newline_then_backspace (E : editorConfig) :
  cursor_ok E -> cy E < numrows E ->
  exists E1 E2,
    editorInsertNewLine E = Some E1 /\ editorDelChar E1 = Some E2 /\
    chars <$> row E2 = chars <$> row E /\
    cx E2 = cx E /\ cy E2 = cy E /\ dirty E2 = dirty E + 3.
Proof.
  intros Hok Hlt. pose proof Hok as [Hcx Hcy].
  destruct (cursor_ok_row E Hok Hlt) as (r & Hr & Hcxr).
  destruct (editorInsertNewLine_lines E Hok) as (E1 & Hrun & Hcy1 & Hcx1 & Hd1 & Hrow1).
  rewrite list_lookup_fmap, Hr in Hrow1. cbn [fmap option_fmap option_map] in Hrow1.
  set (L := chars <$> row E) in *.
  assert (HL : (Z.to_nat (cy E) < length L)%nat).
  { subst L. rewrite length_fmap. unfold numrows in *. lia. }
  assert (Hlen : length (take (Z.to_nat (cy E)) L) = Z.to_nat (cy E)).
  { rewrite length_take. lia. }
  assert (Ha : (chars <$> row E1) !! Z.to_nat (cy E1 - 1)
               = Some (take (Z.to_nat (cx E)) (chars r))).
  { rewrite Hrow1, Hcy1. replace (cy E + 1 - 1) with (cy E) by lia.
    by rewrite list_lookup_middle. }
  assert (Hb : (chars <$> row E1) !! Z.to_nat (cy E1)
               = Some (drop (Z.to_nat (cx E)) (chars r))).
  { rewrite Hrow1, Hcy1. replace (Z.to_nat (cy E + 1)) with (S (Z.to_nat (cy E))) by lia.
    rewrite lookup_app_r by lia. rewrite Hlen, Nat.sub_succ_l, Nat.sub_diag by lia. done. }
  apply lookup_lines in Ha as (p & Hp & Hpc).
  apply lookup_lines in Hb as (q & Hq & Hqc).
  destruct (editorDelChar_merge E1 p q) as (E2 & Hrun2 & Hcy2 & Hcx2 & Hrow2);
    [lia|done|done|done|].
  destruct (editorDelChar_merge_dirty E1 p q) as (E2' & Hrun2' & Hd2);
    [lia|done|done|done|].
  assert (E2' = E2) as -> by congruence.
  exists E1, E2. split; [done|]. split; [done|].
  split; [|split; [|split]].
  - rewrite Hrow2, fmap_app, fmap_cons, fmap_take, fmap_drop.
    cbn [chars editorUpdateRow]. rewrite Hpc, Hqc, take_drop.
    rewrite Hrow1, Hcy1. replace (cy E + 1 - 1) with (cy E) by lia.
    rewrite take_app_length' by done.
    replace (Z.to_nat (cy E + 1 + 1)) with (Z.to_nat (cy E) + 2)%nat by lia.
    rewrite <- Hlen at 2. rewrite drop_app_add'; [|done]. cbn [drop].
    rewrite drop_0. apply take_drop_middle.
    subst L. by rewrite list_lookup_fmap, Hr.
  - rewrite Hcx2. unfold size. rewrite Hpc, length_take. unfold size in Hcxr. lia.
  - lia.
  - lia.
Qed.

Lemma newline_then_backspace_witness :
  let E := mkE 1 0 0 0 0 22 80 [mkRow [97; 98] [97; 98]] 0 None [] in
  exists E1 E2,
    editorInsertNewLine E = Some E1 /\ editorDelChar E1 = Some E2 /\
    chars <$> row E2 = chars <$> row E /\
    cx E2 = cx E /\ cy E2 = cy E /\ dirty E2 = dirty E + 3.
Proof.
  intros E. apply (newline_then_backspace E); subst E; [cursor_ok_compute|].
  unfold numrows. simpl. lia.
Defined.

Lemma editorInsertChar_inside E r c :
  0 <= cy E -> row E !! Z.to_nat (cy E) = Some r -> 0 <= cx E <= size r ->
  editorInsertChar c E =
  Some (set_cx (cx E + 1)
          (set_dirty (dirty E + 1)
             (set_row (<[Z.to_nat (cy E) := editorUpdateRow
                          (mkRow (take (Z.to_nat (cx E)) (chars r) ++ char_of_int c
                                    :: drop (Z.to_nat (cx E)) (chars r)) (render r))]>
                         (row E)) E))).
Proof.
  intros Hcy Hr Hcx.
  pose proof (row_lookup_inside _ _ _ Hcy Hr) as Hin.
  unfold editorInsertChar.
  replace (cy E =? numrows E) with false by (symmetry; zbool; lia).
  rewrite (row_index_inside E (cy E) Hin). simpl.
  by rewrite (editorRowInsertChar_inside E _ r).
Qed.

Lemma editorInsertChar_past_end E c :
  cy E = numrows E -> cx E = 0 ->
  editorInsertChar c E =
  Some (set_cx 1
          (set_dirty (dirty E + 2)
             (set_row (row E ++ [editorUpdateRow (mkRow [char_of_int c] [])]) E))).
Proof.
  intros Hcy Hcx. unfold editorInsertChar.
  rewrite Hcy, Z.eqb_refl, editorInsertRow_append.
  set (E1 := set_dirty _ _).
  assert (Hn : numrows E1 = numrows E + 1).
  { subst E1. unfold numrows. cbn [row set_dirty set_row]. rewrite length_app. simpl. lia. }
  assert (Hc : cy E1 = numrows E) by (subst E1; simpl; lia).
  rewrite row_index_inside by (unfold numrows in *; lia).
  cbn [mbind option_bind].
  assert (Hnew : row E1 !! Z.to_nat (cy E1) = Some (editorUpdateRow (mkRow [] []))).
  { subst E1. cbn [row cy set_dirty set_row]. rewrite Hcy.
    apply list_lookup_middle. unfold numrows. lia. }
  rewrite (editorRowInsertChar_inside E1 _ _ _ _ Hnew)
    by (subst E1; unfold size; simpl; lia).
  subst E1. cbn [mbind option_bind row cx cy dirty set_cx set_dirty set_row].
  rewrite Hcx, Hcy. unfold numrows. rewrite Nat2Z.id.
  rewrite <- (Nat.add_0_r (length (row E))) at 1.
  rewrite insert_app_r. f_equal. unfold set_cx, set_dirty, set_row. simpl.
  f_equal. lia.
Qed.

(** X5.  Typing a byte and pressing Backspace gives back the cursor
    position.  On an existing row it also gives back the raw text of
    every row ([dirty] is two higher); with the cursor after the last
    row, where typing first appends a row, what remains is one more,
    empty, row ([dirty] is three higher). *)
Theorem type_then_backspace (E : editorConfig) (c : Z) :
  cursor_ok E ->
  exists E1 E2,
    editorInsertChar c E = Some E1 /\ editorDelChar E1 = Some E2 /\
    cx E2 = cx E /\ cy E2 = cy E /\
    (cy E < numrows E ->
       chars <$> row E2 = chars <$> row E /\ dirty E2 = dirty E + 2) /\
    (cy E = numrows E ->
       chars <$> row E2 = (chars <$> row E) ++ [[]] /\ dirty E2 = dirty E + 3).
Proof.
  intros Hok. pose proof Hok as [Hcx Hcy].
  destruct (decide (cy E = numrows E)) as [Hend|Hnend].
  - pose proof (cursor_ok_end E Hok Hend) as Hcx0.
    rewrite (editorInsertChar_past_end E c Hend Hcx0).
    set (E1 := set_cx 1 _).
    set (r1 := editorUpdateRow (mkRow [char_of_int c] [])).
    assert (Hr1 : row E1 !! Z.to_nat (cy E1) = Some r1).
    { subst E1. cbn [row cy set_cx set_dirty set_row]. rewrite Hend.
      apply list_lookup_middle. unfold numrows. lia. }
    destruct (editorDelChar_inside_row E1 r1) as (E2 & Hrun & Hcy2 & Hcx2 & Hrow2);
      [subst E1; simpl; lia | done | subst E1 r1; unfold size; simpl; lia |].
    destruct (editorDelChar_inside_dirty E1 r1) as (E2' & Hrun' & Hd2);
      [subst E1; simpl; lia | done | subst E1 r1; unfold size; simpl; lia |].
    assert (E2' = E2) as -> by congruence.
    exists E1, E2. split; [done|]. split; [done|].
    split; [subst E1; simpl in *; lia|]. split; [subst E1; simpl in *; lia|].
    split; [lia|]. intros _. split; [|subst E1; simpl in *; lia].
    rewrite Hrow2. subst E1 r1. cbn [row cx cy set_cx set_dirty set_row chars
      editorUpdateRow Z.sub Z.to_nat delete list_alter list_delete].
    rewrite Hend. unfold numrows. rewrite Nat2Z.id.
    rewrite <- (Nat.add_0_r (length (row E))) at 1.
    rewrite insert_app_r. by rewrite fmap_app.
  - destruct (cursor_ok_row E Hok) as (r & Hr & Hcxr); [lia|].
    rewrite (editorInsertChar_inside E r c) by (done || lia).
    set (r1 := editorUpdateRow _).
    set (E1 := set_cx _ _).
    assert (Hlt : (Z.to_nat (cy E) < length (row E))%nat) by (by eapply lookup_lt_Some).
    assert (Hr1 : row E1 !! Z.to_nat (cy E1) = Some r1).
    { subst E1. cbn [row cy set_cx set_dirty set_row].
      by apply list_lookup_insert_eq. }
    assert (Hsz : size r1 = size r + 1).
    { subst r1. unfold size in *. simpl.
      rewrite length_app. simpl. rewrite length_take, length_drop. lia. }
    destruct (editorDelChar_inside_row E1 r1) as (E2 & Hrun & Hcy2 & Hcx2 & Hrow2);
      [subst E1; simpl; lia | done | subst E1; simpl; lia |].
    destruct (editorDelChar_inside_dirty E1 r1) as (E2' & Hrun' & Hd2);
      [subst E1; simpl; lia | done | subst E1; simpl; lia |].
    assert (E2' = E2) as -> by congruence.
    exists E1, E2. split; [done|]. split; [done|].
    split; [subst E1; simpl in *; lia|]. split; [subst E1; simpl in *; lia|].
    split; [|lia]. intros _. split; [|subst E1; simpl in *; lia].
    rewrite Hrow2. subst E1 r1.
    cbn [row cx cy set_cx set_dirty set_row chars editorUpdateRow].
    replace (Z.to_nat (cx E + 1 - 1)) with (Z.to_nat (cx E)) by lia.
    rewrite list_insert_insert_eq, delete_take_drop by (unfold size in *; lia).
    rewrite list_fmap_insert. cbn [chars].
    apply list_insert_id. by rewrite list_lookup_fmap, Hr.
Qed.

Lemma type_then_backspace_witness :
  let E := mkE 1 0 0 0 0 22 80 [mkRow [97; 98] [97; 98]] 0 None [] in
  exists E1 E2,
    editorInsertChar 120 E = Some E1 /\ editorDelChar E1 = Some E2 /\
    cx E2 = cx E /\ cy E2 = cy E /\
    (cy E < numrows E ->
       chars <$> row E2 = chars <$> row E /\ dirty E2 = dirty E + 2) /\
    (cy E = numrows E ->
       chars <$> row E2 = (chars <$> row E) ++ [[]] /\ dirty E2 = dirty E + 3).
Proof.
  intros E. apply (type_then_backspace E 120). subst E. cursor_ok_compute.
Defined.

(** ** Cursor keys ([editorMoveCursor]) *)

(** With a valid cursor the snap at the end of [editorMoveCursor] has
    nothing to do. *)
Lemma snap_cursor_id E : cursor_ok E -> snap_cursor E = Some E.
Proof.
  intros Hok. pose proof Hok as [Hcx Hcy]. unfold snap_cursor.
  destruct (Z.geb_spec (cy E) (numrows E)) as [Hge|Hlt]; cbn [mbind option_bind].
  - rewrite (cursor_ok_end E Hok) by lia. done.
  - destruct (cursor_ok_row E Hok Hlt) as (r & Hr & Hcxr).
    rewrite row_index_inside by lia. cbn [mbind option_bind]. rewrite Hr.
    cbn [mbind option_bind].
    by replace (cx E >? size r) with false by (symmetry; zbool; lia).
Qed.

Lemma cursor_ok_set_cx E v r :
  cursor_ok E -> row E !! Z.to_nat (cy E) = Some r -> 0 <= v <= size r ->
  cursor_ok (set_cx v E).
Proof.
  intros [Hcx Hcy] Hr Hv. unfold cursor_ok, rowLength in *. simpl. rewrite Hr.
  split; [done|]. unfold numrows in *. simpl. lia.
Qed.

Lemma move_left_inside E :
  cursor_ok E -> cx E <> 0 ->
  editorMoveCursor ARROW_LEFT E = Some (set_cx (cx E - 1) E).
Proof.
  intros Hok Hnz. pose proof Hok as [Hcx Hcy].
  unfold editorMoveCursor, move_step. rewrite Z.eqb_refl.
  replace (cx E =? 0) with false by (symmetry; zbool; lia).
  cbn [negb mbind option_bind]. apply snap_cursor_id.
  destruct (decide (cy E = numrows E)) as [Hend|Hnend].
  { pose proof (cursor_ok_end E Hok Hend). lia. }
  destruct (cursor_ok_row E Hok) as (r & Hr & Hcxr); [lia|].
  apply (cursor_ok_set_cx E _ r); [done|done|lia].
Qed.

Lemma move_left_wrap E r :
  cursor_ok E -> cx E = 0 -> 0 < cy E -> row E !! Z.to_nat (cy E - 1) = Some r ->
  editorMoveCursor ARROW_LEFT E = Some (set_cx (size r) (set_cy (cy E - 1) E)).
Proof.
  intros Hok Hz Hpos Hr. pose proof Hok as [Hcx Hcy].
  unfold editorMoveCursor, move_step. rewrite Z.eqb_refl, Hz.
  cbn [Z.eqb negb].
  replace (cy E >? 0) with true by (symmetry; zbool; lia).
  rewrite row_index_inside by (unfold numrows in *; simpl; lia).
  cbn [cy row set_cy mbind option_bind]. rewrite Hr. cbn [mbind option_bind].
  apply snap_cursor_id. pose proof (size_nonneg r).
  unfold cursor_ok, rowLength. cbn [cx cy row set_cx set_cy]. rewrite Hr.
  unfold numrows in *. simpl. lia.
Qed.

Lemma move_right_inside E r :
  cursor_ok E -> row E !! Z.to_nat (cy E) = Some r -> cx E < size r ->
  editorMoveCursor ARROW_RIGHT E = Some (set_cx (cx E + 1) E).
Proof.
  intros Hok Hr Hlt. pose proof Hok as [Hcx Hcy].
  pose proof (row_lookup_inside E (cy E) r ltac:(lia) Hr) as Hin.
  unfold editorMoveCursor, move_step.
  change (ARROW_RIGHT =? ARROW_LEFT) with false. rewrite Z.eqb_refl.
  replace (cy E >=? numrows E) with false by (symmetry; zbool; lia).
  rewrite row_index_inside by done. cbn [mbind option_bind]. rewrite Hr.
  cbn [mbind option_bind].
  replace (cx E <? size r) with true by (symmetry; zbool; lia).
  apply snap_cursor_id. apply (cursor_ok_set_cx E _ r); [done|done|lia].
Qed.

Lemma move_right_wrap E r :
  cursor_ok E -> row E !! Z.to_nat (cy E) = Some r -> cx E = size r ->
  editorMoveCursor ARROW_RIGHT E = Some (set_cx 0 (set_cy (cy E + 1) E)).
Proof.
  intros Hok Hr Heq. pose proof Hok as [Hcx Hcy].
  pose proof (row_lookup_inside E (cy E) r ltac:(lia) Hr) as Hin.
  unfold editorMoveCursor, move_step.
  change (ARROW_RIGHT =? ARROW_LEFT) with false. rewrite Z.eqb_refl.
  replace (cy E >=? numrows E) with false by (symmetry; zbool; lia).
  rewrite row_index_inside by done. cbn [mbind option_bind]. rewrite Hr.
  cbn [mbind option_bind].
  replace (cx E <? size r) with false by (symmetry; zbool; lia).
  replace (cx E =? size r) with true by (symmetry; zbool; lia).
  apply snap_cursor_id. apply cursor_ok_column_0; [|done].
  unfold numrows in *. simpl. lia.
Qed.

Lemma move_right_past_end E :
  cursor_ok E -> cy E = numrows E -> editorMoveCursor ARROW_RIGHT E = Some E.
Proof.
  intros Hok Hend. unfold editorMoveCursor, move_step.
  change (ARROW_RIGHT =? ARROW_LEFT) with false. rewrite Z.eqb_refl.
  replace (cy E >=? numrows E) with true by (symmetry; zbool; lia).
  cbn [mbind option_bind]. by apply snap_cursor_id.
Qed.

(** X6.  With a valid cursor, Left followed by Right brings the editor
    back to the state it was in, unless the cursor is at the start of
    the document; so does Right followed by Left, unless the cursor is
    after the last row.  Both moves wrap over row ends. *)
Theorem left_right_inverse (E : editorConfig) :
  cursor_ok E ->
  (cx E <> 0 \/ cy E <> 0 ->
     editorMoveCursor ARROW_LEFT E ≫= editorMoveCursor ARROW_RIGHT = Some E) /\
  (cy E < numrows E ->
     editorMoveCursor ARROW_RIGHT E ≫= editorMoveCursor ARROW_LEFT = Some E).
Proof.
  intros Hok. pose proof Hok as [Hcx Hcy]. split.
  - intros Hstart. destruct (decide (cx E = 0)) as [Hz|Hnz].
    + destruct (row_lookup_some E (cy E - 1)) as [r Hr]; [lia|].
      rewrite (move_left_wrap E r) by (done || lia). cbn [mbind option_bind].
      pose proof (size_nonneg r).
      rewrite (move_right_wrap _ r).
      * cbn [cx cy set_cx set_cy]. replace (cy E - 1 + 1) with (cy E) by lia.
        rewrite <- Hz at 1. destruct E; reflexivity.
      * unfold cursor_ok, rowLength. cbn [cx cy row set_cx set_cy]. rewrite Hr.
        unfold numrows in *. simpl. lia.
      * done.
      * done.
    + rewrite move_left_inside by done. cbn [mbind option_bind].
      destruct (decide (cy E = numrows E)) as [Hend|Hnend].
      { pose proof (cursor_ok_end E Hok Hend). lia. }
      destruct (cursor_ok_row E Hok) as (r & Hr & Hcxr); [lia|].
      rewrite (move_right_inside _ r).
      * cbn [cx set_cx]. replace (cx E - 1 + 1) with (cx E) by lia.
        destruct E; reflexivity.
      * apply (cursor_ok_set_cx E _ r); [done|done|lia].
      * done.
      * simpl. lia.
  - intros Hlt. destruct (cursor_ok_row E Hok Hlt) as (r & Hr & Hcxr).
    destruct (decide (cx E = size r)) as [Heq|Hne].
    + rewrite (move_right_wrap E r) by done. cbn [mbind option_bind].
      rewrite (move_left_wrap _ r).
      * cbn [cx cy set_cx set_cy]. replace (cy E + 1 - 1) with (cy E) by lia.
        rewrite <- Heq. destruct E; reflexivity.
      * apply cursor_ok_column_0; [|done]. unfold numrows in *. simpl. lia.
      * done.
      * simpl. lia.
      * cbn [cx cy row set_cx set_cy]. by replace (cy E + 1 - 1) with (cy E) by lia.
    + rewrite (move_right_inside E r) by (done || lia). cbn [mbind option_bind].
      rewrite move_left_inside.
      * cbn [cx set_cx]. replace (cx E + 1 - 1) with (cx E) by lia.
        destruct E; reflexivity.
      * apply (cursor_ok_set_cx E _ r); [done|done|lia].
      * simpl. lia.
Qed.

Lemma left_right_inverse_witness :
  let E := mkE 0 1 0 0 0 22 80 [mkRow [97; 98] [97; 98]; mkRow [99] [99]] 0 None [] in
  editorMoveCursor ARROW_LEFT E ≫= editorMoveCursor ARROW_RIGHT = Some E /\
  editorMoveCursor ARROW_RIGHT E ≫= editorMoveCursor ARROW_LEFT = Some E.
Proof.
  intros E.
  destruct (left_right_inverse E) as [H1 H2]; [subst E; cursor_ok_compute|].
  split; [apply H1; right; subst E; simpl; lia | apply H2; subst E; unfold numrows; simpl; lia].
Defined.

(** ** The Delete key *)

Lemma keypress_delete strerror fs p w1 :
  editorReadKey (world p) = Done (DEL_KEY, w1) ->
  editorProcessKeypress strerror fs p =
  finish (E1 ← defined (editorMoveCursor ARROW_RIGHT (ed p));
          E2 ← defined (editorDelChar E1);
          Done (E2, w1)).
Proof.
  intros Hk. unfold editorProcessKeypress. rewrite Hk. reflexivity.
Qed.

(** X7.  The Delete key with a valid cursor.  Inside a row it removes
    the byte under the cursor; at the end of a row that has a successor
    it joins the successor onto the row; in both cases the cursor stays
    where it is.  At the end of the last row it changes no row but
    leaves the cursor on the position after the last row, column 0.
    After the last row it does nothing. *)
Theorem delete_key_forward (strerror : Z -> list Z) (fs : fs_reply) (p : proc) (w1 : os) :
  editorReadKey (world p) = Done (DEL_KEY, w1) ->
  cursor_ok (ed p) ->
  exists E',
    editorProcessKeypress strerror fs p = Done (mkProc E' ATTO_QUIT_TIMES w1) /\
    match (chars <$> row (ed p)) !! Z.to_nat (cy (ed p)) with
    | None => E' = ed p
    | Some line =>
        if cx (ed p) <? Z.of_nat (length line) then
          chars <$> row E' =
            <[Z.to_nat (cy (ed p)) := delete (Z.to_nat (cx (ed p))) line]>
              (chars <$> row (ed p)) /\
          cx E' = cx (ed p) /\ cy E' = cy (ed p)
        else
          match (chars <$> row (ed p)) !! S (Z.to_nat (cy (ed p))) with
          | Some next =>
              chars <$> row E' =
                take (Z.to_nat (cy (ed p))) (chars <$> row (ed p))
                  ++ (line ++ next)
                  :: drop (S (S (Z.to_nat (cy (ed p))))) (chars <$> row (ed p)) /\
              cx E' = cx (ed p) /\ cy E' = cy (ed p)
          | None => E' = set_cx 0 (set_cy (cy (ed p) + 1) (ed p))
          end
    end.
Proof.
  intros Hk Hok. rewrite (keypress_delete _ _ _ _ Hk).
  set (E := ed p) in *. pose proof Hok as [Hcx Hcy].
  rewrite !list_lookup_fmap.
  destruct (decide (cy E = numrows E)) as [Hend|Hnend].
  { rewrite move_right_past_end by done. cbn [defined mbind res_bind].
    rewrite editorDelChar_past_end by done.
    rewrite (proj2 (lookup_ge_None _ _)) by (unfold numrows in *; lia).
    by exists E. }
  destruct (cursor_ok_row E Hok) as (r & Hr & Hcxr); [lia|].
  rewrite Hr. cbn [fmap option_fmap option_map]. fold (size r).
  destruct (Z.ltb_spec (cx E) (size r)) as [Hlt|Hge].
  - rewrite (move_right_inside E r) by done. cbn [defined mbind res_bind].
    destruct (editorDelChar_inside_row (set_cx (cx E + 1) E) r)
      as (E' & Hrun & Hcy' & Hcx' & Hrow); [simpl; lia | done | simpl; lia |].
    rewrite Hrun. cbn [defined mbind res_bind finish].
    exists E'. split; [done|]. cbn [cx cy row set_cx] in *.
    split; [|lia]. rewrite Hrow, list_fmap_insert. cbn [chars editorUpdateRow].
    by replace (cx E + 1 - 1) with (cx E) by lia.
  - rewrite (move_right_wrap E r) by (done || lia). cbn [defined mbind res_bind].
    set (E1 := set_cx 0 _).
    destruct (row E !! S (Z.to_nat (cy E))) as [q|] eqn:Hq;
      cbn [fmap option_fmap option_map].
    + destruct (editorDelChar_merge E1 r q) as (E' & Hrun & Hcy' & Hcx' & Hrow).
      * subst E1. simpl. lia.
      * done.
      * subst E1. cbn [cy row set_cx set_cy]. by replace (cy E + 1 - 1) with (cy E) by lia.
      * subst E1. cbn [cy row set_cx set_cy].
        by replace (Z.to_nat (cy E + 1)) with (S (Z.to_nat (cy E))) by lia.
      * rewrite Hrun. cbn [defined mbind res_bind finish].
        exists E'. split; [done|]. subst E1. cbn [cx cy row set_cx set_cy] in *.
        split; [|lia].
        rewrite Hrow, fmap_app, fmap_cons, fmap_take, fmap_drop.
        cbn [chars editorUpdateRow].
        replace (cy E + 1 - 1) with (cy E) by lia.
        by replace (Z.to_nat (cy E + 1 + 1)) with (S (S (Z.to_nat (cy E)))) by lia.
    + rewrite editorDelChar_past_end.
      * cbn [defined mbind res_bind finish]. by exists E1.
      * subst E1. apply lookup_ge_None in Hq. apply lookup_lt_Some in Hr.
        unfold numrows in *. cbn [cy row set_cx set_cy]. lia.
Qed.

Lemma delete_key_forward_witness :
  let strerror := fun _ : Z => bytes "Error" in
  let E := mkE 2 0 0 0 0 22 80 [mkRow [97; 98] [97; 98]] 0 None [] in
  let p := mkProc E 2 (mkOs [Got 27; Got 91; Got 51; Got 126] 0 []) in
  exists E',
    editorProcessKeypress strerror (WriteReturns 0) p
      = Done (mkProc E' ATTO_QUIT_TIMES (mkOs [] 0 [])) /\
    E' = set_cx 0 (set_cy 1 E).
Proof.
  intros strerror E p.
  apply (delete_key_forward strerror (WriteReturns 0) p (mkOs [] 0 [])).
  - reflexivity.
  - subst p E. cursor_ok_compute.
Defined.

(** ** Scrolling ([editorScroll]) *)

Lemma editorScroll_rx E E' :
  editorScroll E = Some E' ->
  exists v, E' = set_coloff (coloff E') (set_rowoff (rowoff E') (set_rx v E)) /\
    rx E' = v /\
    rowoff E' =
      (let ro := if cy E <? rowoff E then cy E else rowoff E in
       if cy E >=? ro + screenrows E then cy E - screenrows E + 1 else ro) /\
    coloff E' =
      (let co := if v <? coloff E then v else coloff E in
       if v >=? co + screencols E then v - screencols E + 1 else co).
Proof.
  unfold editorScroll. intros H.
  apply bind_Some in H as (E1 & H1 & H2).
  assert (exists v, E1 = set_rx v E) as [v ->].
  { destruct (cy E <? numrows E); [|injection H1 as <-; by eexists].
    apply bind_Some in H1 as (ri & _ & H1).
    apply bind_Some in H1 as (r0 & _ & H1).
    apply bind_Some in H1 as (v & _ & H1). injection H1 as <-. by eexists. }
  clear H1. exists v. injection H2 as <-. destruct E.
  cbn [cx cy rx rowoff coloff screenrows screencols set_rx set_rowoff set_coloff].
  cbv zeta.
  scroll_cases; repeat split; try reflexivity; try lia; exfalso; lia.
Qed.

(** X8.  After [editorScroll] on a window with at least one row and one
    column, the cursor lies inside the window: [rowoff <= cy < rowoff +
    screenrows] and [coloff <= rx < coloff + screencols].  Offsets that
    were not negative stay so when the cursor is not negative. *)
Theorem editorScroll_cursor_visible (E E' : editorConfig) :
  editorScroll E = Some E' ->
  0 < screenrows E -> 0 < screencols E ->
  (rowoff E' <= cy E' < rowoff E' + screenrows E' /\
   coloff E' <= rx E' < coloff E' + screencols E') /\
  (0 <= cy E -> 0 <= rowoff E -> 0 <= rowoff E') /\
  (0 <= rx E' -> 0 <= coloff E -> 0 <= coloff E').
Proof.
  intros H Hr Hc. apply editorScroll_rx in H as (v & HE & Hrx & Hro & Hco).
  assert (cy E' = cy E /\ screenrows E' = screenrows E /\ screencols E' = screencols E)
    as (-> & -> & ->) by (rewrite HE; done).
  rewrite Hrx, Hro, Hco. cbv zeta.
  scroll_cases; lia.
Qed.

Lemma editorScroll_cursor_visible_witness :
  let E := mkE 2 30 0 0 0 22 80 (replicate 40 (mkRow [97; 9; 98] [97; 32; 32; 32; 98]))
             0 None [] in
  let E' := set_rowoff 9 (set_rx 4 E) in
  (rowoff E' <= cy E' < rowoff E' + screenrows E' /\
   coloff E' <= rx E' < coloff E' + screencols E') /\
  (0 <= cy E -> 0 <= rowoff E -> 0 <= rowoff E') /\
  (0 <= rx E' -> 0 <= coloff E -> 0 <= coloff E').
Proof.
  intros E E'.
  apply (editorScroll_cursor_visible E E'); [reflexivity | subst E; simpl; lia ..].
Defined.

(** X9.  [editorScroll] moves the window only when it has to: offsets
    under which the cursor is already visible are kept, and scrolling a
    second time changes nothing. *)
Theorem editorScroll_stable (E E' : editorConfig) :
  editorScroll E = Some E' ->
  (rowoff E <= cy E < rowoff E + screenrows E -> rowoff E' = rowoff E) /\
  (coloff E <= rx E' < coloff E + screencols E -> coloff E' = coloff E) /\
  editorScroll E' = Some E'.
Proof.
  intros H. pose proof H as Hrun.
  apply editorScroll_rx in H as (v & HE & Hrx & Hro & Hco).
  split; [|split].
  - intros Hvis. rewrite Hro. cbv zeta. scroll_cases; lia.
  - rewrite Hrx. intros Hvis. rewrite Hco. cbv zeta. scroll_cases; lia.
  - assert (Hfields : cy E' = cy E /\ cx E' = cx E /\ row E' = row E /\
                      screenrows E' = screenrows E /\ screencols E' = screencols E)
      by (rewrite HE; done).
    destruct Hfields as (Hcy & Hcx & Hrow & Hsr & Hsc).
    assert (Hstep : (if cy E' <? numrows E'
                     then ri ← row_index E' (cy E'); r ← row E' !! ri;
                          v' ← editorRowCxToRx r (cx E'); Some (set_rx v' E')
                     else Some (set_rx 0 E')) = Some (set_rx v E')).
    { unfold editorScroll in Hrun. apply bind_Some in Hrun as (E1 & H1 & H2).
      assert (rx E1 = v) as Hv1.
      { injection H2 as H2. rewrite <- Hrx, <- H2. scroll_cases; reflexivity. }
      unfold numrows, row_index, numrows in *. rewrite Hcy, Hcx, Hrow.
      destruct (cy E <? Z.of_nat (length (row E))).
      - apply bind_Some in H1 as (ri & -> & H1). cbn [mbind option_bind].
        apply bind_Some in H1 as (r0 & -> & H1). cbn [mbind option_bind].
        apply bind_Some in H1 as (v' & -> & H1). cbn [mbind option_bind].
        injection H1 as <-. simpl in Hv1. by rewrite Hv1.
      - injection H1 as <-. simpl in Hv1. by rewrite Hv1. }
    unfold editorScroll. rewrite Hstep. cbn [mbind option_bind]. f_equal.
    clear Hstep Hrun HE Hcx Hrow. revert Hro Hco Hrx Hcy Hsr Hsc.
    destruct E, E'. cbv zeta.
    cbn [cx cy rx rowoff coloff screenrows screencols set_rx set_rowoff set_coloff].
    intros Hro Hco -> -> -> ->. revert Hro Hco.
    scroll_cases; intros -> ->; f_equal; lia.
Qed.

Lemma editorScroll_stable_witness :
  let E := mkE 2 30 0 0 0 22 80 (replicate 40 (mkRow [97; 9; 98] [97; 32; 32; 32; 98]))
             0 None [] in
  let E' := set_rowoff 9 (set_rx 4 E) in
  (rowoff E <= cy E < rowoff E + screenrows E -> rowoff E' = rowoff E) /\
  (coloff E <= rx E' < coloff E + screencols E -> coloff E' = coloff E) /\
  editorScroll E' = Some E'.
Proof.
  intros E E'. apply (editorScroll_stable E E'). reflexivity.
Defined.

(** ** What the editing operations keep *)

Lemma keeps_refl E : keeps E E.
Proof. unfold keeps, same_view, changes. tauto. Qed.

Lemma keeps_trans E1 E2 E3 : keeps E1 E2 -> keeps E2 E3 -> keeps E1 E3.
Proof.
  unfold keeps, same_view, changes.
  intros ((? & ? & ? & ? & ?) & Hs1 & Hc1) ((? & ? & ? & ? & ?) & Hs2 & Hc2).
  split; [repeat split; congruence|]. split; [tauto|].
  destruct Hc1 as [[? ?]|?], Hc2 as [[? ?]|?]; [left; split; congruence | right; lia ..].
Qed.

Lemma keeps_cursor E vx vy : keeps E (set_cx vx (set_cy vy E)).
Proof. unfold keeps, same_view, changes, rows_synced. simpl. tauto. Qed.

Lemma keeps_set_cx E v : keeps E (set_cx v E).
Proof. unfold keeps, same_view, changes, rows_synced. simpl. tauto. Qed.

Lemma keeps_set_cy E v : keeps E (set_cy v E).
Proof. unfold keeps, same_view, changes, rows_synced. simpl. tauto. Qed.

Lemma synced_update r : synced (editorUpdateRow r).
Proof. reflexivity. Qed.

(** New rows with [dirty] one higher. *)
Lemma keeps_rows E rs :
  (rows_synced E -> Forall synced rs) ->
  keeps E (set_dirty (dirty E + 1) (set_row rs E)).
Proof.
  intros H. unfold keeps, same_view, changes, rows_synced. simpl.
  split; [tauto|]. split; [done|]. right. lia.
Qed.

Lemma editorInsertRow_keeps at_ s E : keeps E (editorInsertRow at_ s E).
Proof.
  unfold editorInsertRow. destruct (_ || _); [apply keeps_refl|].
  apply keeps_rows. intros Hs. apply Forall_app. split; [by apply Forall_take|].
  apply Forall_cons. split; [apply synced_update | by apply Forall_drop].
Qed.

Lemma editorDelRow_keeps at_ E : keeps E (editorDelRow at_ E).
Proof.
  unfold editorDelRow. destruct (_ || _); [apply keeps_refl|].
  apply keeps_rows. intros Hs. by apply Forall_delete.
Qed.

Lemma editorRowInsertChar_keeps ri at_ c E E' :
  editorRowInsertChar ri at_ c E = Some E' -> keeps E E'.
Proof.
  unfold editorRowInsertChar. intros H. apply bind_Some in H as (r & Hr & H).
  injection H as <-. apply keeps_rows. intros Hs.
  apply Forall_insert; [done | apply synced_update].
Qed.

Lemma editorRowAppendString_keeps ri s E E' :
  editorRowAppendString ri s E = Some E' -> keeps E E'.
Proof.
  unfold editorRowAppendString. intros H. apply bind_Some in H as (r & Hr & H).
  injection H as <-. apply keeps_rows. intros Hs.
  apply Forall_insert; [done | apply synced_update].
Qed.

Lemma editorRowDelChar_keeps ri at_ E E' :
  editorRowDelChar ri at_ E = Some E' -> keeps E E'.
Proof.
  unfold editorRowDelChar. intros H. apply bind_Some in H as (r & Hr & H).
  destruct (_ || _); injection H as <-; [apply keeps_refl|].
  apply keeps_rows. intros Hs.
  apply Forall_insert; [done | apply synced_update].
Qed.

Lemma editorInsertChar_keeps c E E' : editorInsertChar c E = Some E' -> keeps E E'.
Proof.
  unfold editorInsertChar. intros H.
  apply bind_Some in H as (ri & _ & H). apply bind_Some in H as (E2 & H2 & H).
  injection H as <-. apply editorRowInsertChar_keeps in H2.
  eapply keeps_trans; [|apply keeps_set_cx].
  eapply keeps_trans; [|exact H2].
  destruct (_ =? _); [apply editorInsertRow_keeps | apply keeps_refl].
Qed.

Lemma editorDelChar_keeps E E' : editorDelChar E = Some E' -> keeps E E'.
Proof.
  unfold editorDelChar.
  destruct (_ =? _); [intros [= <-]; apply keeps_refl|].
  destruct (_ && _); [intros [= <-]; apply keeps_refl|].
  intros H. apply bind_Some in H as (ri & _ & H). apply bind_Some in H as (r & _ & H).
  destruct (_ >? _).
  - apply bind_Some in H as (E1 & H1 & H). injection H as <-.
    eapply keeps_trans; [by eapply editorRowDelChar_keeps | apply keeps_set_cx].
  - apply bind_Some in H as (pi & _ & H). apply bind_Some in H as (p & _ & H).
    apply bind_Some in H as (E2 & H2 & H). injection H as <-.
    eapply keeps_trans; [apply keeps_set_cx|].
    eapply keeps_trans; [by eapply editorRowAppendString_keeps|].
    eapply keeps_trans; [apply editorDelRow_keeps | apply keeps_set_cy].
Qed.

Lemma keeps_fields E E' :
  rowoff E' = rowoff E -> coloff E' = coloff E ->
  screenrows E' = screenrows E -> screencols E' = screencols E ->
  filename E' = filename E -> row E' = row E -> dirty E' = dirty E ->
  keeps E E'.
Proof.
  intros. unfold keeps, same_view, changes, rows_synced.
  split; [done|]. split; [congruence | by left].
Qed.

Lemma move_step_keeps key E E1 : move_step key E = Some E1 -> keeps E E1.
Proof.
  unfold move_step.
  destruct (key =? ARROW_LEFT).
  { destruct (negb _); [intros [= <-]; by apply keeps_fields|].
    destruct (_ >? _); [|intros [= <-]; by apply keeps_fields].
    intros H. apply bind_Some in H as (ri & _ & H). apply bind_Some in H as (r & _ & H).
    injection H as <-. by apply keeps_fields. }
  destruct (key =? ARROW_RIGHT).
  { destruct (_ >=? _); [intros [= <-]; by apply keeps_fields|].
    intros H. apply bind_Some in H as (ri & _ & H). apply bind_Some in H as (r & _ & H).
    destruct (_ <? _); [injection H as <-; by apply keeps_fields|].
    destruct (_ =? _); injection H as <-; by apply keeps_fields. }
  destruct (key =? ARROW_UP).
  { destruct (negb _); intros [= <-]; by apply keeps_fields. }
  destruct (key =? ARROW_DOWN).
  { destruct (_ <? _); intros [= <-]; by apply keeps_fields. }
  intros [= <-]. by apply keeps_fields.
Qed.

Lemma editorMoveCursor_keeps key E E' : editorMoveCursor key E = Some E' -> keeps E E'.
Proof.
  unfold editorMoveCursor. intros H. apply bind_Some in H as (E1 & H1 & H2).
  apply move_step_keeps in H1.
  eapply keeps_trans; [done|].
  unfold snap_cursor in H2. apply bind_Some in H2 as (rowlen & _ & H2).
  injection H2 as <-. destruct (_ >? _); [apply keeps_set_cx | apply keeps_refl].
Qed.

Lemma editorInsertNewLine_keeps E E' : editorInsertNewLine E = Some E' -> keeps E E'.
Proof.
  unfold editorInsertNewLine. intros H. apply bind_Some in H as (E1 & H1 & H).
  injection H as <-.
  eapply keeps_trans; [|eapply keeps_trans; [apply keeps_set_cy | apply keeps_set_cx]].
  destruct (cx E =? 0); [injection H1 as <-; apply editorInsertRow_keeps|].
  apply bind_Some in H1 as (ri & Hri & H1). apply bind_Some in H1 as (r & Hr & H1).
  destruct (_ || _); [done|].
  apply bind_Some in H1 as (r1 & Hr1 & H1). injection H1 as <-.
  assert (Hin : 0 <= cy E + 1 <= numrows E).
  { unfold row_index in Hri. destruct (_ && _) eqn:Hb; [|done]. zbool. lia. }
  rewrite editorInsertRow_inside in * by done.
  unfold keeps, same_view, changes, rows_synced. cbn [row dirty rowoff coloff
    screenrows screencols filename set_row set_dirty].
  split; [done|]. split; [|right; lia].
  intros Hs. apply Forall_insert; [|apply synced_update].
  apply Forall_app. split; [by apply Forall_take|].
  apply Forall_cons. split; [apply synced_update | by apply Forall_drop].
Qed.

(** ** The editor never leaves the defined behaviour *)

Lemma res_ok_bind {A B} (P : B -> Prop) (m : res A) (f : A -> res B) :
  res_ok (fun a => res_ok P (f a)) m -> res_ok P (m ≫= f).
Proof. by destruct m. Qed.

Lemma res_ok_impl {A} (P Q : A -> Prop) (r : res A) :
  (forall a, P a -> Q a) -> res_ok P r -> res_ok Q r.
Proof. intros H. destruct r; simpl; auto. Qed.

Lemma res_ok_defined {A} (P : A -> Prop) (o : option A) :
  (exists a, o = Some a /\ P a) -> res_ok P (defined o).
Proof. by intros (a & -> & H). Qed.

Lemma cursor_ok_ext E E' :
  cx E' = cx E -> cy E' = cy E -> row E' = row E -> cursor_ok E -> cursor_ok E'.
Proof.
  unfold cursor_ok, rowLength, numrows. by intros -> -> ->.
Qed.

Lemma stays_refl E : cursor_ok E -> 0 <= rowoff E -> stays E E.
Proof. unfold stays. intros. repeat (split; [done|]). split; [by left | done]. Qed.

Lemma keeps_stays E E' :
  keeps E E' -> cursor_ok E' -> 0 <= rowoff E -> stays E E'.
Proof.
  unfold keeps, same_view, changes, stays.
  intros ((? & ? & ? & ? & ?) & Hs & Hc) Hok Hro.
  split; [done|]. split; [lia|]. split; [done|]. split; [done|].
  destruct Hc as [[? ?]|?]; (split; [by (left + right) | lia]).
Qed.

Lemma editorScroll_safe E :
  cursor_ok E -> 0 <= rowoff E ->
  exists E', editorScroll E = Some E' /\
    cursor_ok E' /\ 0 <= rowoff E' /\
    (0 < screenrows E -> rowoff E' <= cy E') /\
    screenrows E' = screenrows E /\
    row E' = row E /\ dirty E' = dirty E /\ filename E' = filename E /\
    statusmsg E' = statusmsg E.
Proof.
  intros Hok Hro. pose proof Hok as [Hcx Hcy].
  assert (exists E', editorScroll E = Some E') as [E' Hrun].
  { unfold editorScroll.
    destruct (Z.ltb_spec (cy E) (numrows E)) as [Hlt|Hge];
      [|cbn [mbind option_bind]; by eexists].
    destruct (cursor_ok_row E Hok Hlt) as (r & Hr & Hcxr).
    rewrite row_index_inside by lia. cbn [mbind option_bind]. rewrite Hr.
    cbn [mbind option_bind]. unfold editorRowCxToRx.
    replace (cx E >? size r + 1) with false by (symmetry; zbool; lia).
    cbn [mbind option_bind]. by eexists. }
  exists E'. split; [done|].
  pose proof (editorScroll_frame _ _ Hrun) as (Hrow & Hd & Hfn & Hcx' & Hcy' & Hst).
  pose proof (editorScroll_rx _ _ Hrun) as (v & HE & Hrx & Hroff & Hcoff).
  assert (Hsr : screenrows E' = screenrows E) by (rewrite HE; done).
  split; [by apply (cursor_ok_ext E)|].
  split; [rewrite Hroff; cbv zeta; scroll_cases; lia|].
  split; [intros Hsp; rewrite Hcy', Hroff; cbv zeta; scroll_cases; lia|].
  done.
Qed.

Lemma editorReadKey_defined w : editorReadKey w <> Undef.
Proof.
  unfold editorReadKey.
  pose proof (read_blocking_defined (stdin w) (errno w) (syscalls w)).
  destruct (read_blocking _ _ _) as [[c0 w0]| | | |]; simpl; try done.
  repeat case_match; done.
Qed.

(** The prompt shows the document and reads keys; it changes the status
    message and the scroll offsets only. *)
Lemma prompt_loop_safe p fuel : forall buf E w,
  cursor_ok E -> 0 <= rowoff E -> (length (stdin w) < fuel)%nat ->
  res_ok (fun '(r, E', w') =>
            cursor_ok E' /\ 0 <= rowoff E' /\ screenrows E' = screenrows E /\
            cx E' = cx E /\ cy E' = cy E /\
            row E' = row E /\ dirty E' = dirty E /\ filename E' = filename E)
    (prompt_loop fuel p buf E w).
Proof.
  induction fuel as [|fuel IH]; intros buf E w Hok Hro Hf; [lia|]. cbn [prompt_loop].
  unfold editorRefreshScreen.
  destruct (editorScroll_safe (editorSetStatusMessage (apply_fmt p buf) E))
    as (E2 & Hs & Hok2 & Hro2 & _ & Hsr2 & Hrow2 & Hd2 & Hfn2 & _); [done|done|].
  pose proof (editorScroll_frame _ _ Hs) as (_ & _ & _ & Hcx2 & Hcy2 & _).
  rewrite Hs. cbn [defined mbind res_bind].
  pose proof (editorReadKey_defined w) as Hdef.
  pose proof (editorReadKey_no_fuel w) as Hnf.
  destruct (editorReadKey w) as [[c w1]| | | |] eqn:Hk; cbn [mbind res_bind res_ok]; try done.
  apply editorReadKey_takes in Hk as [Hlen _].
  destruct (prompt_key buf c) as [r|buf'].
  - cbn [res_ok]. simpl in *. split; [by apply (cursor_ok_ext E2)|]. done.
  - eapply res_ok_impl; [|apply (IH buf' E2 w1); [done | done | lia]].
    intros [[r E'] w'] (? & ? & ? & ? & ? & ? & ? & ?). simpl in *.
    split; [done|]. split; [done|]. repeat split; congruence.
Qed.

Lemma save_rows_safe strerror fs name E w :
  cursor_ok E -> 0 <= rowoff E ->
  res_ok (fun '(E', w') =>
            cursor_ok E' /\ rowoff E' = rowoff E /\ screenrows E' = screenrows E /\
            row E' = row E /\ (dirty E' = 0 \/ dirty E' = dirty E))
    (save_rows strerror fs name E w).
Proof.
  intros Hok Hro. unfold save_rows, save_failed. cbn [editorRowsToString].
  destruct fs; try (destruct (_ =? _)); cbn [res_ok]; simpl;
    (split; [by apply (cursor_ok_ext E)|]);
    (split; [done|]); (split; [done|]); (split; [done|]); by (left + right).
Qed.

Lemma editorSave_safe strerror fs E w :
  cursor_ok E -> 0 <= rowoff E ->
  res_ok (fun '(E', w') => stays E E') (editorSave strerror fs E w).
Proof.
  intros Hok Hro. unfold editorSave, stays.
  destruct (filename E) as [name|].
  { eapply res_ok_impl; [|by apply save_rows_safe].
    intros [E' w'] (? & ? & ? & Hrow & Hd). unfold rows_synced. rewrite Hrow.
    split; [done|]. split; [lia|]. split; [done|]. split; [done|].
    split; [by left | lia]. }
  unfold editorPrompt, prompt_from. apply res_ok_bind.
  eapply res_ok_impl; [|apply (prompt_loop_safe save_prompt); [done | done | lia]].
  intros [[r E1] w1] (Hok1 & Hro1 & Hsr1 & Hcx1 & Hcy1 & Hrow1 & Hd1 & Hfn1).
  destruct r as [name|].
  - eapply res_ok_impl;
      [|apply save_rows_safe; [by apply (cursor_ok_ext E1) | done]].
    intros [E' w'] (? & Hro' & Hsr' & Hrow' & Hd'). simpl in *.
    unfold rows_synced. rewrite Hrow', Hrow1.
    split; [done|]. split; [lia|]. split; [congruence|]. split; [done|].
    split; [by left | lia].
  - cbn [res_ok]. simpl. unfold rows_synced. simpl. rewrite Hrow1.
    split; [by apply (cursor_ok_ext E1)|]. split; [done|]. split; [done|].
    split; [done|]. split; [by left | lia].
Qed.

Lemma move_vertical_ok key E :
  key = ARROW_UP \/ key = ARROW_DOWN ->
  0 <= cy E <= numrows E -> 0 <= cx E ->
  exists E', editorMoveCursor key E = Some E' /\ cursor_ok E'.
Proof.
  intros Hkey Hcy Hcx. unfold editorMoveCursor, move_step.
  destruct Hkey as [-> | ->].
  - change (ARROW_UP =? ARROW_LEFT) with false.
    change (ARROW_UP =? ARROW_RIGHT) with false. rewrite Z.eqb_refl.
    destruct (Z.eqb_spec (cy E) 0); cbn [negb mbind option_bind];
      apply snap_cursor_ok; unfold numrows in *; simpl; lia.
  - change (ARROW_DOWN =? ARROW_LEFT) with false.
    change (ARROW_DOWN =? ARROW_RIGHT) with false.
    change (ARROW_DOWN =? ARROW_UP) with false. rewrite Z.eqb_refl.
    destruct (Z.ltb_spec (cy E) (numrows E)); cbn [mbind option_bind];
      apply snap_cursor_ok; unfold numrows in *; simpl; lia.
Qed.

Lemma move_times_keeps n key : forall E E',
  move_times n key E = Some E' -> keeps E E'.
Proof.
  induction n as [|n IH]; intros E E'; simpl.
  - intros [= <-]. apply keeps_refl.
  - intros H. apply bind_Some in H as (E1 & H1 & H2).
    eapply keeps_trans; [by eapply editorMoveCursor_keeps | by apply IH].
Qed.

Lemma move_times_cursor_ok n key : forall E,
  cursor_ok E -> exists E', move_times n key E = Some E' /\ cursor_ok E'.
Proof.
  induction n as [|n IH]; intros E Hok; simpl; [by exists E|].
  destruct (editorMoveCursor_ok key E Hok) as (E1 & -> & Hok1).
  cbn [mbind option_bind]. by apply IH.
Qed.

Lemma move_times_vertical_ok n key E :
  key = ARROW_UP \/ key = ARROW_DOWN ->
  0 <= cy E <= numrows E -> 0 <= cx E ->
  exists E', move_times (S n) key E = Some E' /\ cursor_ok E'.
Proof.
  intros Hkey Hcy Hcx. cbn [move_times].
  destruct (move_vertical_ok key E Hkey Hcy Hcx) as (E1 & -> & Hok1).
  cbn [mbind option_bind]. by apply move_times_cursor_ok.
Qed.

Lemma finish_stays E w (o : option editorConfig) :
  (exists E', o = Some E' /\ stays E E') ->
  res_ok (fun p' => stays E (ed p')) (finish (E' ← defined o; Done (E', w))).
Proof. by intros (E' & -> & H). Qed.

Lemma op_stays E (o : option editorConfig) :
  (exists E', o = Some E' /\ cursor_ok E') ->
  (forall E', o = Some E' -> keeps E E') ->
  0 <= rowoff E ->
  exists E', o = Some E' /\ stays E E'.
Proof.
  intros (E' & -> & Hok) Hk Hro. exists E'. split; [done|].
  apply keeps_stays; [by apply Hk | done | done].
Qed.

Lemma keypress_safe strerror fs p :
  cursor_ok (ed p) -> 0 <= rowoff (ed p) <= numrows (ed p) -> 0 < screenrows (ed p) ->
  res_ok (fun p' => stays (ed p) (ed p')) (editorProcessKeypress strerror fs p).
Proof.
  intros Hok Hro Hsr. pose proof Hok as [Hcx Hcy].
  unfold editorProcessKeypress.
  pose proof (editorReadKey_defined (world p)) as Hdef.
  pose proof (editorReadKey_no_fuel (world p)) as Hnf.
  destruct (editorReadKey (world p)) as [[c w]| | | |]; cbn [mbind res_bind res_ok];
    try done.
  clear Hdef Hnf. cbv zeta. set (E := ed p) in *.
  destruct (c =? CR).
  { apply finish_stays. apply op_stays; [by apply editorInsertNewLine_ok | | lia].
    apply editorInsertNewLine_keeps. }
  destruct (c =? CTRL_KEY 113).
  { destruct (_ && _); [|done]. cbn [res_ok ed]. unfold stays, rows_synced. simpl.
    split; [by apply (cursor_ok_ext E)|]. split; [lia|]. split; [done|].
    split; [done|]. split; [by left | done]. }
  destruct (c =? CTRL_KEY 115).
  { unfold finish. apply res_ok_bind.
    eapply res_ok_impl; [|apply editorSave_safe; [done | lia]].
    by intros [E' w']. }
  destruct (c =? HOME_KEY).
  { cbn [finish mbind res_bind res_ok ed]. apply keeps_stays; [apply keeps_set_cx | | lia].
    apply cursor_ok_column_0; [|done]. unfold numrows in *. simpl. lia. }
  destruct (c =? END_KEY).
  { destruct (Z.ltb_spec (cy E) (numrows E)) as [Hlt|Hge].
    - apply finish_stays.
      destruct (cursor_ok_row E Hok Hlt) as (r & Hr & Hcxr).
      rewrite row_index_inside by lia. cbn [mbind option_bind]. rewrite Hr.
      cbn [mbind option_bind]. eexists. split; [reflexivity|].
      pose proof (size_nonneg r).
      apply keeps_stays; [apply keeps_set_cx | | lia].
      apply (cursor_ok_set_cx E _ r); [done | done | lia].
    - cbn [finish mbind res_bind res_ok ed]. apply stays_refl; [done | lia]. }
  destruct (_ || _).
  { unfold finish. apply res_ok_bind.
    assert (Hmove : exists E1, (if c =? DEL_KEY then editorMoveCursor ARROW_RIGHT E
                                else Some E) = Some E1 /\ cursor_ok E1 /\ keeps E E1).
    { destruct (c =? DEL_KEY).
      - destruct (editorMoveCursor_ok ARROW_RIGHT E Hok) as (E1 & H1 & Hok1).
        exists E1. split; [done|]. split; [done|]. by eapply editorMoveCursor_keeps.
      - exists E. split; [done|]. split; [done | apply keeps_refl]. }
    destruct Hmove as (E1 & -> & Hok1 & Hk1). cbn [defined mbind res_bind].
    destruct (editorDelChar_ok E1 Hok1) as (E2 & H2 & Hok2).
    rewrite H2. cbn [defined mbind res_bind res_ok ed].
    apply keeps_stays; [|done|lia].
    eapply keeps_trans; [done | by apply editorDelChar_keeps]. }
  destruct (_ || _).
  { set (E1 := if c =? PAGE_UP then _ else _).
    assert (HE1 : keeps E E1 /\ 0 <= cy E1 <= numrows E1 /\ cx E1 = cx E).
    { subst E1. destruct (c =? PAGE_UP).
      - split; [apply keeps_set_cy|]. unfold numrows in *. simpl. lia.
      - cbn [cy numrows set_cy]. unfold numrows. cbn [row set_cy]. fold (numrows E).
        destruct (Z.gtb_spec (rowoff E + screenrows E - 1) (numrows E)).
        + split; [eapply keeps_trans; apply keeps_set_cy|].
          unfold numrows in *. simpl. lia.
        + split; [apply keeps_set_cy|]. unfold numrows in *. simpl. lia. }
    destruct HE1 as (Hk1 & Hcy1 & Hcx1).
    assert (Hsr1 : screenrows E1 = screenrows E) by (destruct Hk1 as [(_ & _ & ? & _) _]; done).
    rewrite Hsr1.
    replace (screenrows E <? 0) with false by (symmetry; zbool; lia).
    apply finish_stays.
    destruct (Z.to_nat (screenrows E)) as [|n] eqn:Hn; [lia|].
    set (key := if c =? PAGE_UP then ARROW_UP else ARROW_DOWN).
    assert (Hkey : key = ARROW_UP \/ key = ARROW_DOWN).
    { subst key. destruct (c =? PAGE_UP); [by left | by right]. }
    destruct (move_times_vertical_ok n key E1 Hkey Hcy1 ltac:(lia)) as (E2 & H2 & Hok2).
    exists E2. split; [done|]. apply keeps_stays; [|done|lia].
    eapply keeps_trans; [done | by eapply move_times_keeps]. }
  destruct (_ || _).
  { apply finish_stays. apply op_stays; [by apply editorMoveCursor_ok | | lia].
    apply editorMoveCursor_keeps. }
  destruct (_ || _).
  { cbn [finish mbind res_bind res_ok ed]. apply stays_refl; [done | lia]. }
  apply finish_stays. apply op_stays; [by apply editorInsertChar_ok | | lia].
  apply editorInsertChar_keeps.
Qed.

Lemma editor_turn_safe strerror fs p :
  cursor_ok (ed p) -> 0 <= rowoff (ed p) -> 0 < screenrows (ed p) ->
  res_ok (fun p' => stays (ed p) (ed p')) (editor_turn strerror fs p).
Proof.
  intros Hok Hro Hsr. unfold editor_turn, editorRefreshScreen.
  destruct (editorScroll_safe (ed p) Hok Hro)
    as (E1 & -> & Hok1 & Hro1 & Hvis & Hsr1 & Hrow1 & Hd1 & _).
  cbn [defined mbind res_bind].
  eapply res_ok_impl; [|apply keypress_safe; cbn [ed]].
  - intros p' (Hok' & Hro' & Hsr' & Hs' & Hc' & Hd'). cbn [ed] in *.
    unfold stays, rows_synced in *. rewrite Hrow1, Hd1 in *.
    split; [done|]. split; [done|]. split; [congruence|]. done.
  - done.
  - destruct Hok1 as [_ ?]. specialize (Hvis Hsr). lia.
  - lia.
Qed.

(** The reading loop of [editorOpen] only appends rows. *)
Lemma open_loop_keeps fuel : forall s E E',
  open_loop fuel s E = Some E' -> keeps E E' /\ cx E' = cx E /\ cy E' = cy E.
Proof.
  induction fuel as [|fuel IH]; intros s E E'; [done|]. cbn [open_loop].
  destruct (getline s) as [[line rest]|]; [|intros [= <-]; split; [apply keeps_refl|done]].
  intros H. apply IH in H as (Hk & Hcx & Hcy).
  pose proof (editorInsertRow_cursor (numrows E) (trim_eol line) E) as [? ?].
  split; [|split; congruence].
  eapply keeps_trans; [apply editorInsertRow_keeps | done].
Qed.

Lemma editor_start_safe rows cols arg w :
  res_ok (fun p => cursor_ok (ed p) /\ rowoff (ed p) = 0 /\ screenrows (ed p) = rows - 2 /\
                   rows_synced (ed p) /\ dirty (ed p) = 0 /\ quit_times p = ATTO_QUIT_TIMES)
    (editor_start rows cols arg w).
Proof.
  unfold editor_start. destruct arg as [[name file]|].
  2:{ cbn [mbind res_bind res_ok ed]. split; [apply (cursor_ok_ext (initEditor rows cols));
        [done | done | done | apply initEditor_cursor_ok]|].
      repeat (split; [done|]). split; [apply Forall_nil_2 | done]. }
  unfold editorOpen. destruct file as [s|]; [|done].
  set (s1 := match getline s with Some (_, rest) => rest | None => s end).
  destruct (open_loop_total (S (length s1)) s1 (set_filename (Some name) (initEditor rows cols)))
    as [E1 H]; [lia|].
  rewrite H. cbn [fueled mbind res_bind res_ok ed].
  apply open_loop_keeps in H as (((Hro & _ & Hsr & _) & Hs & _) & Hcx & Hcy).
  simpl in Hro, Hsr, Hcx, Hcy.
  split.
  { apply cursor_ok_column_0; unfold numrows; simpl; lia. }
  simpl. repeat (split; [done|]). split; [|done].
  apply Hs. apply Forall_nil_2.
Qed.

Lemma main_loop_safe strerror fss : forall p,
  cursor_ok (ed p) -> 0 <= rowoff (ed p) -> 0 < screenrows (ed p) ->
  rows_synced (ed p) -> 0 <= dirty (ed p) ->
  res_ok (fun p' => cursor_ok (ed p') /\ rows_synced (ed p') /\ 0 <= dirty (ed p'))
    (main_loop strerror fss p).
Proof.
  induction fss as [|fs fss IH]; intros p Hok Hro Hsr Hs Hd; cbn [main_loop res_ok];
    [done|].
  apply res_ok_bind.
  eapply res_ok_impl; [|by apply editor_turn_safe].
  intros p' (Hok' & Hro' & Hsr' & Hs' & _ & Hd'). apply IH; try done; [lia | tauto | tauto].
Qed.

Lemma editor_run_safe strerror rows cols arg w fss :
  2 < rows ->
  res_ok (fun p => cursor_ok (ed p) /\ rows_synced (ed p) /\ 0 <= dirty (ed p))
    (editor_start rows cols arg w ≫= main_loop strerror fss).
Proof.
  intros Hrows. apply res_ok_bind.
  eapply res_ok_impl; [|apply editor_start_safe].
  intros p (Hok & Hro & Hsr & Hs & Hd & _).
  apply main_loop_safe; try done; lia.
Qed.

(** X12.  In every state that a run of the editor reaches at the top of
    its main loop, the [render] of each row is the tab expansion of the
    row's [chars], as [editorUpdateRow] computes it: no row is ever left
    with a stale rendering. *)
Theorem editor_run_rendered (strerror : Z -> list Z) (rows cols : Z)
    (arg : option (list Z * option (list Z))) (w : os) (fss : list fs_reply) (p : proc) :
  2 < rows ->
  editor_start rows cols arg w ≫= main_loop strerror fss = Done p ->
  Forall (fun r => render r = render (editorUpdateRow r)) (row (ed p)).
Proof.
  intros Hrows Hrun. pose proof (editor_run_safe strerror rows cols arg w fss Hrows) as H.
  rewrite Hrun in H. by destruct H as (_ & ? & _).
Qed.

Lemma editor_run_rendered_witness :
  let strerror := fun _ : Z => bytes "Error" in
  let w := mkOs [Got 9; Got 120] 0 [] in
  let E := mkE 2 0 4 0 0 22 80 [mkRow [9; 120] [32; 32; 32; 32; 120]] 3 None msg_help in
  Forall (fun r => render r = render (editorUpdateRow r)) (row E).
Proof.
  intros strerror w E.
  apply (editor_run_rendered strerror 24 80 None w
           [WriteReturns 0; WriteReturns 0] (mkProc E ATTO_QUIT_TIMES (mkOs [] 0 []))).
  - lia.
  - reflexivity.
Defined.

(** X13.  A turn of the main loop never changes the rows without
    raising [dirty]: when the rows after the turn differ from the rows
    before, [dirty] is larger than before.  [dirty] also never becomes
    negative, so after such a turn it is not [0] and the quit key asks
    for confirmation. *)
Theorem edits_raise_dirty (strerror : Z -> list Z) (fs : fs_reply) (p p' : proc) :
  cursor_ok (ed p) -> 0 <= rowoff (ed p) -> 0 < screenrows (ed p) ->
  editor_turn strerror fs p = Done p' ->
  (row (ed p') <> row (ed p) -> dirty (ed p) < dirty (ed p')) /\
  (0 <= dirty (ed p) -> 0 <= dirty (ed p')) /\
  (0 <= dirty (ed p) -> row (ed p') <> row (ed p) -> dirty (ed p') <> 0).
Proof.
  intros Hok Hro Hsr Hrun.
  pose proof (editor_turn_safe strerror fs p Hok Hro Hsr) as H.
  rewrite Hrun in H. destruct H as (_ & _ & _ & _ & Hc & Hd).
  split; [|split].
  - intros Hne. by destruct Hc.
  - done.
  - intros Hd0 Hne. destruct Hc; [done | lia].
Qed.

Lemma edits_raise_dirty_witness :
  let strerror := fun _ : Z => bytes "Error" in
  let E := mkE 2 0 0 0 0 22 80 [mkRow [97; 98] [97; 98]] 0 None [] in
  let p := mkProc E 2 (mkOs [Got 127] 0 []) in
  let E' := mkE 1 0 2 0 0 22 80 [mkRow [97] [97]] 1 None [] in
  let p' := mkProc E' 2 (mkOs [] 0 []) in
  (row (ed p') <> row (ed p) -> dirty (ed p) < dirty (ed p')) /\
  (0 <= dirty (ed p) -> 0 <= dirty (ed p')) /\
  (0 <= dirty (ed p) -> row (ed p') <> row (ed p) -> dirty (ed p') <> 0).
Proof.
  intros strerror E p E' p'.
  apply (edits_raise_dirty strerror (WriteReturns 0) p p').
  - subst p E. cursor_ok_compute.
  - simpl. lia.
  - simpl. lia.
  - reflexivity.
Defined.

(** ** The frame ([editorRefreshScreen] and the drawing functions) *)

Lemma abAppend_some ab s len :
  0 <= len <= Z.of_nat (length s) ->
  abAppend ab s len = Some (ab ++ take (Z.to_nat len) s).
Proof.
  intros H. unfold abAppend.
  replace ((len <? 0) || (Z.of_nat (length s) <? len)) with false; [done|].
  symmetry. zbool. lia.
Qed.

Lemma abAppend_all ab s len :
  len = Z.of_nat (length s) -> abAppend ab s len = Some (ab ++ s).
Proof.
  intros ->. rewrite abAppend_some by lia. by rewrite Nat2Z.id, firstn_all.
Qed.

Lemma pad_loop_spaces n ab : pad_loop n ab = Some (ab ++ replicate n SPACE).
Proof.
  revert ab. induction n as [|n IH]; intros ab; simpl.
  - by rewrite app_nil_r.
  - rewrite IH. by rewrite <- app_assoc.
Qed.

Lemma welcome_length : length welcome = 26%nat.
Proof. reflexivity. Qed.

Lemma draw_row_line E y ab :
  0 <= y -> 0 <= rowoff E -> 0 <= coloff E -> 0 <= screencols E ->
  draw_row E y ab = Some (ab ++ screen_line E y ++ seq_clear_line ++ crlf).
Proof.
  intros Hy Hro Hco Hsc. unfold draw_row, screen_line.
  assert (Hend : forall ab1 l, ab1 = ab ++ l ->
    (ab2 ← abAppend ab1 seq_clear_line 3; abAppend ab2 crlf 2)
    = Some (ab ++ l ++ seq_clear_line ++ crlf)).
  { intros ab1 l ->. rewrite (abAppend_all _ seq_clear_line) by done. obind.
    rewrite (abAppend_all _ crlf) by done. by rewrite <- !app_assoc. }
  cbv zeta.
  destruct (Z.geb_spec (y + rowoff E) (numrows E)) as [Hge|Hlt].
  - rewrite (proj2 (lookup_ge_None (row E) (Z.to_nat (y + rowoff E))))
      by (unfold numrows in Hge; lia).
    destruct ((numrows E =? 0) && (y =? screenrows E `quot` 3)).
    + unfold banner_margin. rewrite welcome_length.
      change (Z.of_nat 26) with 26.
      destruct (Z.gtb_spec 26 (screencols E)) as [Hw|Hw].
      * rewrite Z.min_r by lia. rewrite Z.sub_diag.
        change (0 `quot` 2) with 0. change (0 =? 0) with true.
        cbn [negb]. obind. change (0 <? 0) with false.
        change (Z.to_nat 0) with 0%nat. cbn [pad_loop take app]. obind.
        rewrite (abAppend_some ab welcome) by (rewrite welcome_length; lia).
        obind. apply Hend. done.
      * rewrite Z.min_l by lia.
        set (m := (screencols E - 26) `quot` 2).
        assert (0 <= m) by (apply Z.quot_pos; lia).
        rewrite (take_ge welcome) by (rewrite welcome_length; lia).
        destruct (Z.eqb_spec m 0) as [Hm|Hm]; cbn [negb]; obind.
        -- rewrite Hm. change (0 <? 0) with false.
           change (Z.to_nat 0) with 0%nat. cbn [pad_loop take app]. obind. rewrite abAppend_all by done. obind. by apply Hend.
        -- rewrite (abAppend_all ab tilde) by done. obind.
           replace (m - 1 <? 0) with false by (symmetry; zbool; lia).
           rewrite pad_loop_spaces. obind.
           rewrite abAppend_all by done. obind. apply Hend.
           rewrite <- !app_assoc. f_equal.
           replace (take (Z.to_nat m) (tilde ++ replicate (Z.to_nat m) SPACE))
             with (tilde ++ replicate (Z.to_nat (m - 1)) SPACE);
             [by rewrite <- app_assoc|].
           replace (Z.to_nat m) with (S (Z.to_nat (m - 1))) by lia.
           change tilde with [126]. cbn [app take]. f_equal.
           rewrite take_replicate. f_equal. lia.
    + rewrite (abAppend_all ab tilde) by done. obind. by apply Hend.
  - rewrite row_index_inside by lia. obind.
    destruct (row_lookup_some E (y + rowoff E)) as [r Hr]; [lia|].
    rewrite Hr. obind.
    replace (coloff E <? 0) with false by (symmetry; zbool; lia).
    set (len := if (if rsize r - coloff E <? 0 then 0 else rsize r - coloff E)
                     >? screencols E then screencols E
                else if rsize r - coloff E <? 0 then 0 else rsize r - coloff E).
    assert (Hlen : len = Z.min (Z.max (rsize r - coloff E) 0) (screencols E)).
    { unfold len. repeat case_match; zbool; lia. }
    rewrite abAppend_some by (rewrite length_drop; unfold rsize in *; lia).
    obind. apply Hend. f_equal.
    rewrite Hlen. unfold rsize.
    destruct (Z.le_ge_cases (Z.max (Z.of_nat (length (render r)) - coloff E) 0)
                (screencols E)).
    + rewrite Z.min_l by done.
      rewrite !take_ge; [done| |]; rewrite length_drop; lia.
    + by rewrite Z.min_r.
Qed.

Lemma screen_line_fits E y :
  0 < screencols E -> Z.of_nat (length (screen_line E y)) <= screencols E.
Proof.
  intros Hsc. unfold screen_line.
  destruct (row E !! Z.to_nat (y + rowoff E)) as [r|].
  - rewrite length_take. lia.
  - destruct ((numrows E =? 0) && (y =? screenrows E `quot` 3)).
    + rewrite length_app, !length_take, length_app, length_replicate.
      unfold banner_margin. rewrite welcome_length.
      change (Z.of_nat 26) with 26. change (length tilde) with 1%nat.
      set (w := Z.min 26 (screencols E)).
      assert (0 <= screencols E - w) by (unfold w; lia).
      pose proof (Z.quot_pos (screencols E - w) 2 ltac:(lia) ltac:(lia)).
      assert ((screencols E - w) `quot` 2 <= screencols E - w)
        by (apply Z.quot_le_upper_bound; lia).
      unfold w in *. lia.
    + change (length tilde) with 1%nat. lia.
Qed.

Lemma draw_rows_from_lines n y E ab :
  0 <= y -> 0 <= rowoff E -> 0 <= coloff E -> 0 <= screencols E ->
  draw_rows_from n y E ab
  = Some (ab ++ frame_lines (screen_line E <$> seqZ y (Z.of_nat n))).
Proof.
  intros Hy Hro Hco Hsc. revert y ab Hy.
  induction n as [|n IH]; intros y ab Hy.
  - cbn [draw_rows_from]. change (seqZ y (Z.of_nat 0)) with (@nil Z).
    unfold frame_lines. cbn [fmap list_fmap map concat]. by rewrite app_nil_r.
  - cbn [draw_rows_from]. rewrite draw_row_line by done. obind.
    rewrite IH by lia. f_equal.
    rewrite Nat2Z.inj_succ, (seqZ_cons y) by lia.
    rewrite Z.pred_succ, <- Z.add_1_r.
    unfold frame_lines. rewrite fmap_cons. cbn [map concat].
    by rewrite <- !app_assoc.
Qed.

Lemma status_fill_spaces E rstatus n len ab :
  Z.of_nat n = screencols E - len -> (1 <= length rstatus)%nat ->
  status_fill n len E rstatus (Z.of_nat (length rstatus)) ab
  = Some (ab ++ if (length rstatus <=? n)%nat
                then replicate (n - length rstatus) SPACE ++ rstatus
                else replicate n SPACE).
Proof.
  intros Hn Hr. revert len ab Hn. induction n as [|n IH]; intros len ab Hn.
  - cbn [status_fill]. destruct (Nat.leb_spec (length rstatus) 0); [lia|].
    by rewrite app_nil_r.
  - cbn [status_fill].
    destruct (Z.eqb_spec (screencols E - len) (Z.of_nat (length rstatus))) as [He|He].
    + rewrite abAppend_all by done.
      destruct (Nat.leb_spec (length rstatus) (S n)); [|lia].
      replace (S n - length rstatus)%nat with 0%nat by lia. done.
    + rewrite (abAppend_all ab [SPACE]) by done. obind.
      rewrite IH by lia.
      destruct (Nat.leb_spec (length rstatus) n), (Nat.leb_spec (length rstatus) (S n));
        try lia.
      * replace (S n - length rstatus)%nat with (S (n - length rstatus)) by lia.
        by rewrite <- app_assoc.
      * by rewrite <- app_assoc.
Qed.

Lemma rstatus_text_length E : (1 <= length (rstatus_text E))%nat.
Proof.
  unfold rstatus_text. rewrite !length_app.
  change (length (bytes "/")) with 1%nat. lia.
Qed.

Lemma editorDrawStatusBar_bar E ab :
  0 <= screencols E ->
  (length (status_text E) <= 79)%nat -> (length (rstatus_text E) <= 79)%nat ->
  editorDrawStatusBar E ab
  = Some (ab ++ seq_invert ++ status_bar E ++ seq_normal ++ crlf).
Proof.
  intros Hsc Hs Hr. unfold editorDrawStatusBar, status_bar.
  rewrite (abAppend_all ab seq_invert) by done. obind.
  rewrite !take_ge by lia. cbv zeta.
  set (len := if Z.of_nat (length (status_text E)) >? screencols E
              then screencols E else Z.of_nat (length (status_text E))).
  assert (Hlen : len = Z.min (Z.of_nat (length (status_text E))) (screencols E)).
  { unfold len. case_match; zbool; lia. }
  rewrite abAppend_some by lia. obind.
  rewrite status_fill_spaces; [|lia|apply rstatus_text_length]. obind.
  rewrite (abAppend_all _ seq_normal) by done. obind.
  rewrite (abAppend_all _ crlf) by done.
  replace (Z.to_nat (screencols E - len))
    with (Z.to_nat (screencols E) - length (status_text E))%nat by lia.
  f_equal. rewrite <- !app_assoc. do 2 f_equal.
  rewrite Hlen.
  destruct (Z.le_ge_cases (Z.of_nat (length (status_text E))) (screencols E)).
  - rewrite Z.min_l, Nat2Z.id by done. rewrite !take_ge by lia. done.
  - by rewrite Z.min_r.
Qed.

Lemma editorDrawMessageBar_text age E ab :
  0 <= screencols E ->
  editorDrawMessageBar age E ab
  = Some (ab ++ seq_clear_line
             ++ if age <? 5 then take (Z.to_nat (screencols E)) (statusmsg E) else []).
Proof.
  intros Hsc. unfold editorDrawMessageBar.
  rewrite (abAppend_all ab seq_clear_line) by done. obind. cbv zeta.
  set (msglen := if Z.of_nat (length (statusmsg E)) >? screencols E
                 then screencols E else Z.of_nat (length (statusmsg E))).
  assert (Hlen : msglen = Z.min (Z.of_nat (length (statusmsg E))) (screencols E)).
  { unfold msglen. case_match; zbool; lia. }
  destruct (Z.eqb_spec msglen 0) as [H0|H0]; cbn [negb andb].
  - f_equal. rewrite app_assoc.
    replace (if age <? 5 then take (Z.to_nat (screencols E)) (statusmsg E) else [])
      with (@nil Z); [by rewrite app_nil_r|].
    destruct (age <? 5); [|done].
    assert (statusmsg E = [] \/ screencols E = 0) as [->| ->];
      [|by rewrite take_nil|by change (Z.to_nat 0) with 0%nat].
    destruct (statusmsg E); [by left|right]. simpl in Hlen. lia.
  - destruct (age <? 5).
    + rewrite abAppend_some by lia. rewrite <- app_assoc. do 3 f_equal.
      rewrite Hlen.
      destruct (Z.le_ge_cases (Z.of_nat (length (statusmsg E))) (screencols E)).
      * rewrite Z.min_l, Nat2Z.id by done. rewrite !take_ge by lia. done.
      * by rewrite Z.min_r.
    + by rewrite app_nil_r.
Qed.

(** X14.  [editorDrawRows] writes exactly [screenrows] lines, each ended
    by "clear to end of line" and CR LF, and none wider than the window.
    The line of a file row is the part of its [render] from column
    [coloff] on, cut to [screencols] bytes; a line below the last row is
    a single tilde, except the banner line of an empty document. *)
Theorem editorDrawRows_lines (E : editorConfig) (ab : list Z) :
  0 <= rowoff E -> 0 <= coloff E -> 0 < screencols E ->
  exists lines,
    editorDrawRows E ab = Some (ab ++ frame_lines lines) /\
    length lines = Z.to_nat (screenrows E) /\
    Forall (fits E) lines /\
    (forall (y : nat) r, (y < length lines)%nat ->
       row E !! (y + Z.to_nat (rowoff E))%nat = Some r ->
       lines !! y = Some (take (Z.to_nat (screencols E))
                            (drop (Z.to_nat (coloff E)) (render r)))) /\
    (forall y : nat, (y < length lines)%nat ->
       numrows E <= Z.of_nat y + rowoff E ->
       numrows E <> 0 \/ Z.of_nat y <> screenrows E `quot` 3 ->
       lines !! y = Some tilde).
Proof.
  intros Hro Hco Hsc.
  exists (screen_line E <$> seqZ 0 (Z.of_nat (Z.to_nat (screenrows E)))).
  assert (Hlen : length (screen_line E <$> seqZ 0 (Z.of_nat (Z.to_nat (screenrows E))))
                 = Z.to_nat (screenrows E))
    by (by rewrite length_fmap, length_seqZ, Nat2Z.id).
  split; [apply draw_rows_from_lines; lia|].
  split; [done|]. rewrite Hlen.
  split; [apply Forall_fmap, Forall_forall; intros y _; by apply screen_line_fits|].
  split.
  - intros y r Hy Hr. rewrite list_lookup_fmap, lookup_seqZ_lt by lia.
    cbn [fmap option_fmap option_map]. f_equal. unfold screen_line.
    replace (Z.to_nat (0 + Z.of_nat y + rowoff E))
      with (y + Z.to_nat (rowoff E))%nat by lia.
    by rewrite Hr.
  - intros y Hy Hge Hb. rewrite list_lookup_fmap, lookup_seqZ_lt by lia.
    cbn [fmap option_fmap option_map]. f_equal. unfold screen_line.
    rewrite (proj2 (lookup_ge_None (row E) _)) by (unfold numrows in Hge; lia).
    replace ((numrows E =? 0) && (0 + Z.of_nat y =? screenrows E `quot` 3))
      with false; [done|].
    symmetry. zbool. lia.
Qed.

Lemma editorDrawRows_lines_witness :
  let E := mkE 0 0 0 1 2 3 4 [mkRow [97] [97]; mkRow [9; 98; 99] [32; 32; 32; 32; 98; 99]]
             0 None [] in
  exists lines,
    editorDrawRows E [] = Some ([] ++ frame_lines lines) /\
    length lines = Z.to_nat (screenrows E) /\
    Forall (fits E) lines /\
    (forall (y : nat) r, (y < length lines)%nat ->
       row E !! (y + Z.to_nat (rowoff E))%nat = Some r ->
       lines !! y = Some (take (Z.to_nat (screencols E))
                            (drop (Z.to_nat (coloff E)) (render r)))) /\
    (forall y : nat, (y < length lines)%nat ->
       numrows E <= Z.of_nat y + rowoff E ->
       numrows E <> 0 \/ Z.of_nat y <> screenrows E `quot` 3 ->
       lines !! y = Some tilde).
Proof.
  intros E. apply (editorDrawRows_lines E []); subst E; simpl; lia.
Defined.

(** X15.  The welcome banner of an empty document is centred: in a
    window at least as wide as the banner it is written after a left
    margin (a tilde, then spaces) that is as wide as the space left on
    its right, or one column narrower; in a narrower window the banner
    is cut to the width of the window and has no margin. *)
Theorem welcome_banner_centred (E : editorConfig) (ab : list Z) :
  numrows E = 0 -> 0 <= rowoff E -> 0 <= coloff E -> 0 <= screenrows E ->
  0 <= screencols E ->
  (Z.of_nat (length welcome) <= screencols E ->
   exists left right : nat,
     draw_row E (screenrows E `quot` 3) ab
     = Some (ab ++ take left (tilde ++ replicate left SPACE) ++ welcome
                ++ seq_clear_line ++ crlf) /\
     Z.of_nat (left + length welcome + right) = screencols E /\
     (right = left \/ right = S left)) /\
  (screencols E < Z.of_nat (length welcome) ->
   draw_row E (screenrows E `quot` 3) ab
   = Some (ab ++ take (Z.to_nat (screencols E)) welcome ++ seq_clear_line ++ crlf)).
Proof.
  intros Hn Hro Hco Hsr Hsc.
  assert (Hy : 0 <= screenrows E `quot` 3) by (apply Z.quot_pos; lia).
  rewrite draw_row_line by done. unfold screen_line.
  rewrite (proj2 (lookup_ge_None (row E) _)) by (unfold numrows in Hn; lia).
  rewrite Hn, !Z.eqb_refl. cbn [andb].
  unfold banner_margin. rewrite welcome_length. change (Z.of_nat 26) with 26.
  split; intros Hw.
  - rewrite Z.min_l by lia. rewrite (take_ge welcome) by (rewrite welcome_length; lia).
    rewrite Z.quot_div_nonneg by lia.
    pose proof (Z.div_mod (screencols E - 26) 2 ltac:(lia)).
    pose proof (Z.mod_pos_bound (screencols E - 26) 2 ltac:(lia)).
    exists (Z.to_nat ((screencols E - 26) `div` 2)),
           (Z.to_nat (screencols E - 26 - (screencols E - 26) `div` 2)).
    split; [by rewrite <- app_assoc|]. split; lia.
  - rewrite Z.min_r by lia. rewrite Z.sub_diag.
    change (Z.to_nat (0 `quot` 2)) with 0%nat. done.
Qed.

Lemma welcome_banner_centred_witness :
  let E := mkE 0 0 0 0 0 22 80 [] 0 None [] in
  (Z.of_nat (length welcome) <= screencols E ->
   exists left right : nat,
     draw_row E (screenrows E `quot` 3) []
     = Some ([] ++ take left (tilde ++ replicate left SPACE) ++ welcome
                ++ seq_clear_line ++ crlf) /\
     Z.of_nat (left + length welcome + right) = screencols E /\
     (right = left \/ right = S left)) /\
  (screencols E < Z.of_nat (length welcome) ->
   draw_row E (screenrows E `quot` 3) []
   = Some ([] ++ take (Z.to_nat (screencols E)) welcome ++ seq_clear_line ++ crlf)).
Proof.
  intros E. apply (welcome_banner_centred E []); subst E; simpl; (reflexivity || lia).
Defined.

Lemma status_bar_length E :
  0 <= screencols E -> Z.of_nat (length (status_bar E)) = screencols E.
Proof.
  intros Hsc. pose proof (rstatus_text_length E). unfold status_bar. cbv zeta.
  destruct (Nat.leb_spec (length (rstatus_text E))
              (Z.to_nat (screencols E) - length (status_text E))).
  - rewrite !length_app, length_take, length_replicate. lia.
  - rewrite length_app, length_take, length_replicate. lia.
Qed.

(** X16.  The status bar is exactly as wide as the window.  When the
    left text (file name, number of lines, modified mark) and the right
    text (line of the cursor / number of lines) both fit, the bar is the
    left text, spaces, and the right text ending in the last column;
    otherwise the right text is left out altogether and the bar is the
    left text cut or padded with spaces to the width. *)
Theorem editorDrawStatusBar_width (E : editorConfig) (ab : list Z) :
  0 <= screencols E ->
  (length (status_text E) <= 79)%nat -> (length (rstatus_text E) <= 79)%nat ->
  exists bar,
    editorDrawStatusBar E ab = Some (ab ++ seq_invert ++ bar ++ seq_normal ++ crlf) /\
    Z.of_nat (length bar) = screencols E /\
    (Z.of_nat (length (status_text E) + length (rstatus_text E)) <= screencols E ->
     exists gap, bar = status_text E ++ replicate gap SPACE ++ rstatus_text E) /\
    (screencols E < Z.of_nat (length (status_text E) + length (rstatus_text E)) ->
     bar = take (Z.to_nat (screencols E))
             (status_text E ++ replicate (Z.to_nat (screencols E)) SPACE)).
Proof.
  intros Hsc Hs Hr. rewrite editorDrawStatusBar_bar by done.
  exists (status_bar E). split; [done|]. split; [by apply status_bar_length|].
  pose proof (rstatus_text_length E) as Hr1. unfold status_bar. cbv zeta.
  destruct (Nat.leb_spec (length (rstatus_text E))
              (Z.to_nat (screencols E) - length (status_text E))) as [Hle|Hgt].
  - assert (take (Z.to_nat (screencols E)) (status_text E) = status_text E) as ->
      by (apply take_ge; lia).
    split; [intros _; by eexists|]. intros Hw. lia.
  - split; [intros Hw; lia|]. intros _.
    destruct (Nat.le_gt_cases (Z.to_nat (screencols E)) (length (status_text E))).
    + replace (Z.to_nat (screencols E) - length (status_text E))%nat with 0%nat by lia.
      rewrite take_app_le by done.
      by rewrite app_nil_r.
    + rewrite take_app_ge, take_replicate by lia.
      rewrite (take_ge (status_text E)) by lia. do 2 f_equal. lia.
Qed.

Lemma editorDrawStatusBar_width_witness :
  let E := mkE 0 0 0 0 0 22 40 [mkRow [97] [97]] 1 (Some (bytes "notes.txt")) [] in
  exists bar,
    editorDrawStatusBar E [] = Some ([] ++ seq_invert ++ bar ++ seq_normal ++ crlf) /\
    Z.of_nat (length bar) = screencols E /\
    (Z.of_nat (length (status_text E) + length (rstatus_text E)) <= screencols E ->
     exists gap, bar = status_text E ++ replicate gap SPACE ++ rstatus_text E) /\
    (screencols E < Z.of_nat (length (status_text E) + length (rstatus_text E)) ->
     bar = take (Z.to_nat (screencols E))
             (status_text E ++ replicate (Z.to_nat (screencols E)) SPACE)).
Proof.
  intros E. apply (editorDrawStatusBar_width E []); subst E.
  - simpl. lia.
  - vm_compute. lia.
  - vm_compute. lia.
Defined.

Lemma editorRowCxToRx_nonneg r cx v : editorRowCxToRx r cx = Some v -> 0 <= v.
Proof.
  unfold editorRowCxToRx. case_match; [done|]. intros [= <-].
  rewrite cx_to_rx_render_start. lia.
Qed.

Lemma editorScroll_rx_nonneg E E' : editorScroll E = Some E' -> 0 <= rx E'.
Proof.
  intros H. unfold editorScroll in H. apply bind_Some in H as (E1 & H1 & H2).
  assert (rx E' = rx E1) as ->
    by (injection H2 as <-; cbv zeta; by repeat case_match).
  destruct (cy E <? numrows E); [|by injection H1 as <-].
  apply bind_Some in H1 as (ri & _ & H1).
  apply bind_Some in H1 as (r0 & _ & H1).
  apply bind_Some in H1 as (v & Hv & H1). injection H1 as <-.
  simpl. by eapply editorRowCxToRx_nonneg.
Qed.

Lemma editorScroll_window E :
  cursor_ok E -> 0 <= rowoff E -> 0 <= coloff E ->
  0 < screenrows E -> 0 < screencols E ->
  exists E', editorScroll E = Some E' /\
    (0 <= rowoff E' <= cy E' /\ cy E' < rowoff E' + screenrows E') /\
    (0 <= coloff E' <= rx E' /\ rx E' < coloff E' + screencols E') /\
    screenrows E' = screenrows E /\ screencols E' = screencols E /\
    row E' = row E /\ dirty E' = dirty E /\ filename E' = filename E /\
    statusmsg E' = statusmsg E /\ cy E' = cy E.
Proof.
  intros Hok Hro Hco Hsr Hsc.
  destruct (editorScroll_safe E Hok Hro)
    as (E' & Hrun & _ & Hro' & Hcy & Hsr' & Hrow & Hd & Hf & Hm).
  exists E'. split; [done|].
  pose proof (editorScroll_rx_nonneg _ _ Hrun) as Hrx.
  pose proof (editorScroll_frame _ _ Hrun) as (_ & _ & _ & _ & Hcy' & _).
  destruct (editorScroll_rx _ _ Hrun) as (v & HE & Hv & Hro2 & Hco2).
  assert (screencols E' = screencols E) as Hsc' by (rewrite HE; done).
  assert (rowoff E' <= cy E /\ cy E < rowoff E' + screenrows E) as Hr
    by (rewrite Hro2; cbv zeta; repeat case_match; zbool; lia).
  assert (0 <= coloff E' <= v /\ v < coloff E' + screencols E) as Hc
    by (rewrite Hco2; cbv zeta; repeat case_match; zbool; lia).
  rewrite Hsr', Hsc', Hcy', Hv. split_and!; try done; lia.
Qed.

Lemma status_text_rows E E' :
  row E' = row E -> dirty E' = dirty E -> filename E' = filename E -> cy E' = cy E ->
  status_text E' = status_text E /\ rstatus_text E' = rstatus_text E.
Proof.
  intros Hr Hd Hf Hc. unfold status_text, rstatus_text, numrows.
  by rewrite Hr, Hd, Hf, Hc.
Qed.

(** X17.  The frame that [editorRefreshScreen] writes: cursor hidden,
    cursor home, [screenrows] text lines, the status bar, the message
    bar, the cursor address and cursor shown.  No line is wider than the
    window, the status bar is exactly as wide, the message is shown only
    while it is less than five seconds old, and the cursor is addressed
    at a line and a column inside the text area (counted from 1). *)
Theorem refresh_frame_layout (age : Z) (E : editorConfig) :
  cursor_ok E -> 0 <= rowoff E -> 0 <= coloff E ->
  0 < screenrows E -> 0 < screencols E ->
  (length (status_text E) <= 79)%nat -> (length (rstatus_text E) <= 79)%nat ->
  exists E1 lines bar msg r c,
    editorRefreshScreen E = Some E1 /\
    refresh_frame age E
    = Some (E1, seq_hide_cursor ++ seq_home ++ frame_lines lines
                  ++ seq_invert ++ bar ++ seq_normal ++ crlf
                  ++ seq_clear_line ++ msg
                  ++ take 31 (cursor_to r c) ++ seq_show_cursor) /\
    length lines = Z.to_nat (screenrows E) /\ Forall (fits E) lines /\
    Z.of_nat (length bar) = screencols E /\
    fits E msg /\
    (if age <? 5 then msg `prefix_of` statusmsg E else msg = []) /\
    r = cy E1 - rowoff E1 + 1 /\ c = rx E1 - coloff E1 + 1 /\
    1 <= r <= screenrows E /\ 1 <= c <= screencols E.
Proof.
  intros Hok Hro Hco Hsr Hsc Hs Hr.
  destruct (editorScroll_window E Hok Hro Hco Hsr Hsc)
    as (E1 & Hrun & Hrows & Hcols & Hsr1 & Hsc1 & Hrow & Hd & Hf & Hm & Hcy).
  destruct (status_text_rows E E1 Hrow Hd Hf Hcy) as [Hst Hrst].
  exists E1, (screen_line E1 <$> seqZ 0 (Z.of_nat (Z.to_nat (screenrows E1)))),
    (status_bar E1),
    (if age <? 5 then take (Z.to_nat (screencols E1)) (statusmsg E1) else []),
    (cy E1 - rowoff E1 + 1), (rx E1 - coloff E1 + 1).
  split; [done|]. split.
  - unfold refresh_frame. rewrite Hrun. obind.
    rewrite (abAppend_all [] seq_hide_cursor) by done. obind.
    rewrite (abAppend_all _ seq_home) by done. obind.
    unfold editorDrawRows. rewrite draw_rows_from_lines by lia. obind.
    rewrite editorDrawStatusBar_bar by (rewrite ?Hst, ?Hrst; lia). obind.
    rewrite editorDrawMessageBar_text by lia. obind. cbv zeta.
    rewrite abAppend_all by done. obind.
    rewrite (abAppend_all _ seq_show_cursor) by done. obind.
    do 2 f_equal. cbn [app]. by rewrite <- !app_assoc.
  - split; [by rewrite length_fmap, length_seqZ, Nat2Z.id, Hsr1|].
    split.
    { apply Forall_fmap, Forall_forall. intros y _. unfold fits. rewrite <- Hsc1.
      apply screen_line_fits. lia. }
    split; [rewrite <- Hsc1; apply status_bar_length; lia|].
    split.
    { unfold fits. destruct (age <? 5); [rewrite length_take|simpl]; lia. }
    split.
    { destruct (age <? 5); [|done]. rewrite Hm. apply prefix_take. }
    split_and!; try done; lia.
Qed.

Lemma refresh_frame_layout_witness :
  let E := mkE 1 0 0 0 0 22 80 [mkRow [9; 120] [32; 32; 32; 32; 120]] 3 None msg_help in
  exists E1 lines bar msg r c,
    editorRefreshScreen E = Some E1 /\
    refresh_frame 1 E
    = Some (E1, seq_hide_cursor ++ seq_home ++ frame_lines lines
                  ++ seq_invert ++ bar ++ seq_normal ++ crlf
                  ++ seq_clear_line ++ msg
                  ++ take 31 (cursor_to r c) ++ seq_show_cursor) /\
    length lines = Z.to_nat (screenrows E) /\ Forall (fits E) lines /\
    Z.of_nat (length bar) = screencols E /\
    fits E msg /\
    (if 1 <? 5 then msg `prefix_of` statusmsg E else msg = []) /\
    r = cy E1 - rowoff E1 + 1 /\ c = rx E1 - coloff E1 + 1 /\
    1 <= r <= screenrows E /\ 1 <= c <= screencols E.
Proof.
  intros E. apply (refresh_frame_layout 1 E); subst E.
  - cursor_ok_compute.
  - simpl; lia.
  - simpl; lia.
  - simpl; lia.
  - simpl; lia.
  - vm_compute; lia.
  - vm_compute; lia.
Defined.

(** ** The text collected by [editorPrompt] *)

Lemma prompt_key_line buf c :
  line_key c ->
  prompt_key buf c
  = PromptAgain (if (c =? BACKSPACE) || (c =? CTRL_KEY 104) then removelast buf
                 else buf ++ [c]).
Proof.
  intros Hc. unfold prompt_key.
  assert (c <> DEL_KEY) by (destruct Hc as [?| ->]; [unfold DEL_KEY; lia|done]).
  replace (c =? DEL_KEY) with false by (symmetry; by apply Z.eqb_neq).
  rewrite (orb_comm (c =? BACKSPACE)). cbn [orb].
  rewrite (orb_comm (c =? CTRL_KEY 104)).
  destruct ((c =? BACKSPACE) || (c =? CTRL_KEY 104)) eqn:Hb.
  - destruct buf as [|b buf]; [done|]. cbn [length negb Nat.eqb].
    f_equal. rewrite removelast_firstn_len. f_equal. simpl. lia.
  - zbool. destruct Hb as [Hb1 Hb2]. destruct Hc as [Hc|Hc]; [|done].
    unfold BACKSPACE in Hb1.
    replace (c =? ESC) with false by (symmetry; apply Z.eqb_neq; unfold ESC; lia).
    replace (c =? CR) with false by (symmetry; apply Z.eqb_neq; unfold CR; lia).
    replace (negb (iscntrl c) && (c <? 128)) with true.
    + replace (char_of_int c) with c; [done|]. unfold char_of_int.
      rewrite Z.mod_small by lia. lia.
    + symmetry. unfold iscntrl. zbool. lia.
Qed.

Lemma prompt_from_keys p rest en sc ks : forall buf E,
  cursor_ok E -> 0 <= rowoff E -> Forall line_key ks -> typed buf ks <> [] ->
  exists E',
    prompt_from p buf E (mkOs ((Got <$> ks) ++ Got CR :: rest) en sc)
    = Done (Some (typed buf ks), E', mkOs rest en sc) /\
    statusmsg E' = [] /\ row E' = row E /\ cx E' = cx E /\ cy E' = cy E.
Proof.
  induction ks as [|c ks IH]; intros buf E Hok Hro Hks Hne;
    rewrite prompt_from_unroll; unfold editorRefreshScreen;
    (destruct (editorScroll_safe (editorSetStatusMessage (apply_fmt p buf) E))
       as (E2 & Hs & Hok2 & Hro2 & _ & _ & Hrow2 & _ & _ & _); [done|done|]);
    pose proof (editorScroll_frame _ _ Hs) as (_ & _ & _ & Hcx2 & Hcy2 & _);
    rewrite Hs; cbn [defined mbind res_bind fmap list_fmap app].
  - rewrite editorReadKey_plain by done. cbn [mbind res_bind].
    rewrite prompt_key_enter. cbn [typed] in *.
    destruct (decide (buf = [])); [done|]. eexists. split; [reflexivity|].
    simpl in *. done.
  - inversion Hks as [|? ? Hc Hks']; subst.
    rewrite editorReadKey_plain
      by (destruct Hc as [?| ->]; [unfold ESC; lia|done]).
    cbn [mbind res_bind]. rewrite prompt_key_line by done.
    cbn [typed] in Hne |- *.
    destruct (IH _ E2 Hok2 Hro2 Hks' Hne) as (E' & -> & ? & ? & ? & ?).
    exists E'. split; [done|]. simpl in *. split_and!; congruence.
Qed.

(** X18.  [editorPrompt] is a line editor: when printable bytes,
    Backspace and Ctrl-H are typed and then Enter, it returns the text
    that those keys leave (each Backspace or Ctrl-H having taken the
    last byte away), provided that text is not empty; the keys up to
    Enter are consumed, the status message is cleared, and rows and
    cursor are as before. *)
Theorem editorPrompt_collects (p : fmt_s) (E : editorConfig) (ks : list Z)
    (rest : list read_result) (en : Z) (sc : list sys_event) :
  cursor_ok E -> 0 <= rowoff E -> Forall line_key ks -> typed [] ks <> [] ->
  exists E',
    editorPrompt p E (mkOs ((Got <$> ks) ++ Got CR :: rest) en sc)
    = Done (Some (typed [] ks), E', mkOs rest en sc) /\
    statusmsg E' = [] /\ row E' = row E /\ cx E' = cx E /\ cy E' = cy E.
Proof. intros. unfold editorPrompt. by apply prompt_from_keys. Qed.

Lemma editorPrompt_collects_witness :
  exists E',
    editorPrompt save_prompt (initEditor 24 80)
      (mkOs ((Got <$> [97; 98; 127; 99]) ++ Got CR :: [Got 120]) 0 [])
    = Done (Some (typed [] [97; 98; 127; 99]), E', mkOs [Got 120] 0 []) /\
    statusmsg E' = [] /\ row E' = row (initEditor 24 80) /\
    cx E' = cx (initEditor 24 80) /\ cy E' = cy (initEditor 24 80).
Proof.
  apply (editorPrompt_collects save_prompt (initEditor 24 80) [97; 98; 127; 99]).
  - cursor_ok_compute.
  - simpl. lia.
  - repeat constructor; unfold line_key; lia.
  - simpl. discriminate.
Defined.

(** ** Page keys *)

Lemma snap_cursor_row E E' : snap_cursor E = Some E' -> cy E' = cy E /\ row E' = row E.
Proof.
  unfold snap_cursor. intros H. apply bind_Some in H as (n & _ & H).
  injection H as <-. by destruct (_ >? _).
Qed.

Lemma move_up_cy E E' :
  editorMoveCursor ARROW_UP E = Some E' ->
  cy E' = (if cy E =? 0 then cy E else cy E - 1) /\ row E' = row E.
Proof.
  unfold editorMoveCursor, move_step.
  change (ARROW_UP =? ARROW_LEFT) with false.
  change (ARROW_UP =? ARROW_RIGHT) with false. rewrite Z.eqb_refl.
  intros H. apply bind_Some in H as (E1 & H1 & H2).
  apply snap_cursor_row in H2 as [-> ->].
  destruct (cy E =? 0); by injection H1 as <-.
Qed.

Lemma move_down_cy E E' :
  editorMoveCursor ARROW_DOWN E = Some E' ->
  cy E' = (if cy E <? numrows E then cy E + 1 else cy E) /\ row E' = row E.
Proof.
  unfold editorMoveCursor, move_step.
  change (ARROW_DOWN =? ARROW_LEFT) with false.
  change (ARROW_DOWN =? ARROW_RIGHT) with false.
  change (ARROW_DOWN =? ARROW_UP) with false. rewrite Z.eqb_refl.
  intros H. apply bind_Some in H as (E1 & H1 & H2).
  apply snap_cursor_row in H2 as [-> ->].
  destruct (cy E <? numrows E); by injection H1 as <-.
Qed.

Lemma move_times_up n : forall E E',
  0 <= cy E -> move_times n ARROW_UP E = Some E' ->
  cy E' = Z.max 0 (cy E - Z.of_nat n) /\ row E' = row E.
Proof.
  induction n as [|n IH]; intros E E' Hcy; cbn [move_times].
  - intros [= <-]. split; [lia|done].
  - intros H. apply bind_Some in H as (E1 & H1 & H2).
    apply move_up_cy in H1 as [Hc1 Hr1].
    apply IH in H2 as [-> ->]; [|destruct (Z.eqb_spec (cy E) 0); lia].
    split; [|done]. rewrite Hc1. destruct (Z.eqb_spec (cy E) 0); lia.
Qed.

Lemma move_times_down n : forall E E',
  cy E <= numrows E -> move_times n ARROW_DOWN E = Some E' ->
  cy E' = Z.min (numrows E) (cy E + Z.of_nat n) /\ row E' = row E.
Proof.
  induction n as [|n IH]; intros E E' Hcy; cbn [move_times].
  - intros [= <-]. split; [lia|done].
  - intros H. apply bind_Some in H as (E1 & H1 & H2).
    apply move_down_cy in H1 as [Hc1 Hr1].
    assert (numrows E1 = numrows E) as Hn by (unfold numrows; by rewrite Hr1).
    apply IH in H2 as [-> ->];
      [|rewrite Hn, Hc1; destruct (Z.ltb_spec (cy E) (numrows E)); lia].
    split; [|done]. rewrite Hn, Hc1.
    destruct (Z.ltb_spec (cy E) (numrows E)); lia.
Qed.

Lemma keypress_page strerror fs p w1 c :
  editorReadKey (world p) = Done (c, w1) -> c = PAGE_UP \/ c = PAGE_DOWN ->
  editorProcessKeypress strerror fs p =
  (let E := ed p in
   let E1 :=
     if c =? PAGE_UP then set_cy (rowoff E) E
     else
       let E' := set_cy (rowoff E + screenrows E - 1) E in
       if cy E' >? numrows E' then set_cy (numrows E') E' else E' in
   finish (if screenrows E1 <? 0 then Undef
           else E2 ← defined (move_times (Z.to_nat (screenrows E1))
                                (if c =? PAGE_UP then ARROW_UP else ARROW_DOWN) E1);
                Done (E2, w1))).
Proof.
  intros Hk Hc. unfold editorProcessKeypress. rewrite Hk.
  by destruct Hc as [-> | ->].
Qed.

(** X19.  The page keys with a valid cursor and a window that starts
    inside the document.  PageUp leaves the cursor [screenrows] rows
    above the first row of the window, PageDown [screenrows] rows below
    its last row, both stopped by the ends of the document; the rows are
    unchanged and the cursor is valid. *)
Theorem page_keys_target (strerror : Z -> list Z) (fs : fs_reply) (p : proc)
    (c : Z) (w1 : os) :
  editorReadKey (world p) = Done (c, w1) ->
  cursor_ok (ed p) -> 0 <= rowoff (ed p) <= numrows (ed p) -> 0 < screenrows (ed p) ->
  c = PAGE_UP \/ c = PAGE_DOWN ->
  exists E',
    editorProcessKeypress strerror fs p = Done (mkProc E' ATTO_QUIT_TIMES w1) /\
    cy E' = (if c =? PAGE_UP
             then Z.max 0 (rowoff (ed p) - screenrows (ed p))
             else Z.min (numrows (ed p))
                    (rowoff (ed p) + screenrows (ed p) - 1 + screenrows (ed p))) /\
    row E' = row (ed p) /\ cursor_ok E'.
Proof.
  intros Hk Hok Hro Hsr Hc. rewrite (keypress_page _ _ _ _ _ Hk Hc). cbv zeta.
  set (E := ed p) in *. pose proof Hok as [Hcx _].
  destruct Hc as [-> | ->].
  - change (PAGE_UP =? PAGE_UP) with true. cbn match.
    replace (screenrows (set_cy (rowoff E) E) <? 0) with false
      by (symmetry; zbool; simpl; lia).
    replace (Z.to_nat (screenrows (set_cy (rowoff E) E)))
      with (S (Z.to_nat (screenrows E - 1))) by (simpl; lia).
    destruct (move_times_vertical_ok (Z.to_nat (screenrows E - 1)) ARROW_UP
                (set_cy (rowoff E) E)) as (E' & Hrun & Hok'); [by left|done|simpl; lia|].
    rewrite Hrun. cbn [defined mbind res_bind finish].
    exists E'. split; [done|].
    apply move_times_up in Hrun as [-> ->]; [|simpl; lia].
    split; [simpl; lia|done].
  - change (PAGE_DOWN =? PAGE_UP) with false. cbn match.
    set (E1 := if cy (set_cy (rowoff E + screenrows E - 1) E)
                    >? numrows (set_cy (rowoff E + screenrows E - 1) E)
               then set_cy (numrows (set_cy (rowoff E + screenrows E - 1) E))
                      (set_cy (rowoff E + screenrows E - 1) E)
               else set_cy (rowoff E + screenrows E - 1) E).
    assert (HE1 : cy E1 = Z.min (numrows E) (rowoff E + screenrows E - 1) /\
                  row E1 = row E /\ cx E1 = cx E /\ screenrows E1 = screenrows E).
    { subst E1. destruct (Z.gtb_spec (cy (set_cy (rowoff E + screenrows E - 1) E))
                            (numrows (set_cy (rowoff E + screenrows E - 1) E))) as [H|H];
        unfold numrows in *; simpl in *; (split; [lia|done]). }
    destruct HE1 as (Hcy1 & Hrow1 & Hcx1 & Hsr1).
    assert (Hn1 : numrows E1 = numrows E) by (unfold numrows; by rewrite Hrow1).
    clearbody E1. rewrite Hsr1.
    replace (screenrows E <? 0) with false by (symmetry; zbool; lia).
    replace (Z.to_nat (screenrows E))
      with (S (Z.to_nat (screenrows E - 1))) by lia.
    destruct (move_times_vertical_ok (Z.to_nat (screenrows E - 1)) ARROW_DOWN E1)
      as (E' & Hrun & Hok'); [by right|lia|lia|].
    rewrite Hrun. cbn [defined mbind res_bind finish].
    exists E'. split; [done|].
    apply move_times_down in Hrun as [-> ->]; [|lia].
    rewrite Hrow1. split; [lia|done].
Qed.

Lemma page_keys_target_witness :
  let strerror := fun _ : Z => bytes "Error" in
  let E := mkE 1 3 0 2 0 4 80 (replicate 20 (mkRow [97; 98] [97; 98])) 0 None [] in
  let p := mkProc E 2 (mkOs [Got 27; Got 91; Got 54; Got 126] 0 []) in
  exists E',
    editorProcessKeypress strerror (WriteReturns 0) p
      = Done (mkProc E' ATTO_QUIT_TIMES (mkOs [] 0 [])) /\
    cy E' = 9 /\ row E' = row E /\ cursor_ok E'.
Proof.
  intros strerror E p.
  apply (page_keys_target strerror (WriteReturns 0) p PAGE_DOWN (mkOs [] 0 [])).
  - reflexivity.
  - subst p E. cursor_ok_compute.
  - subst p E. unfold numrows. simpl. lia.
  - subst p E. simpl. lia.
  - by right.
Defined.

(** ** Typing text *)

Lemma keypress_plain strerror fs p c w1 :
  editorReadKey (world p) = Done (c, w1) -> 32 <= c < 127 ->
  editorProcessKeypress strerror fs p =
  finish (E' ← defined (editorInsertChar c (ed p)); Done (E', w1)).
Proof.
  intros Hk Hc. unfold editorProcessKeypress. rewrite Hk. cbn [mbind res_bind].
  assert (Hne : forall k, (k < 32 \/ 127 <= k) -> (c =? k) = false)
    by (intros k Hk'; apply Z.eqb_neq; lia).
  rewrite !Hne; [done|..];
    unfold ARROW_RIGHT, ARROW_LEFT, ARROW_DOWN, ARROW_UP, PAGE_DOWN, PAGE_UP,
      DEL_KEY, BACKSPACE, END_KEY, HOME_KEY, ESC, CR, CTRL_KEY;
    first [lia | left; reflexivity].
Qed.

Lemma turn_types_byte strerror fs E q c rest en sc r :
  cursor_ok E -> 0 <= rowoff E -> row E !! Z.to_nat (cy E) = Some r ->
  32 <= c < 127 ->
  exists E',
    editor_turn strerror fs (mkProc E q (mkOs (Got c :: rest) en sc))
    = Done (mkProc E' ATTO_QUIT_TIMES (mkOs rest en sc)) /\
    row E' = <[Z.to_nat (cy E) :=
                 editorUpdateRow (mkRow (take (Z.to_nat (cx E)) (chars r) ++ c
                                           :: drop (Z.to_nat (cx E)) (chars r))
                                    (render r))]> (row E) /\
    cx E' = cx E + 1 /\ cy E' = cy E /\ dirty E' = dirty E + 1 /\
    cursor_ok E' /\ 0 <= rowoff E'.
Proof.
  intros Hok Hro Hr Hc. unfold editor_turn, editorRefreshScreen. cbn [ed world quit_times].
  destruct (editorScroll_safe E Hok Hro)
    as (E1 & Hs & Hok1 & Hro1 & _ & _ & Hrow1 & Hd1 & _ & _).
  pose proof (editorScroll_frame _ _ Hs) as (_ & _ & _ & Hcx1 & Hcy1 & _).
  rewrite Hs. cbn [defined mbind res_bind].
  rewrite (keypress_plain _ _ _ c (mkOs rest en sc));
    [|apply editorReadKey_plain; unfold ESC; lia|done].
  cbn [ed].
  pose proof Hok1 as [Hcxr Hcyr]. unfold rowLength in Hcxr.
  rewrite Hcy1, Hrow1, Hr, Hcx1 in Hcxr.
  rewrite (editorInsertChar_inside E1 r c) by (rewrite ?Hcy1, ?Hrow1, ?Hcx1; done || lia).
  cbn [defined mbind res_bind finish].
  eexists. split; [reflexivity|].
  assert (char_of_int c = c) as Hch
    by (unfold char_of_int; rewrite Z.mod_small by lia; lia).
  rewrite Hch. cbn [row cx cy dirty rowoff set_cx set_dirty set_row].
  rewrite Hcx1, Hcy1, Hrow1, Hd1. split; [done|].
  do 3 (split; [done|]). split; [|done].
  destruct (editorInsertChar_ok c E1 Hok1) as (E' & HE' & Hok').
  rewrite (editorInsertChar_inside E1 r c) in HE'
    by (rewrite ?Hcy1, ?Hrow1, ?Hcx1; done || lia).
  injection HE' as <-. rewrite Hch in Hok'.
  eapply cursor_ok_ext; [| | |exact Hok']; simpl; by rewrite ?Hcx1, ?Hcy1, ?Hrow1.
Qed.

(** X20.  Typing printable text: when the cursor is on an existing row
    and the bytes [s] (all from space to tilde) arrive from the
    terminal, [length s] turns of the main loop insert [s] into that row
    at the cursor, leave the other rows as they are, move the cursor
    [length s] columns to the right and raise [dirty] by [length s]. *)
Theorem typing_inserts_text (strerror : Z -> list Z) (fss : list fs_reply)
    (E : editorConfig) (q : Z) (s : list Z) (r : erow)
    (rest : list read_result) (en : Z) (sc : list sys_event) :
  length fss = length s -> Forall (fun c => 32 <= c < 127) s ->
  cursor_ok E -> 0 <= rowoff E -> row E !! Z.to_nat (cy E) = Some r ->
  exists E' q',
    main_loop strerror fss (mkProc E q (mkOs ((Got <$> s) ++ rest) en sc))
    = Done (mkProc E' q' (mkOs rest en sc)) /\
    chars <$> row E'
    = <[Z.to_nat (cy E) := take (Z.to_nat (cx E)) (chars r) ++ s
                             ++ drop (Z.to_nat (cx E)) (chars r)]> (chars <$> row E) /\
    cx E' = cx E + Z.of_nat (length s) /\ cy E' = cy E /\
    dirty E' = dirty E + Z.of_nat (length s).
Proof.
  revert fss E q r rest en sc.
  induction s as [|c s IH]; intros fss E q r rest en sc Hlen Hs Hok Hro Hr.
  - destruct fss; [|done]. exists E, q. split; [done|].
    cbn [app length]. rewrite take_drop.
    split; [|lia]. symmetry. apply list_insert_id. by rewrite list_lookup_fmap, Hr.
  - destruct fss as [|fs fss]; [done|]. injection Hlen as Hlen.
    apply Forall_cons in Hs as [Hc Hs]. cbn [main_loop fmap list_fmap app].
    destruct (turn_types_byte strerror fs E q c ((Got <$> s) ++ rest) en sc r Hok Hro Hr Hc)
      as (E1 & -> & Hrow1 & Hcx1 & Hcy1 & Hd1 & Hok1 & Hro1).
    cbn [mbind res_bind].
    pose proof Hok as [Hcx _]. unfold rowLength in Hcx. rewrite Hr in Hcx.
    unfold size in Hcx.
    set (r1 := editorUpdateRow _) in Hrow1.
    assert (Hr1 : row E1 !! Z.to_nat (cy E1) = Some r1).
    { rewrite Hcy1, Hrow1. apply list_lookup_insert_eq. by eapply lookup_lt_Some. }
    destruct (IH fss E1 ATTO_QUIT_TIMES r1 rest en sc Hlen Hs Hok1 Hro1 Hr1)
      as (E' & q' & -> & Hrows & Hcx' & Hcy' & Hd').
    exists E', q'. split; [done|].
    split; [|cbn [length]; lia].
    rewrite Hrows, Hcy1, Hcx1, Hrow1, list_fmap_insert, list_insert_insert_eq.
    f_equal. subst r1. cbn [chars editorUpdateRow].
    replace (Z.to_nat (cx E + 1)) with (length (take (Z.to_nat (cx E)) (chars r)) + 1)%nat
      by (rewrite length_take; lia).
    rewrite take_app_add, drop_app_add. cbn [take drop].
    by rewrite <- !app_assoc.
Qed.


Lemma typing_inserts_text_witness :
  let strerror := fun _ : Z => bytes "Error" in
  let E := mkE 1 0 0 0 0 22 80 [mkRow [97; 98] [97; 98]] 0 None [] in
  exists E' q',
    main_loop strerror [WriteReturns 0; WriteReturns 0]
      (mkProc E 2 (mkOs ((Got <$> [120; 121]) ++ [Got 17]) 0 []))
    = Done (mkProc E' q' (mkOs [Got 17] 0 [])) /\
    chars <$> row E' = [[97; 120; 121; 98]] /\
    cx E' = 3 /\ cy E' = 0 /\ dirty E' = 2.
Proof.
  intros strerror E.
  apply (typing_inserts_text strerror [WriteReturns 0; WriteReturns 0] E 2 [120; 121]
           (mkRow [97; 98] [97; 98]) [Got 17] 0 []).
  - reflexivity.
  - repeat constructor; lia.
  - subst E. cursor_ok_compute.
  - simpl. lia.
  - reflexivity.
Defined.

(** ** The rows that [editorOpen] loads *)

Lemma read_line_shape s :
  exists l0, (NL ∉ l0) /\ ((read_line s).1 = l0 \/ (read_line s).1 = l0 ++ [NL]).
Proof.
  induction s as [|c s IH]; simpl.
  - exists []. split; [apply not_elem_of_nil | by left].
  - destruct (Z.eqb_spec c NL) as [->|Hc]; simpl.
    + exists []. split; [apply not_elem_of_nil | by right].
    + destruct IH as (l0 & Hl0 & Hs). destruct (read_line s) as [l rest]. simpl in *.
      exists (c :: l0). split; [by apply not_elem_of_cons|].
      destruct Hs as [-> | ->]; [by left | by right].
Qed.

Lemma trim_rev_suffix rl : trim_rev rl `suffix_of` rl.
Proof.
  induction rl as [|c rl IH]; simpl; [done|].
  destruct (_ || _); [by apply suffix_cons_r | done].
Qed.

Lemma trim_rev_head rl : head (trim_rev rl) <> Some NL /\ head (trim_rev rl) <> Some CR.
Proof.
  induction rl as [|c rl IH]; simpl; [done|].
  destruct (Z.eqb_spec c NL) as [->|Hn]; [done|].
  destruct (Z.eqb_spec c CR) as [->|Hr]; [done|].
  simpl. split; congruence.
Qed.

Lemma trim_eol_shape l :
  NL ∉ l -> (NL ∉ trim_eol l) /\ last (trim_eol l) <> Some CR.
Proof.
  intros Hl. unfold trim_eol. split.
  - rewrite elem_of_reverse. intros Hin. apply Hl.
    rewrite <- elem_of_reverse.
    destruct (trim_rev_suffix (reverse l)) as [k Hk]. rewrite Hk.
    apply elem_of_app. by right.
  - rewrite last_reverse. apply trim_rev_head.
Qed.

Lemma open_loop_loaded fuel : forall s E E',
  open_loop fuel s E = Some E' ->
  exists new, row E' = row E ++ new /\ Forall loaded new /\
    (length new <= length s)%nat.
Proof.
  induction fuel as [|fuel IH]; intros s E E'; [done|]. cbn [open_loop].
  destruct (getline s) as [[line rest]|] eqn:Hg.
  2:{ intros [= <-]. exists []. rewrite app_nil_r. split; [done|]. split; [done|simpl; lia]. }
  intros H. apply IH in H as (new & Hrow & Hnew & Hlen).
  rewrite editorInsertRow_append in Hrow. cbn [row set_dirty set_row] in Hrow.
  exists (editorUpdateRow (mkRow (trim_eol line) []) :: new).
  split; [by rewrite Hrow, <- app_assoc|].
  apply getline_shorter in Hg as Hshort.
  split; [|simpl; lia].
  apply Forall_cons. split; [|done].
  assert ((NL ∉ trim_eol line) /\ last (trim_eol line) <> Some CR) as [? ?].
  { destruct s as [|c s]; [done|]. unfold getline in Hg. injection Hg as Hg.
    destruct (read_line_shape (c :: s)) as (l0 & Hl0 & Hs).
    change (read_line (c :: s) = (line, rest)) in Hg.
    rewrite Hg in Hs. simpl in Hs.
    destruct Hs as [-> | ->]; rewrite ?trim_eol_newline; by apply trim_eol_shape. }
  split; [done|]. split; [done|]. apply synced_update.
Qed.

(** X21.  [editorOpen] on a file that exists always returns; it appends
    rows to those already there, at most one per byte of the file, and
    every row it appends holds no newline, does not end in a carriage
    return, and is rendered; [dirty] is 0, the file name is set and the
    cursor is not moved. *)
Theorem editorOpen_rows_loaded (name s : list Z) (E : editorConfig) :
  exists E' new,
    editorOpen name (Some s) E = Done E' /\
    row E' = row E ++ new /\ Forall loaded new /\ (length new <= length s)%nat /\
    dirty E' = 0 /\ filename E' = Some name /\ cx E' = cx E /\ cy E' = cy E.
Proof.
  unfold editorOpen.
  set (s1 := match getline s with Some (_, rest) => rest | None => s end).
  assert (length s1 <= length s)%nat as Hs1.
  { subst s1. destruct (getline s) as [[line rest]|] eqn:Hg; [|done].
    apply getline_shorter in Hg. lia. }
  destruct (open_loop_total (S (length s1)) s1 (set_filename (Some name) E)) as [E1 H];
    [lia|].
  rewrite H. cbn [fueled mbind res_bind].
  destruct (open_loop_loaded _ _ _ _ H) as (new & Hrow & Hnew & Hlen).
  destruct (open_loop_keeps _ _ _ _ H) as (((_ & _ & _ & _ & Hf) & _) & Hcx & Hcy).
  exists (set_dirty 0 E1), new. split; [done|].
  cbn [row dirty filename cx cy set_dirty] in *.
  split; [done|]. split; [done|]. split; [lia|]. by rewrite Hf, Hcx, Hcy.
Qed.

(** ** The viewer [src/kilo.c] and the editor *)

Lemma open_loop_kilo fuel : forall s E K,
  set_dirty 0 E = set_dirty 0 K ->
  set_dirty 0 <$> open_loop fuel s E = set_dirty 0 <$> Kilo.open_loop fuel s K.
Proof.
  induction fuel as [|fuel IH]; intros s E K HEK; [done|].
  cbn [open_loop Kilo.open_loop].
  destruct (getline s) as [[line rest]|]; [|by cbn; f_equal].
  apply IH. rewrite editorInsertRow_append. unfold Kilo.editorAppendRow.
  destruct E, K. unfold set_dirty, set_row in *. simpl in *.
  by injection HEK as -> -> -> -> -> -> -> -> -> ->.
Qed.

(** X22.  Loading a file is the same in both programs: [editorOpen] of
    [src/atto.c] gives what [editorOpen] of [src/kilo.c] gives, with
    [dirty] set to 0; in particular both skip the first line of the
    file, and both end the process when the file cannot be opened. *)
Theorem editorOpen_as_in_kilo (name : list Z) (file : option (list Z))
    (E : editorConfig) :
  editorOpen name file E = (K ← Kilo.editorOpen name file E; Done (set_dirty 0 K)).
Proof.
  unfold editorOpen, Kilo.editorOpen. destruct file as [s|]; [|done].
  cbv zeta.
  set (s1 := match getline s with Some (_, rest) => rest | None => s end).
  pose proof (open_loop_kilo (S (length s1)) s1 (set_filename (Some name) E)
                (set_filename (Some name) E) eq_refl) as H.
  destruct (open_loop _ _ _) as [E1|], (Kilo.open_loop _ _ _) as [K1|];
    try done.
  assert (set_dirty 0 E1 = set_dirty 0 K1) as Hs by (cbn in H; congruence).
  cbn [fueled mbind res_bind]. by rewrite Hs.
Qed.

Lemma move_step_dirty key E E' : move_step key E = Some E' -> dirty E' = dirty E.
Proof.
  unfold move_step. intros H.
  repeat case_match; try (by injection H as <-);
    apply bind_Some in H as (? & ? & H); apply bind_Some in H as (? & ? & H);
    repeat case_match; by injection H as <-.
Qed.

Lemma editorMoveCursor_rows key E E' :
  editorMoveCursor key E = Some E' -> row E' = row E /\ dirty E' = dirty E.
Proof.
  intros H. pose proof (editorMoveCursor_keeps _ _ _ H) as (_ & _ & Hc).
  unfold editorMoveCursor in H. apply bind_Some in H as (E1 & H1 & H2).
  apply move_step_dirty in H1.
  assert (dirty E' = dirty E1) as Hd.
  { unfold snap_cursor in H2. apply bind_Some in H2 as (n & _ & H2).
    injection H2 as <-. by destruct (_ >? _). }
  destruct Hc as [[? ?]|?]; [done|lia].
Qed.

Lemma move_times_rows n key : forall E E',
  move_times n key E = Some E' -> row E' = row E /\ dirty E' = dirty E.
Proof.
  induction n as [|n IH]; intros E E'; cbn [move_times]; [by intros [= <-]|].
  intros H. apply bind_Some in H as (E1 & H1 & H2).
  apply editorMoveCursor_rows in H1 as [? ?]. apply IH in H2 as [? ?].
  split; congruence.
Qed.

(** X23.  On the keys that the viewer knows (Home, End, PageUp,
    PageDown and the arrows) the editor of [src/atto.c] changes the
    state exactly as the viewer of [src/kilo.c] does, and then resets
    its count of quit confirmations. *)
Theorem kilo_keys_in_atto (strerror : Z -> list Z) (fs : fs_reply)
    (E : editorConfig) (q : Z) (w : os) (c : Z) (w1 : os) :
  editorReadKey w = Done (c, w1) -> viewer_key c ->
  editorProcessKeypress strerror fs (mkProc E q w)
  = ('(E', w') ← Kilo.editorProcessKeypress E w; Done (mkProc E' ATTO_QUIT_TIMES w')).
Proof.
  intros Hk Hc. unfold editorProcessKeypress, Kilo.editorProcessKeypress.
  cbn [ed world quit_times]. rewrite Hk. cbn [mbind res_bind]. unfold finish.
  destruct Hc as [->|[->|[->|[->|[->|[->|[->| ->]]]]]]]; cbn; try done.
  all: repeat case_match; try done.
Qed.

Lemma kilo_keys_in_atto_witness :
  let strerror := fun _ : Z => bytes "Error" in
  let E := mkE 1 0 0 0 0 22 80 [mkRow [97; 98] [97; 98]] 0 None [] in
  let w := mkOs [Got 27; Got 91; Got 70] 0 [] in
  editorProcessKeypress strerror (WriteReturns 0) (mkProc E 1 w)
  = ('(E', w') ← Kilo.editorProcessKeypress E w; Done (mkProc E' ATTO_QUIT_TIMES w')).
Proof.
  intros strerror E w.
  apply (kilo_keys_in_atto strerror (WriteReturns 0) E 1 w END_KEY (mkOs [] 0 [])).
  - reflexivity.
  - unfold viewer_key. tauto.
Defined.

Lemma keeps_same_rows E E' :
  keeps E E' -> dirty E' = dirty E ->
  row E' = row E /\ filename E' = filename E /\ rowoff E' = rowoff E /\
  screenrows E' = screenrows E.
Proof.
  intros ((? & _ & ? & _ & ?) & _ & Hc) Hd.
  destruct Hc as [[? _]|?]; [done|lia].
Qed.

(** X24.  The viewer never changes the document.  [editorProcessKeypress]
    of [src/kilo.c], which draws nothing, called with a valid cursor, a
    window that starts inside the document and has at least one text
    row: whatever the key and the pending input, no row outside the
    document is accessed and every loop ends; when the call returns, the
    rows, the file name and the window are what they were and the cursor
    is valid. *)
Theorem kilo_viewer_keeps_rows (E : editorConfig) (w : os) :
  cursor_ok E -> 0 <= rowoff E <= numrows E -> 0 < screenrows E ->
  res_ok (fun '(E', w') =>
            row E' = row E /\ filename E' = filename E /\
            cursor_ok E' /\ rowoff E' = rowoff E /\ coloff E' = coloff E /\
            screenrows E' = screenrows E /\ screencols E' = screencols E)
    (Kilo.editorProcessKeypress E w).
Proof.
  intros Hok Hro Hsr. pose proof Hok as [Hcx Hcy].
  assert (Hfin : forall w1 (o : option editorConfig),
            (exists E', o = Some E' /\ keeps E E' /\ dirty E' = dirty E /\ cursor_ok E') ->
            res_ok (A := editorConfig * os) (fun '(E', w') =>
                      row E' = row E /\ filename E' = filename E /\
                      cursor_ok E' /\ rowoff E' = rowoff E /\ coloff E' = coloff E /\
                      screenrows E' = screenrows E /\ screencols E' = screencols E)
              (E' ← defined o; Done (E', w1))).
  { intros w1 o (E' & -> & Hk & Hd & Hok'). cbn [defined mbind res_bind res_ok].
    destruct (keeps_same_rows _ _ Hk Hd) as (? & ? & ? & ?).
    destruct Hk as ((_ & ? & _ & ? & _) & _). done. }
  unfold Kilo.editorProcessKeypress.
  pose proof (editorReadKey_defined w) as Hdef.
  pose proof (editorReadKey_no_fuel w) as Hnf.
  destruct (editorReadKey w) as [[c w1]| | | |]; cbn [mbind res_bind res_ok]; try done.
  clear Hdef Hnf.
  destruct (c =? CTRL_KEY 113); [done|].
  destruct (c =? HOME_KEY).
  { apply (Hfin w1 (Some (set_cx 0 E))). eexists. split; [done|].
    split; [apply keeps_set_cx|]. split; [done|].
    apply cursor_ok_column_0; [|done]. unfold numrows in *. simpl. lia. }
  destruct (c =? END_KEY).
  { destruct (Z.ltb_spec (cy E) (numrows E)) as [Hlt|Hge].
    - apply Hfin.
      destruct (cursor_ok_row E Hok Hlt) as (r & Hr & Hcxr).
      rewrite row_index_inside by lia. cbn [mbind option_bind]. rewrite Hr.
      cbn [mbind option_bind]. eexists. split; [reflexivity|].
      pose proof (size_nonneg r).
      split; [apply keeps_set_cx|]. split; [done|].
      apply (cursor_ok_set_cx E _ r); [done | done | lia].
    - apply (Hfin w1 (Some E)). exists E. split; [done|].
      split; [apply keeps_refl|]. done. }
  destruct (_ || _).
  { set (E2 := if c =? PAGE_UP then _ else _).
    assert (HE2 : keeps E E2 /\ dirty E2 = dirty E /\
                  0 <= cy E2 <= numrows E2 /\ cx E2 = cx E).
    { subst E2. destruct (c =? PAGE_UP).
      - split; [apply keeps_set_cy|]. unfold numrows in *. simpl. lia.
      - cbn [cy numrows set_cy]. unfold numrows. cbn [row set_cy]. fold (numrows E).
        destruct (Z.gtb_spec (rowoff E + screenrows E - 1) (numrows E)).
        + split; [eapply keeps_trans; apply keeps_set_cy|].
          unfold numrows in *. simpl. lia.
        + split; [apply keeps_set_cy|]. unfold numrows in *. simpl. lia. }
    destruct HE2 as (Hk2 & Hd2 & Hcy2 & Hcx2).
    assert (Hsr2 : screenrows E2 = screenrows E)
      by (destruct Hk2 as [(_ & _ & ? & _) _]; done).
    rewrite Hsr2.
    replace (screenrows E <? 0) with false by (symmetry; zbool; lia).
    apply Hfin.
    destruct (Z.to_nat (screenrows E)) as [|n] eqn:Hn; [lia|].
    set (key := if c =? PAGE_UP then ARROW_UP else ARROW_DOWN).
    assert (Hkey : key = ARROW_UP \/ key = ARROW_DOWN).
    { subst key. destruct (c =? PAGE_UP); [by left | by right]. }
    destruct (move_times_vertical_ok n key E2 Hkey Hcy2 ltac:(lia)) as (E3 & H3 & Hok3).
    exists E3. split; [done|].
    split; [eapply keeps_trans; [done | by eapply move_times_keeps]|].
    split; [|done]. apply move_times_rows in H3 as [_ ->]. done. }
  destruct (_ || _).
  { apply Hfin. destruct (editorMoveCursor_ok c E Hok) as (E' & H' & Hok').
    exists E'. split; [done|]. split; [by eapply editorMoveCursor_keeps|].
    split; [|done]. by apply editorMoveCursor_rows in H' as [_ ?]. }
  apply (Hfin w1 (Some E)). exists E. split; [done|]. split; [apply keeps_refl|done].
Qed.

Lemma kilo_viewer_keeps_rows_witness :
  let E := mkE 1 0 0 0 0 22 80 [mkRow [97; 98] [97; 98]] 0 None [] in
  let w := mkOs [Got 27; Got 91; Got 54; Got 126] 0 [] in
  res_ok (fun '(E', w') =>
            row E' = row E /\ filename E' = filename E /\
            cursor_ok E' /\ rowoff E' = rowoff E /\ coloff E' = coloff E /\
            screenrows E' = screenrows E /\ screencols E' = screencols E)
    (Kilo.editorProcessKeypress E w).
Proof.
  intros E w. apply (kilo_viewer_keeps_rows E w); subst E.
  - cursor_ok_compute.
  - unfold numrows. simpl. lia.
  - simpl. lia.
Defined.

(** ** The render buffer *)




(** ** Saving, then quitting *)

Lemma keypress_save strerror fs p w1 :
  editorReadKey (world p) = Done (CTRL_KEY 115, w1) ->
  editorProcessKeypress strerror fs p = finish (editorSave strerror fs (ed p) w1).
Proof. intros Hk. unfold editorProcessKeypress. by rewrite Hk. Qed.

(** X26.  Save, then quit.  On a file that has a name, Ctrl-S answered
    by a complete write makes the calls open, ftruncate, write of the
    serialized rows, close, and leaves [dirty] at 0; a Ctrl-Q that
    follows ends the process with status 0 at once, whatever [dirty]
    and the count of confirmations were before. *)
Theorem save_then_quit (strerror : Z -> list Z) (fs2 : fs_reply) (E : editorConfig)
    (q : Z) (name : list Z) (rest : list read_result) (en : Z) (sc : list sys_event) :
  cursor_ok E -> 0 <= rowoff E -> filename E = Some name ->
  exists p1,
    editor_turn strerror (WriteReturns (rows_totlen (row E)))
      (mkProc E q (mkOs (Got (CTRL_KEY 115) :: Got (CTRL_KEY 113) :: rest) en sc))
    = Done p1 /\
    row (ed p1) = row E /\ dirty (ed p1) = 0 /\
    world p1 = mkOs (Got (CTRL_KEY 113) :: rest) en
                 (sc ++ [SysOpen name; SysFtruncate (rows_totlen (row E));
                         SysWrite (rows_buffer (row E)) (rows_totlen (row E));
                         SysClose]) /\
    editor_turn strerror fs2 p1 = Exit 0.
Proof.
  intros Hok Hro Hfn. unfold editor_turn at 1, editorRefreshScreen.
  cbn [ed world quit_times].
  destruct (editorScroll_safe E Hok Hro)
    as (E1 & -> & Hok1 & Hro1 & _ & _ & Hrow1 & _ & Hfn1 & _).
  cbn [defined mbind res_bind ed world quit_times].
  rewrite (keypress_save _ _ _ (mkOs (Got (CTRL_KEY 113) :: rest) en sc))
    by (by apply editorReadKey_plain).
  unfold editorSave. cbn [ed]. rewrite Hfn1, Hfn.
  unfold save_rows. cbn [editorRowsToString]. rewrite Hrow1, Z.eqb_refl.
  cbn [finish mbind res_bind stdin errno syscalls].
  eexists. split; [reflexivity|]. cbn [ed world].
  split; [done|]. split; [done|]. split; [done|].
  unfold editor_turn, editorRefreshScreen. cbn [ed world quit_times].
  set (E2 := editorSetStatusMessage _ _).
  destruct (editorScroll_safe E2) as (E3 & -> & _ & _ & _ & _ & _ & Hd3 & _);
    [by apply (cursor_ok_ext E1) | done |].
  cbn [defined mbind res_bind].
  eapply quit_key_exits; [by apply editorReadKey_plain|].
  left. cbn [ed]. by rewrite Hd3.
Qed.

Lemma save_then_quit_witness :
  let strerror := fun _ : Z => bytes "Error" in
  let E := mkE 1 0 0 0 0 22 80 [mkRow [97; 98] [97; 98]] 5 (Some (bytes "a.txt")) [] in
  exists p1,
    editor_turn strerror (WriteReturns (rows_totlen (row E)))
      (mkProc E 2 (mkOs (Got (CTRL_KEY 115) :: Got (CTRL_KEY 113) :: []) 0 []))
    = Done p1 /\
    row (ed p1) = row E /\ dirty (ed p1) = 0 /\
    world p1 = mkOs (Got (CTRL_KEY 113) :: []) 0
                 ([] ++ [SysOpen (bytes "a.txt"); SysFtruncate (rows_totlen (row E));
                         SysWrite (rows_buffer (row E)) (rows_totlen (row E));
                         SysClose]) /\
    editor_turn strerror (WriteReturns 0) p1 = Exit 0.
Proof.
  intros strerror E.
  apply (save_then_quit strerror (WriteReturns 0) E 2 (bytes "a.txt") [] 0 []).
  - subst E. cursor_ok_compute.
  - simpl. lia.
  - reflexivity.
Defined.

(** ** The editor with its redraws *)

(** *** The digits of [%d] *)








(** *** What can be drawn *)





(** *** The run with its frames and the run without them *)






(** *** What a turn does to the window and to the number of rows *)

















(** *** Turns and runs with their frames *)








